(** * tasker.js: the task manager and its timers

    A shallow embedding of the [TaskManager] class of tasker.js and the
    properties of its scheduling, cancellation and rescheduling.

    Two versions of the class are in the repository and both are modelled:
    - [Esm], the bundle [index.esm.mjs];
    - [Src], the class of [src/task.js], the input named in
      [rollup.config.js].
    They differ in [_scheduleTask] (what happens to a task that is already
    due), in how [createTask] builds the task object and in how [getTasks]
    builds its array.  [console.debug] and [console.warn] of [Src] write to
    the console only and are left out.

    JavaScript objects live in a store: a task object is referenced from the
    [Map], from the closure given to [setTimeout] and from the local variable
    [task] of the methods, and is updated in place.

    The class is modelled twice.  The first model is for programs that give
    the manager [Date]s that they do not change afterwards and callbacks
    that leave the manager alone.  The second, [Full], is for every program:
    any value as [targetTime] and as [callback], [Date] objects that are
    shared and changed in place, and callbacks that call the manager.  On
    the programs of the first model the two agree ([sim_step], [sim_run]). *)

From Stdlib Require Import ZArith Lia Bool.
From stdpp Require Import base numbers option list.

Open Scope Z_scope.

(** ** Values *)

(** A JavaScript number as far as the class uses one: an integer number of
    milliseconds, or NaN (the time value of an invalid [Date]).  Task
    identifiers and times stay far below 2^53, where the arithmetic of
    doubles is exact. *)
Inductive JsNumber :=
  | Num (z : Z)
  | NaN.

(** [a - b] *)
Definition js_sub (a b : JsNumber) : JsNumber :=
  match a, b with
  | Num x, Num y => Num (x - y)
  | _, _ => NaN
  end.

(** [a > 0]; every comparison with NaN is false. *)
Definition js_gt0 (a : JsNumber) : bool :=
  match a with
  | Num x => 0 <? x
  | NaN => false
  end.

(** A [Date]: a time value in milliseconds, or an invalid date.  The class
    never changes a date, and in this first model the program does not
    either, so dates are values here; in [Full] they are objects. *)
Inductive Date :=
  | DateMs (ms : Z)
  | InvalidDate.

(** [d.getTime()] *)
Definition getTime (d : Date) : JsNumber :=
  match d with
  | DateMs ms => Num ms
  | InvalidDate => NaN
  end.

(** A callback is opaque to the class.  It is known by a name, and it either
    returns or raises when called.  In this first model it is a function
    that does not call the methods of the manager that holds it; the other
    functions, and the values that cannot be called, are in [Full]. *)
Record Callback := mkCallback {
  cb_name : nat;
  cb_throws : bool
}.

(** References into the store and timer handles are counted from 0. *)
Abbreviation loc := nat (only parsing).
Abbreviation handle := nat (only parsing).

(** [class Task]: [timeoutId] is [None] for [null] (the constructor of [Src])
    and for a missing field (the object literal of [Esm]); [clearTimeout]
    ignores both. *)
Record Task := mkTask {
  id : Z;
  targetTime : Date;
  callback : Callback;
  timeoutId : option handle
}.

(** The objects of the store: task objects, the [{ id, targetTime }] objects
    of [getTasks], and arrays of references. *)
Inductive JsObj :=
  | TaskObj (t : Task)
  | EntryObj (e_id : Z) (e_targetTime : Date)
  | ArrayObj (elems : list loc).

(** A timer the host holds: its handle, the task object its closure
    [() => this._executeTask(task.id)] has captured, and its delay. *)
Record Timer := mkTimer {
  t_handle : handle;
  t_task : loc;
  t_delay : JsNumber
}.

(** One call of a callback: the identifier [_executeTask] looked up, the
    callback it called, and the keys of [this.tasks] at the moment of the
    call (what the callback would see of the map while it runs). *)
Record Event := mkEvent {
  ev_task : Z;
  ev_callback : Callback;
  ev_keys : list Z
}.

(** [class TaskManager]: [tasks] is a [Map], kept as an association list in
    insertion order. *)
Record TaskManager := mkTaskManager {
  tasks : list (Z * loc);
  nextTaskId : Z
}.

(** The manager [this] and what surrounds it: the object store, the clock
    behind [Date.now()], the timers of the host, and the calls made so far
    (oldest first). *)
Record World := mkWorld {
  heap : list JsObj;
  this : TaskManager;
  now : Z;
  timers : list Timer;
  nextHandle : handle;
  log : list Event
}.

Definition set_heap (h : list JsObj) (w : World) : World :=
  mkWorld h (this w) (now w) (timers w) (nextHandle w) (log w).
Definition set_this (m : TaskManager) (w : World) : World :=
  mkWorld (heap w) m (now w) (timers w) (nextHandle w) (log w).
Definition set_now (n : Z) (w : World) : World :=
  mkWorld (heap w) (this w) n (timers w) (nextHandle w) (log w).
Definition set_timers (ts : list Timer) (w : World) : World :=
  mkWorld (heap w) (this w) (now w) ts (nextHandle w) (log w).
Definition set_nextHandle (h : handle) (w : World) : World :=
  mkWorld (heap w) (this w) (now w) (timers w) h (log w).
Definition set_log (l : list Event) (w : World) : World :=
  mkWorld (heap w) (this w) (now w) (timers w) (nextHandle w) l.

(** ** The [Map] *)

Module JsMap.

Fixpoint get (k : Z) (m : list (Z * loc)) : option loc :=
  match m with
  | [] => None
  | (k', v) :: m' => if Z.eqb k k' then Some v else get k m'
  end.

(** [set] keeps the place of a key that is present and appends a new one. *)
Fixpoint set (k : Z) (v : loc) (m : list (Z * loc)) : list (Z * loc) :=
  match m with
  | [] => [(k, v)]
  | (k', v') :: m' =>
      if Z.eqb k k' then (k, v) :: m' else (k', v') :: set k v m'
  end.

Fixpoint delete (k : Z) (m : list (Z * loc)) : list (Z * loc) :=
  match m with
  | [] => []
  | (k', v) :: m' =>
      if Z.eqb k k' then delete k m' else (k', v) :: delete k m'
  end.

Definition keys (m : list (Z * loc)) : list Z := map fst m.
Definition values (m : list (Z * loc)) : list loc := map snd m.

End JsMap.

(** ** Computations: a state and an exception *)

Inductive Exn :=
  | CallbackError (cb : Callback)
  | TypeError.

Inductive Result (A : Type) :=
  | Ok (a : A)
  | Raise (e : Exn).
Arguments Ok {A} a.
Arguments Raise {A} e.

Definition M (A : Type) : Type := World -> Result A * World.

Definition ret {A} (a : A) : M A := fun w => (Ok a, w).

Definition bind {A B} (m : M A) (k : A -> M B) : M B :=
  fun w =>
    match m w with
    | (Ok a, w') => k a w'
    | (Raise e, w') => (Raise e, w')
    end.

Notation "'let*' x ':=' m 'in' k" := (bind m (fun x => k))
  (at level 10, x name, m at level 100, k at level 200).

Fixpoint map_each {A B} (f : A -> M B) (l : list A) : M (list B) :=
  match l with
  | [] => ret []
  | a :: l' =>
      let* b := f a in
      let* bs := map_each f l' in
      ret (b :: bs)
  end.

(** ** The store, the clock and the timers of the host *)

(** A new object. *)
Definition alloc (o : JsObj) : M loc :=
  fun w => (Ok (length (heap w)), set_heap (heap w ++ [o]) w).

(** Reading the fields of a task object; a reference that is not a task
    object cannot come out of [this.tasks] and raises. *)
Definition load_task (l : loc) : M Task :=
  fun w =>
    match heap w !! l with
    | Some (TaskObj t) => (Ok t, w)
    | _ => (Raise TypeError, w)
    end.

Definition with_targetTime (d : Date) (o : JsObj) : JsObj :=
  match o with
  | TaskObj t => TaskObj (mkTask (id t) d (callback t) (timeoutId t))
  | _ => o
  end.

Definition with_timeoutId (h : option handle) (o : JsObj) : JsObj :=
  match o with
  | TaskObj t => TaskObj (mkTask (id t) (targetTime t) (callback t) h)
  | _ => o
  end.

(** [task.targetTime = d] *)
Definition assign_targetTime (l : loc) (d : Date) : M unit :=
  fun w => (Ok tt, set_heap (alter (with_targetTime d) l (heap w)) w).

(** [task.timeoutId = h] *)
Definition assign_timeoutId (l : loc) (h : handle) : M unit :=
  fun w => (Ok tt, set_heap (alter (with_timeoutId (Some h)) l (heap w)) w).

(** [Date.now()] *)
Definition Date_now : M JsNumber := fun w => (Ok (Num (now w)), w).

(** [setTimeout(() => this._executeTask(task.id), delay)] with [task] the
    object at [l]: the host takes a new timer and returns its handle. *)
Definition setTimeout (l : loc) (delay : JsNumber) : M handle :=
  fun w =>
    let h := nextHandle w in
    (Ok h, set_nextHandle (S h) (set_timers (timers w ++ [mkTimer h l delay]) w)).

(** The timer with handle [h] among the timers held. *)
Fixpoint held (h : handle) (ts : list Timer) : option Timer :=
  match ts with
  | [] => None
  | t :: ts' => if Nat.eqb (t_handle t) h then Some t else held h ts'
  end.

(** [clearTimeout(h)]: the timer is no longer held; nothing happens for
    [null], [undefined] and a handle that is not held. *)
Definition clearTimeout (h : option handle) : M unit :=
  fun w =>
    match h with
    | Some h => (Ok tt, set_timers (filter (fun t => t_handle t <> h) (timers w)) w)
    | None => (Ok tt, w)
    end.

(** [task.callback()] on behalf of [taskId]. *)
Definition call (taskId : Z) (cb : Callback) : M unit :=
  fun w =>
    let w' := set_log (log w ++ [mkEvent taskId cb (JsMap.keys (tasks (this w)))]) w in
    if cb_throws cb then (Raise (CallbackError cb), w') else (Ok tt, w').

(** ** The class *)

Inductive Build :=
  | Esm
  | Src.

(** [new TaskManager()] *)
Definition new_TaskManager : TaskManager := mkTaskManager [] 1.

(** [this.tasks.get(k)], [this.tasks.set(k, v)], [this.tasks.delete(k)],
    [this.tasks.values()] and [this.nextTaskId++]. *)
Definition tasks_get (k : Z) : M (option loc) :=
  fun w => (Ok (JsMap.get k (tasks (this w))), w).

Definition tasks_set (k : Z) (v : loc) : M unit :=
  fun w =>
    (Ok tt, set_this (mkTaskManager (JsMap.set k v (tasks (this w))) (nextTaskId (this w))) w).

Definition tasks_delete (k : Z) : M unit :=
  fun w =>
    (Ok tt, set_this (mkTaskManager (JsMap.delete k (tasks (this w))) (nextTaskId (this w))) w).

Definition tasks_values : M (list loc) :=
  fun w => (Ok (JsMap.values (tasks (this w))), w).

Definition nextTaskId_postincr : M Z :=
  fun w =>
    (Ok (nextTaskId (this w)),
     set_this (mkTaskManager (tasks (this w)) (nextTaskId (this w) + 1)) w).

(** [_executeTask(taskId)], the same in both versions: the callback of the
    task is called and then the entry is deleted, with nothing to catch an
    exception in between. *)
Definition _executeTask (taskId : Z) : M unit :=
  let* task := tasks_get taskId in
  match task with
  | Some l =>
      let* t := load_task l in
      let* _ := call taskId (callback t) in
      tasks_delete taskId
  | None => ret tt
  end.

(** [_scheduleTask(task)].  [Esm] always takes a timer, with delay 0 for a
    task that is due ([timeUntilTarget > 0] is false); [Src] runs a task that
    is due at once, with [this._executeTask(task.id)]. *)
Definition _scheduleTask (b : Build) (task : loc) : M unit :=
  match b with
  | Esm =>
      let* t := load_task task in
      let* n := Date_now in
      let timeUntilTarget := js_sub (getTime (targetTime t)) n in
      let* h :=
        (if js_gt0 timeUntilTarget
         then setTimeout task timeUntilTarget
         else setTimeout task (Num 0)) in
      assign_timeoutId task h
  | Src =>
      let* n := Date_now in
      let* t := load_task task in
      let timeUntilTarget := js_sub (getTime (targetTime t)) n in
      if js_gt0 timeUntilTarget
      then
        let* h := setTimeout task timeUntilTarget in
        assign_timeoutId task h
      else
        let* t' := load_task task in
        _executeTask (id t')
  end.

(** [createTask(targetTime, callback)]: the task object is
    [{ id: taskId, targetTime, callback }] in [Esm] and
    [new Task(taskId, targetTime, callback)] in [Src]. *)
Definition createTask (b : Build) (targetTime : Date) (callback : Callback) : M Z :=
  let* taskId := nextTaskId_postincr in
  let* task := alloc (TaskObj (mkTask taskId targetTime callback None)) in
  let* _ := tasks_set taskId task in
  let* _ := _scheduleTask b task in
  ret taskId.

(** [cancelTask(taskId)] *)
Definition cancelTask (taskId : Z) : M bool :=
  let* task := tasks_get taskId in
  match task with
  | Some l =>
      let* t := load_task l in
      let* _ := clearTimeout (timeoutId t) in
      let* _ := tasks_delete taskId in
      ret true
  | None => ret false
  end.

(** [rescheduleTask(taskId, newTargetTime)] *)
Definition rescheduleTask (b : Build) (taskId : Z) (newTargetTime : Date) : M bool :=
  let* task := tasks_get taskId in
  match task with
  | Some l =>
      let* t := load_task l in
      let* _ := clearTimeout (timeoutId t) in
      let* _ := assign_targetTime l newTargetTime in
      let* _ := _scheduleTask b l in
      ret true
  | None => ret false
  end.

(** The function [({ id, targetTime }) => ({ id, targetTime })] of
    [getTasks]: a new object with the two fields. *)
Definition entry_of (l : loc) : M loc :=
  let* t := load_task l in
  alloc (EntryObj (id t) (targetTime t)).

(** [getTasks()].  [Esm] is [Array.from(this.tasks.values(), f)]; [Src] is
    [Array.from(this.tasks.values()).map(f)], with an array of the task
    objects in between. *)
Definition getTasks (b : Build) : M loc :=
  let* vs := tasks_values in
  match b with
  | Esm =>
      let* es := map_each entry_of vs in
      alloc (ArrayObj es)
  | Src =>
      let* _ := alloc (ArrayObj vs) in
      let* es := map_each entry_of vs in
      alloc (ArrayObj es)
  end.

(** ** The host *)

(** The host runs the closure of the timer [h] when it holds it, and the
    timer is no longer held then. *)
Definition fire (h : handle) : M unit :=
  fun w =>
    match held h (timers w) with
    | Some t =>
        (let* _ := clearTimeout (Some h) in
         let* t' := load_task (t_task t) in
         _executeTask (id t')) w
    | None => (Ok tt, w)
    end.

(** What a program and the host do with one manager.  [ExecuteTask] is
    [_executeTask] run with no timer held for it: a closure whose handle was
    cleared, or a call from outside. *)
Inductive Op :=
  | CreateTask (targetTime : Date) (callback : Callback)
  | CancelTask (taskId : Z)
  | RescheduleTask (taskId : Z) (newTargetTime : Date)
  | GetTasks
  | Advance (ms : Z)
  | Fire (h : handle)
  | ExecuteTask (taskId : Z).

Inductive Value :=
  | VUndefined
  | VNumber (z : Z)
  | VBool (b : bool)
  | VRef (l : loc).

Definition fmapM {A B} (f : A -> B) (m : M A) : M B :=
  let* a := m in ret (f a).

Definition step (b : Build) (op : Op) : M Value :=
  match op with
  | CreateTask d cb => fmapM VNumber (createTask b d cb)
  | CancelTask i => fmapM VBool (cancelTask i)
  | RescheduleTask i d => fmapM VBool (rescheduleTask b i d)
  | GetTasks => fmapM VRef (getTasks b)
  | Advance ms => fun w => (Ok VUndefined, set_now (now w + ms) w)
  | Fire h => fmapM (fun _ => VUndefined) (fire h)
  | ExecuteTask i => fmapM (fun _ => VUndefined) (_executeTask i)
  end.

(** A run: the result of each operation, and the world at the end.  An
    exception ends the operation that raised it, not the run. *)
Fixpoint run (b : Build) (ops : list Op) (w : World) : list (Result Value) * World :=
  match ops with
  | [] => ([], w)
  | op :: ops' =>
      let (r, w') := step b op w in
      let (rs, w'') := run b ops' w' in
      (r :: rs, w'')
  end.

(** The world before anything has happened, at clock [t0]. *)
Definition initial (t0 : Z) : World := mkWorld [] new_TaskManager t0 [] 1%nat [].

(** Reading an array of [{ id, targetTime }] objects. *)
Definition read_entry (h : list JsObj) (l : loc) : option (Z * Date) :=
  match h !! l with
  | Some (EntryObj i d) => Some (i, d)
  | _ => None
  end.

Fixpoint read_all (h : list JsObj) (es : list loc) : option (list (Z * Date)) :=
  match es with
  | [] => Some []
  | e :: es' =>
      match read_entry h e, read_all h es' with
      | Some x, Some xs => Some (x :: xs)
      | _, _ => None
      end
  end.

Definition read_entries (h : list JsObj) (a : loc) : option (list (Z * Date)) :=
  match h !! a with
  | Some (ArrayObj es) => read_all h es
  | _ => None
  end.

(** The worlds a program and the host can bring about. *)
Definition reachable (b : Build) (w : World) : Prop :=
  exists t0 ops, (run b ops (initial t0)).2 = w.

(** * The words of the statements *)

(** ** The world after each statement of a method *)

(** The world after [task.callback()] for [taskId]. *)
Definition called (taskId : Z) (cb : Callback) (w : World) : World :=
  set_log (log w ++ [mkEvent taskId cb (JsMap.keys (tasks (this w)))]) w.

(** The world after [this.tasks.delete(taskId)]. *)
Definition deleted (taskId : Z) (w : World) : World :=
  set_this (mkTaskManager (JsMap.delete taskId (tasks (this w))) (nextTaskId (this w))) w.

(** The world after [task.timeoutId = setTimeout(..., delay)]. *)
Definition armed (task : loc) (delay : JsNumber) (w : World) : World :=
  mkWorld (alter (with_timeoutId (Some (nextHandle w))) task (heap w)) (this w) (now w)
          (timers w ++ [mkTimer (nextHandle w) task delay]) (S (nextHandle w)) (log w).

(** The world after [clearTimeout(h)]. *)
Definition disarmed (h : option handle) (w : World) : World :=
  match h with
  | Some h => set_timers (filter (fun t => t_handle t <> h) (timers w)) w
  | None => w
  end.

(** [targetTime.getTime() - Date.now()] *)
Definition timeUntil (d : Date) (w : World) : JsNumber :=
  js_sub (getTime d) (Num (now w)).

(** The delay of the timer that [_scheduleTask] takes: the time until the
    target when that is positive, and 0 in [Esm] otherwise. *)
Definition delay_for (d : Date) (w : World) : JsNumber :=
  if js_gt0 (timeUntil d w) then timeUntil d w else Num 0.

(** The world after [this.nextTaskId++], the new task object and
    [this.tasks.set]. *)
Definition registered (d : Date) (cb : Callback) (w : World) : World :=
  mkWorld (heap w ++ [TaskObj (mkTask (nextTaskId (this w)) d cb None)])
          (mkTaskManager (JsMap.set (nextTaskId (this w)) (length (heap w)) (tasks (this w)))
                         (nextTaskId (this w) + 1))
          (now w) (timers w) (nextHandle w) (log w).

(** The world after [task.targetTime = d]. *)
Definition retimed (task : loc) (d : Date) (w : World) : World :=
  set_heap (alter (with_targetTime d) task (heap w)) w.

(** ** Well-formed worlds *)

(** The object at [l] is a task object; it is the task object of [k]. *)
Definition is_task (h : list JsObj) (l : loc) : Prop :=
  exists t, h !! l = Some (TaskObj t).

Definition task_at (h : list JsObj) (l : loc) (k : Z) : Prop :=
  exists t, h !! l = Some (TaskObj t) /\ id t = k.

(** No call for a task comes after a call for it that returned. *)
Definition once (lg : list Event) : Prop :=
  forall m n e e', lg !! m = Some e -> lg !! n = Some e' -> (m < n)%nat ->
    cb_throws (ev_callback e) = false -> ev_task e' <> ev_task e.

(** What holds of every world a run can reach: the keys of the map are
    identifiers already given out, each key leads to the task object with
    that identifier, every timer held is for a task object, a call that
    returned has left no entry behind and is the last call for its task. *)
Record wf (w : World) : Prop := mk_wf {
  wf_next : 1 <= nextTaskId (this w);
  wf_keys : forall k, k ∈ JsMap.keys (tasks (this w)) -> 1 <= k < nextTaskId (this w);
  wf_nodup : NoDup (JsMap.keys (tasks (this w)));
  wf_tasks : forall k l, (k, l) ∈ tasks (this w) -> task_at (heap w) l k;
  wf_timers : forall tm, tm ∈ timers w -> is_task (heap w) (t_task tm);
  wf_log : forall e, e ∈ log w ->
    ev_task e < nextTaskId (this w) /\ ev_task e ∈ ev_keys e;
  wf_done : forall e, e ∈ log w -> cb_throws (ev_callback e) = false ->
    ev_task e ∉ JsMap.keys (tasks (this w));
  wf_once : once (log w)
}.

Definition not_task (o : JsObj) : Prop := forall t, o <> TaskObj t.

(** ** The operations as transitions *)

Definition map_result {A B} (f : A -> B) (r : Result A) : Result B :=
  match r with
  | Ok a => Ok (f a)
  | Raise e => Raise e
  end.

(** What [_executeTask(i)] does in a well-formed world: nothing for an
    identifier that is not in the map; otherwise the callback is called, and
    the entry is deleted when the callback returned. *)
Inductive executes : Z -> World -> Result unit -> World -> Prop :=
  | executes_absent i w :
      JsMap.get i (tasks (this w)) = None ->
      executes i w (Ok tt) w
  | executes_returned i w l t :
      JsMap.get i (tasks (this w)) = Some l ->
      heap w !! l = Some (TaskObj t) ->
      cb_throws (callback t) = false ->
      executes i w (Ok tt) (deleted i (called i (callback t) w))
  | executes_raised i w l t :
      JsMap.get i (tasks (this w)) = Some l ->
      heap w !! l = Some (TaskObj t) ->
      cb_throws (callback t) = true ->
      executes i w (Raise (CallbackError (callback t))) (called i (callback t) w).

(** [_scheduleTask] takes a timer for a task with target [d]: always in
    [Esm], and in [Src] when [d] is ahead. *)
Definition arms (b : Build) (d : Date) (w : World) : Prop :=
  b = Esm \/ js_gt0 (timeUntil d w) = true.

(** [_scheduleTask] runs the task at once: in [Src], when [d] is not ahead. *)
Definition runs_now (b : Build) (d : Date) (w : World) : Prop :=
  b = Src /\ js_gt0 (timeUntil d w) = false.

(** What each operation does in a well-formed world, and what it returns. *)
Inductive does (b : Build) : Op -> World -> Result Value -> World -> Prop :=
  | does_create_arm d cb w :
      arms b d w ->
      does b (CreateTask d cb) w (Ok (VNumber (nextTaskId (this w))))
           (armed (length (heap w)) (delay_for d w) (registered d cb w))
  | does_create_run d cb w r w' :
      runs_now b d w ->
      executes (nextTaskId (this w)) (registered d cb w) r w' ->
      does b (CreateTask d cb) w
           (map_result (fun _ => VNumber (nextTaskId (this w))) r) w'
  | does_cancel i w l t :
      JsMap.get i (tasks (this w)) = Some l ->
      heap w !! l = Some (TaskObj t) ->
      does b (CancelTask i) w (Ok (VBool true)) (deleted i (disarmed (timeoutId t) w))
  | does_cancel_absent i w :
      JsMap.get i (tasks (this w)) = None ->
      does b (CancelTask i) w (Ok (VBool false)) w
  | does_reschedule_arm i d w l t :
      JsMap.get i (tasks (this w)) = Some l ->
      heap w !! l = Some (TaskObj t) ->
      arms b d w ->
      does b (RescheduleTask i d) w (Ok (VBool true))
           (armed l (delay_for d w) (retimed l d (disarmed (timeoutId t) w)))
  | does_reschedule_run i d w l t r w' :
      JsMap.get i (tasks (this w)) = Some l ->
      heap w !! l = Some (TaskObj t) ->
      runs_now b d w ->
      executes i (retimed l d (disarmed (timeoutId t) w)) r w' ->
      does b (RescheduleTask i d) w (map_result (fun _ => VBool true) r) w'
  | does_reschedule_absent i d w :
      JsMap.get i (tasks (this w)) = None ->
      does b (RescheduleTask i d) w (Ok (VBool false)) w
  | does_getTasks w r ext :
      Forall not_task ext ->
      does b GetTasks w r (set_heap (heap w ++ ext) w)
  | does_advance ms w :
      does b (Advance ms) w (Ok VUndefined) (set_now (now w + ms) w)
  | does_fire h w tm t r w' :
      held h (timers w) = Some tm ->
      heap w !! t_task tm = Some (TaskObj t) ->
      executes (id t) (disarmed (Some h) w) r w' ->
      does b (Fire h) w (map_result (fun _ => VUndefined) r) w'
  | does_fire_not_held h w :
      held h (timers w) = None ->
      does b (Fire h) w (Ok VUndefined) w
  | does_execute i w r w' :
      executes i w r w' ->
      does b (ExecuteTask i) w (map_result (fun _ => VUndefined) r) w'.

(** ** Runs *)

Definition is_create (op : Op) : bool :=
  match op with
  | CreateTask _ _ => true
  | _ => false
  end.

(** How many [createTask] calls a run has. *)
Fixpoint count_creates (ops : list Op) : Z :=
  match ops with
  | [] => 0
  | op :: ops' => (if is_create op then 1 else 0) + count_creates ops'
  end.

(** The identifiers the [createTask] calls of a run returned, in order. *)
Fixpoint created_ids (ops : list Op) (rs : list (Result Value)) : list Z :=
  match ops, rs with
  | CreateTask _ _ :: ops', Ok (VNumber i) :: rs' => i :: created_ids ops' rs'
  | _ :: ops', _ :: rs' => created_ids ops' rs'
  | _, _ => []
  end.

(** Strictly increasing: a later element is greater. *)
Definition increasing (l : list Z) : Prop :=
  forall m n i j, l !! m = Some i -> l !! n = Some j -> (m < n)%nat -> i < j.

(** A callback that returns and a callback that raises. *)
Definition cb_ok : Callback := mkCallback 1 false.
Definition cb_bad : Callback := mkCallback 2 true.

(** The calls made for the task [i]. *)
Definition calls_of (i : Z) (lg : list Event) : list Event :=
  filter (fun e => ev_task e = i) lg.

(** The identifier [i] was given out and is not in the map. *)
Definition gone (i : Z) (w : World) : Prop :=
  JsMap.get i (tasks (this w)) = None /\ i < nextTaskId (this w).

(** ** The array of [getTasks] *)

(** The [{ id, targetTime }] object for a task. *)
Definition entry_obj (t : Task) : JsObj := EntryObj (id t) (targetTime t).

(** What the manager holds: its map with the task objects the values refer
    to, its counter, and the timers taken for it. *)
Definition registry (w : World) : list (Z * option JsObj) * Z * list Timer :=
  (map (fun kl => (kl.1, heap w !! kl.2)) (tasks (this w)),
   nextTaskId (this w), timers w).

(** The task objects of the map, in the order of the map. *)
Definition task_objects (w : World) (ts : list Task) : Prop :=
  Forall2 (fun kl t => heap w !! kl.2 = Some (TaskObj t) /\ id t = kl.1)
          (tasks (this w)) ts.

(** The store after [getTasks]: the new objects come after the old ones. *)
Definition getTasks_objects (b : Build) (w : World) (ts : list Task) : list JsObj :=
  match b with
  | Esm =>
      map entry_obj ts
      ++ [ArrayObj (seq (length (heap w)) (length ts))]
  | Src =>
      [ArrayObj (JsMap.values (tasks (this w)))]
      ++ map entry_obj ts
      ++ [ArrayObj (seq (S (length (heap w))) (length ts))]
  end.

(** Where the array that [getTasks] returns is. *)
Definition getTasks_array (b : Build) (w : World) (ts : list Task) : loc :=
  match b with
  | Esm => (length (heap w) + length ts)%nat
  | Src => (S (length (heap w)) + length ts)%nat
  end.

(** ** Timers and their tasks *)

(** Handles are given out once: the handles held and the handles stored in
    task objects are below [nextHandle], and a timer held under the handle
    that a task object stores is the timer of that task. *)
Record timers_wf (w : World) : Prop := mk_timers_wf {
  twf_handles : forall tm, tm ∈ timers w -> (t_handle tm < nextHandle w)%nat;
  twf_timeoutIds : forall l t h,
    heap w !! l = Some (TaskObj t) -> timeoutId t = Some h -> (h < nextHandle w)%nat;
  twf_owner : forall tm l t,
    tm ∈ timers w -> heap w !! l = Some (TaskObj t) ->
    timeoutId t = Some (t_handle tm) -> t_task tm = l
}.

(** A timer held is the timer of a task of the map, and a task of the map
    has its timer held unless a call of its callback raised. *)
Record owned (w : World) : Prop := mk_owned {
  own_timer : forall tm, tm ∈ timers w ->
    exists t, heap w !! t_task tm = Some (TaskObj t) /\
              timeoutId t = Some (t_handle tm) /\
              JsMap.get (id t) (tasks (this w)) = Some (t_task tm);
  own_task : forall k l, JsMap.get k (tasks (this w)) = Some l ->
    (exists tm, tm ∈ timers w /\ t_task tm = l) \/
    (exists e, e ∈ log w /\ ev_task e = k /\ cb_throws (ev_callback e) = true)
}.

(** The same while the task [i] is between its timer and what comes next
    (a new timer, the call of its callback, or its deletion): no timer is
    held for it. *)
Record owned_but (i : Z) (w : World) : Prop := mk_owned_but {
  ob_timer : forall tm, tm ∈ timers w ->
    exists t, heap w !! t_task tm = Some (TaskObj t) /\
              timeoutId t = Some (t_handle tm) /\
              JsMap.get (id t) (tasks (this w)) = Some (t_task tm);
  ob_task : forall k l, k <> i -> JsMap.get k (tasks (this w)) = Some l ->
    (exists tm, tm ∈ timers w /\ t_task tm = l) \/
    (exists e, e ∈ log w /\ ev_task e = k /\ cb_throws (ev_callback e) = true);
  ob_none : forall l tm, JsMap.get i (tasks (this w)) = Some l ->
    tm ∈ timers w -> t_task tm <> l
}.

Definition is_execute (op : Op) : bool :=
  match op with
  | ExecuteTask _ => true
  | _ => false
  end.

(** A run in which [_executeTask] is run by timers only. *)
Definition by_timers (ops : list Op) : Prop :=
  Forall (fun op => is_execute op = false) ops.

(** The world after [_executeTask] has called the callback of a task that is
    in the map. *)
Definition ran (i : Z) (cb : Callback) (w : World) : World :=
  if cb_throws cb then called i cb w else deleted i (called i cb w).

(** ** Exceptions and firings *)

(** The operations that run [_executeTask] first of all: a timer that fires,
    and [_executeTask] itself. *)
Definition is_firing (op : Op) : bool :=
  match op with
  | Fire _ | ExecuteTask _ => true
  | _ => false
  end.

(** ** The world after [createTask] *)

(** The world after a [createTask(d, cb)] that takes a timer: one object
    more in the store, one entry more at the end of the map, one timer more. *)
Definition created (d : Date) (cb : Callback) (w : World) : World :=
  mkWorld (heap w ++ [TaskObj (mkTask (nextTaskId (this w)) d cb (Some (nextHandle w)))])
          (mkTaskManager (tasks (this w) ++ [(nextTaskId (this w), length (heap w))])
                         (nextTaskId (this w) + 1))
          (now w)
          (timers w ++ [mkTimer (nextHandle w) (length (heap w)) (delay_for d w)])
          (S (nextHandle w)) (log w).

(** ** The timers held *)

(** The delays that [_scheduleTask] gives to [setTimeout]: a number that is
    not negative, and positive in [Src]. *)
Definition good_delay (b : Build) (dl : JsNumber) : Prop :=
  match dl with
  | Num z => 0 <= z /\ (b = Src -> 0 < z)
  | NaN => False
  end.

(** ** The callbacks given to [createTask] *)

(** The identifiers and callbacks of the [createTask] calls of a run that
    starts with [nextTaskId = n]. *)
Fixpoint given (n : Z) (ops : list Op) : list (Z * Callback) :=
  match ops with
  | [] => []
  | CreateTask _ cb :: ops' => (n, cb) :: given (n + 1) ops'
  | _ :: ops' => given n ops'
  end.

(** Every task object, and every call made, has an identifier and a callback
    that are in [R]. *)
Definition known (R : list (Z * Callback)) (w : World) : Prop :=
  (forall l t, heap w !! l = Some (TaskObj t) -> (id t, callback t) ∈ R) /\
  (forall e, e ∈ log w -> (ev_task e, ev_callback e) ∈ R).

(** ** Counting tasks *)

(** How many [cancelTask] calls of a run returned [true]. *)
Fixpoint count_cancelled (ops : list Op) (rs : list (Result Value)) : Z :=
  match ops, rs with
  | CancelTask _ :: ops', Ok (VBool true) :: rs' => 1 + count_cancelled ops' rs'
  | _ :: ops', _ :: rs' => count_cancelled ops' rs'
  | _, _ => 0
  end.

(** How many calls of the log returned. *)
Definition count_returned (lg : list Event) : Z :=
  Z.of_nat (length (filter (fun e => cb_throws (ev_callback e) = false) lg)).

(** The tasks in the map and the tasks that have run. *)
Definition settled (w : World) : Z :=
  Z.of_nat (length (tasks (this w))) + count_returned (log w).

(** * The class among the values of a program

    In the first model [targetTime] is a [Date] that nobody changes and
    [callback] is a function that leaves the manager alone.  JavaScript lets
    a program do more, and the class checks nothing:
    - [targetTime] and [callback] may be any value: [task.targetTime.getTime()]
      raises a [TypeError] for a value that has no [getTime], and
      [task.callback()] raises one for a value that cannot be called;
    - a [Date] is an object: the task object, the [{ id, targetTime }]
      objects of [getTasks] and the program hold the same [Date], and
      [setTime] changes it in place;
    - a callback may call the methods of the manager, also for its own task,
      which is still in the map while the callback runs; in [Src] such a
      call may run the callback of a task that is due, and so on, for as long
      as the stack lasts.

    [Full] is the class again, statement by statement, for such programs.
    [Date] objects have a store of their own.  A function is known by what
    it does to the manager and to the [Date]s: the calls it makes, in order,
    followed by a return or a throw.  It does not look at what the calls
    return and catches nothing. *)

Module Full.

(** ** Values *)

(** The values given to the manager.  [Undefined] stands for [undefined] and
    [null]; [Number] for the values that have properties but no [getTime]
    and cannot be called (a number, a string, a plain object); [DateRef] is
    a reference to a [Date] object; a function is its [Callback] (its name,
    and whether it ends with a throw) and the calls it makes before. *)
Inductive JsValue :=
  | Undefined
  | Number (n : JsNumber)
  | DateRef (d : loc)
  | Function (cb : Callback) (body : list Cmd)
with Cmd :=
  | DoCreateTask (targetTime callback : JsValue)
  | DoCancelTask (taskId : Z)
  | DoRescheduleTask (taskId : Z) (newTargetTime : JsValue)
  | DoGetTasks
  | DoSetTime (d : loc) (t : JsNumber).

(** [class Task] *)
Record Task := mkTask {
  id : Z;
  targetTime : JsValue;
  callback : JsValue;
  timeoutId : option handle
}.

Inductive JsObj :=
  | TaskObj (t : Task)
  | EntryObj (e_id : Z) (e_targetTime : JsValue)
  | ArrayObj (elems : list loc).

(** The world has one more part: the time values of the [Date] objects. *)
Record World := mkWorld {
  heap : list JsObj;
  dates : list JsNumber;
  this : TaskManager;
  now : Z;
  timers : list Timer;
  nextHandle : handle;
  log : list Event
}.

Definition set_heap (h : list JsObj) (w : World) : World :=
  mkWorld h (dates w) (this w) (now w) (timers w) (nextHandle w) (log w).
Definition set_dates (ds : list JsNumber) (w : World) : World :=
  mkWorld (heap w) ds (this w) (now w) (timers w) (nextHandle w) (log w).
Definition set_this (m : TaskManager) (w : World) : World :=
  mkWorld (heap w) (dates w) m (now w) (timers w) (nextHandle w) (log w).
Definition set_now (n : Z) (w : World) : World :=
  mkWorld (heap w) (dates w) (this w) n (timers w) (nextHandle w) (log w).
Definition set_timers (ts : list Timer) (w : World) : World :=
  mkWorld (heap w) (dates w) (this w) (now w) ts (nextHandle w) (log w).
Definition set_nextHandle (h : handle) (w : World) : World :=
  mkWorld (heap w) (dates w) (this w) (now w) (timers w) h (log w).
Definition set_log (l : list Event) (w : World) : World :=
  mkWorld (heap w) (dates w) (this w) (now w) (timers w) (nextHandle w) l.

(** ** Computations *)

(** What is thrown: the error of a function that ends with a throw, a
    [TypeError], and the [RangeError] of a stack that is used up. *)
Inductive Exn :=
  | Thrown (cb : Callback)
  | TypeError
  | RangeError.

Inductive Result (A : Type) :=
  | Returns (a : A)
  | Throws (e : Exn).
Arguments Returns {A} a.
Arguments Throws {A} e.

Definition M (A : Type) : Type := World -> Result A * World.

Definition ret {A} (a : A) : M A := fun w => (Returns a, w).

Definition throw {A} (e : Exn) : M A := fun w => (Throws e, w).

Definition bind {A B} (m : M A) (k : A -> M B) : M B :=
  fun w =>
    match m w with
    | (Returns a, w') => k a w'
    | (Throws e, w') => (Throws e, w')
    end.

#[warnings="-notation-overridden"]
Notation "'let*' x ':=' m 'in' k" := (bind m (fun x => k))
  (at level 10, x name, m at level 100, k at level 200).

Fixpoint map_each {A B} (f : A -> M B) (l : list A) : M (list B) :=
  match l with
  | [] => ret []
  | a :: l' =>
      let* b := f a in
      let* bs := map_each f l' in
      ret (b :: bs)
  end.

(** ** The store, the dates, the clock and the timers *)

Definition alloc (o : JsObj) : M loc :=
  fun w => (Returns (length (heap w)), set_heap (heap w ++ [o]) w).

Definition load_task (l : loc) : M Task :=
  fun w =>
    match heap w !! l with
    | Some (TaskObj t) => (Returns t, w)
    | _ => (Throws TypeError, w)
    end.

Definition with_targetTime (v : JsValue) (o : JsObj) : JsObj :=
  match o with
  | TaskObj t => TaskObj (mkTask (id t) v (callback t) (timeoutId t))
  | _ => o
  end.

Definition with_timeoutId (h : option handle) (o : JsObj) : JsObj :=
  match o with
  | TaskObj t => TaskObj (mkTask (id t) (targetTime t) (callback t) h)
  | _ => o
  end.

(** [task.targetTime = v] *)
Definition assign_targetTime (l : loc) (v : JsValue) : M unit :=
  fun w => (Returns tt, set_heap (alter (with_targetTime v) l (heap w)) w).

(** [task.timeoutId = h] *)
Definition assign_timeoutId (l : loc) (h : handle) : M unit :=
  fun w => (Returns tt, set_heap (alter (with_timeoutId (Some h)) l (heap w)) w).

(** The time value of [v] when [v] is a [Date]. *)
Definition time_of (w : World) (v : JsValue) : option JsNumber :=
  match v with
  | DateRef d => dates w !! d
  | _ => None
  end.

(** [v.getTime()]: a [TypeError] when [v] is not a [Date]. *)
Definition getTime (v : JsValue) : M JsNumber :=
  fun w =>
    match time_of w v with
    | Some t => (Returns t, w)
    | None => (Throws TypeError, w)
    end.

(** [d.setTime(t)] *)
Definition setTime (d : loc) (t : JsNumber) : M unit :=
  fun w => (Returns tt, set_dates (<[d := t]> (dates w)) w).

(** [Date.now()] *)
Definition Date_now : M JsNumber := fun w => (Returns (Num (now w)), w).

(** [setTimeout(() => this._executeTask(task.id), delay)] *)
Definition setTimeout (l : loc) (delay : JsNumber) : M handle :=
  fun w =>
    let h := nextHandle w in
    (Returns h, set_nextHandle (S h) (set_timers (timers w ++ [mkTimer h l delay]) w)).

(** [clearTimeout(h)] *)
Definition clearTimeout (h : option handle) : M unit :=
  fun w =>
    match h with
    | Some h => (Returns tt, set_timers (filter (fun t => t_handle t <> h) (timers w)) w)
    | None => (Returns tt, w)
    end.

(** The call of [cb] for [taskId] is written down when it starts. *)
Definition calling (taskId : Z) (cb : Callback) : M unit :=
  fun w =>
    (Returns tt,
     set_log (log w ++ [mkEvent taskId cb (JsMap.keys (tasks (this w)))]) w).

(** ** The class *)

Definition tasks_get (k : Z) : M (option loc) :=
  fun w => (Returns (JsMap.get k (tasks (this w))), w).

Definition tasks_set (k : Z) (v : loc) : M unit :=
  fun w =>
    (Returns tt,
     set_this (mkTaskManager (JsMap.set k v (tasks (this w))) (nextTaskId (this w))) w).

Definition tasks_delete (k : Z) : M unit :=
  fun w =>
    (Returns tt,
     set_this (mkTaskManager (JsMap.delete k (tasks (this w))) (nextTaskId (this w))) w).

Definition tasks_values : M (list loc) :=
  fun w => (Returns (JsMap.values (tasks (this w))), w).

Definition nextTaskId_postincr : M Z :=
  fun w =>
    (Returns (nextTaskId (this w)),
     set_this (mkTaskManager (tasks (this w)) (nextTaskId (this w) + 1)) w).

Section Methods.

(** The version of the class, and [this._executeTask] as a method finds it
    when it calls it: with one frame of the stack less. *)
Variable b : Build.
Variable this_executeTask : Z -> M unit.

(** [_scheduleTask(task)].  [Esm] evaluates
    [task.targetTime.getTime() - Date.now()]; [Src] calls [Date.now()]
    first. *)
Definition _scheduleTask (task : loc) : M unit :=
  match b with
  | Esm =>
      let* t := load_task task in
      let* g := getTime (targetTime t) in
      let* n := Date_now in
      let timeUntilTarget := js_sub g n in
      let* h :=
        (if js_gt0 timeUntilTarget
         then setTimeout task timeUntilTarget
         else setTimeout task (Num 0)) in
      assign_timeoutId task h
  | Src =>
      let* n := Date_now in
      let* t := load_task task in
      let* g := getTime (targetTime t) in
      let timeUntilTarget := js_sub g n in
      if js_gt0 timeUntilTarget
      then
        let* h := setTimeout task timeUntilTarget in
        assign_timeoutId task h
      else
        let* t' := load_task task in
        this_executeTask (id t')
  end.

(** [createTask(targetTime, callback)] *)
Definition createTask (targetTime callback : JsValue) : M Z :=
  let* taskId := nextTaskId_postincr in
  let* task := alloc (TaskObj (mkTask taskId targetTime callback None)) in
  let* _ := tasks_set taskId task in
  let* _ := _scheduleTask task in
  ret taskId.

(** [cancelTask(taskId)] *)
Definition cancelTask (taskId : Z) : M bool :=
  let* task := tasks_get taskId in
  match task with
  | Some l =>
      let* t := load_task l in
      let* _ := clearTimeout (timeoutId t) in
      let* _ := tasks_delete taskId in
      ret true
  | None => ret false
  end.

(** [rescheduleTask(taskId, newTargetTime)] *)
Definition rescheduleTask (taskId : Z) (newTargetTime : JsValue) : M bool :=
  let* task := tasks_get taskId in
  match task with
  | Some l =>
      let* t := load_task l in
      let* _ := clearTimeout (timeoutId t) in
      let* _ := assign_targetTime l newTargetTime in
      let* _ := _scheduleTask l in
      ret true
  | None => ret false
  end.

(** [({ id, targetTime }) => ({ id, targetTime })]: the new object gets the
    value of [task.targetTime], which for a [Date] is the reference. *)
Definition entry_of (l : loc) : M loc :=
  let* t := load_task l in
  alloc (EntryObj (id t) (targetTime t)).

(** [getTasks()] *)
Definition getTasks : M loc :=
  let* vs := tasks_values in
  match b with
  | Esm =>
      let* es := map_each entry_of vs in
      alloc (ArrayObj es)
  | Src =>
      let* _ := alloc (ArrayObj vs) in
      let* es := map_each entry_of vs in
      alloc (ArrayObj es)
  end.

(** One call made by a function, with its result dropped. *)
Definition cmd (c : Cmd) : M unit :=
  match c with
  | DoCreateTask v f => let* _ := createTask v f in ret tt
  | DoCancelTask i => let* _ := cancelTask i in ret tt
  | DoRescheduleTask i v => let* _ := rescheduleTask i v in ret tt
  | DoGetTasks => let* _ := getTasks in ret tt
  | DoSetTime d t => setTime d t
  end.

(** The calls of a function, in order; an exception ends them. *)
Fixpoint script (cs : list Cmd) : M unit :=
  match cs with
  | [] => ret tt
  | c :: cs' => let* _ := cmd c in script cs'
  end.

(** [task.callback()] on behalf of [taskId]: a [TypeError] for a value that
    is not a function. *)
Definition call (taskId : Z) (f : JsValue) : M unit :=
  match f with
  | Function cb body =>
      let* _ := calling taskId cb in
      let* _ := script body in
      if cb_throws cb then throw (Thrown cb) else ret tt
  | _ => throw TypeError
  end.

(** The statements of [_executeTask(taskId)]. *)
Definition _executeTask_body (taskId : Z) : M unit :=
  let* task := tasks_get taskId in
  match task with
  | Some l =>
      let* t := load_task l in
      let* _ := call taskId (callback t) in
      tasks_delete taskId
  | None => ret tt
  end.

End Methods.

(** [_executeTask(taskId)] with [stack] frames left: with none, the call
    raises a [RangeError]. *)
Fixpoint _executeTask (b : Build) (stack : nat) (taskId : Z) : M unit :=
  match stack with
  | O => throw RangeError
  | S stack' => _executeTask_body b (_executeTask b stack') taskId
  end.

(** ** The host and the program *)

(** The host runs the closure of the timer [h] when it holds it. *)
Definition fire (b : Build) (stack : nat) (h : handle) : M unit :=
  fun w =>
    match held h (timers w) with
    | Some t =>
        (let* _ := clearTimeout (Some h) in
         let* t' := load_task (t_task t) in
         _executeTask b stack (id t')) w
    | None => (Returns tt, w)
    end.

Inductive Op :=
  | CreateTask (targetTime callback : JsValue)
  | CancelTask (taskId : Z)
  | RescheduleTask (taskId : Z) (newTargetTime : JsValue)
  | GetTasks
  | SetTime (d : loc) (t : JsNumber)
  | Advance (ms : Z)
  | Fire (h : handle)
  | ExecuteTask (taskId : Z).

Definition fmapM {A B} (f : A -> B) (m : M A) : M B :=
  let* a := m in ret (f a).

(** One operation, on a stack with [stack] frames for [_executeTask]. *)
Definition step (b : Build) (stack : nat) (op : Op) : M Value :=
  match op with
  | CreateTask v f => fmapM VNumber (createTask b (_executeTask b stack) v f)
  | CancelTask i => fmapM VBool (cancelTask i)
  | RescheduleTask i v => fmapM VBool (rescheduleTask b (_executeTask b stack) i v)
  | GetTasks => fmapM VRef (getTasks b)
  | SetTime d t => fmapM (fun _ => VUndefined) (setTime d t)
  | Advance ms => fun w => (Returns VUndefined, set_now (now w + ms) w)
  | Fire h => fmapM (fun _ => VUndefined) (fire b stack h)
  | ExecuteTask i => fmapM (fun _ => VUndefined) (_executeTask b stack i)
  end.

Fixpoint run (b : Build) (stack : nat) (ops : list Op) (w : World)
  : list (Result Value) * World :=
  match ops with
  | [] => ([], w)
  | op :: ops' =>
      let (r, w') := step b stack op w in
      let (rs, w'') := run b stack ops' w' in
      (r :: rs, w'')
  end.

(** The world before anything has happened, at clock [t0], with the [Date]
    objects of the program. *)
Definition initial (t0 : Z) (ds : list JsNumber) : World :=
  mkWorld [] ds new_TaskManager t0 [] 1%nat [].

Definition reachable (b : Build) (w : World) : Prop :=
  exists stack t0 ds ops, (run b stack ops (initial t0 ds)).2 = w.

(** Reading an array of [{ id, targetTime }] objects: the fields as they
    are, and the times that the [Date]s show. *)
Definition read_entry (h : list JsObj) (l : loc) : option (Z * JsValue) :=
  match h !! l with
  | Some (EntryObj i v) => Some (i, v)
  | _ => None
  end.

Fixpoint read_all (h : list JsObj) (es : list loc) : option (list (Z * JsValue)) :=
  match es with
  | [] => Some []
  | e :: es' =>
      match read_entry h e, read_all h es' with
      | Some x, Some xs => Some (x :: xs)
      | _, _ => None
      end
  end.

Definition read_entries (h : list JsObj) (a : loc) : option (list (Z * JsValue)) :=
  match h !! a with
  | Some (ArrayObj es) => read_all h es
  | _ => None
  end.

(** ** The world after each statement of a method *)

(** The world after the call of [cb] for [taskId] has started. *)
Definition called (taskId : Z) (cb : Callback) (w : World) : World :=
  set_log (log w ++ [mkEvent taskId cb (JsMap.keys (tasks (this w)))]) w.

(** The world after [this.tasks.delete(taskId)]. *)
Definition deleted (taskId : Z) (w : World) : World :=
  set_this (mkTaskManager (JsMap.delete taskId (tasks (this w))) (nextTaskId (this w))) w.

(** The world after [task.timeoutId = setTimeout(..., delay)]. *)
Definition armed (task : loc) (delay : JsNumber) (w : World) : World :=
  mkWorld (alter (with_timeoutId (Some (nextHandle w))) task (heap w)) (dates w)
          (this w) (now w)
          (timers w ++ [mkTimer (nextHandle w) task delay]) (S (nextHandle w)) (log w).

(** The world after [clearTimeout(h)]. *)
Definition disarmed (h : option handle) (w : World) : World :=
  match h with
  | Some h => set_timers (filter (fun t => t_handle t <> h) (timers w)) w
  | None => w
  end.

(** [g - Date.now()] for the time value [g], and the delay of the timer that
    [_scheduleTask] takes for it. *)
Definition timeUntil (g : JsNumber) (w : World) : JsNumber :=
  js_sub g (Num (now w)).

Definition delay_for (g : JsNumber) (w : World) : JsNumber :=
  if js_gt0 (timeUntil g w) then timeUntil g w else Num 0.

(** The world after [this.nextTaskId++], the new task object and
    [this.tasks.set]. *)
Definition registered (v f : JsValue) (w : World) : World :=
  mkWorld (heap w ++ [TaskObj (mkTask (nextTaskId (this w)) v f None)]) (dates w)
          (mkTaskManager (JsMap.set (nextTaskId (this w)) (length (heap w)) (tasks (this w)))
                         (nextTaskId (this w) + 1))
          (now w) (timers w) (nextHandle w) (log w).

(** The world after [task.targetTime = v]. *)
Definition retimed (task : loc) (v : JsValue) (w : World) : World :=
  set_heap (alter (with_targetTime v) task (heap w)) w.

(** ** Well-formed worlds *)

Definition is_task (h : list JsObj) (l : loc) : Prop :=
  exists t, h !! l = Some (TaskObj t).

Definition task_at (h : list JsObj) (l : loc) (k : Z) : Prop :=
  exists t, h !! l = Some (TaskObj t) /\ id t = k.

(** What holds of every world a run can reach, whatever the program: the
    keys of the map are identifiers already given out, each key leads to the
    task object with that identifier, and every timer held is for a task
    object. *)
Record wf (w : World) : Prop := mk_wf {
  wf_next : 1 <= nextTaskId (this w);
  wf_keys : forall k, k ∈ JsMap.keys (tasks (this w)) -> 1 <= k < nextTaskId (this w);
  wf_nodup : NoDup (JsMap.keys (tasks (this w)));
  wf_tasks : forall k l, (k, l) ∈ tasks (this w) -> task_at (heap w) l k;
  wf_timers : forall tm, tm ∈ timers w -> is_task (heap w) (t_task tm)
}.

(** ** The array of [getTasks] *)

Definition entry_obj (t : Task) : JsObj := EntryObj (id t) (targetTime t).

(** The task objects of the map, in the order of the map. *)
Definition task_objects (w : World) (ts : list Task) : Prop :=
  Forall2 (fun kl t => heap w !! kl.2 = Some (TaskObj t) /\ id t = kl.1)
          (tasks (this w)) ts.

Definition getTasks_objects (b : Build) (w : World) (ts : list Task) : list JsObj :=
  match b with
  | Esm =>
      map entry_obj ts
      ++ [ArrayObj (seq (length (heap w)) (length ts))]
  | Src =>
      [ArrayObj (JsMap.values (tasks (this w)))]
      ++ map entry_obj ts
      ++ [ArrayObj (seq (S (length (heap w))) (length ts))]
  end.

Definition getTasks_array (b : Build) (w : World) (ts : list Task) : loc :=
  match b with
  | Esm => (length (heap w) + length ts)%nat
  | Src => (S (length (heap w)) + length ts)%nat
  end.

(** What the manager holds: its map with the task objects the values refer
    to and the times that their [targetTime]s show, its counter, and the
    timers taken for it. *)
Definition shown (w : World) (o : JsObj) : JsObj * option JsNumber :=
  match o with
  | TaskObj t => (o, time_of w (targetTime t))
  | _ => (o, None)
  end.

Definition registry (w : World)
  : list (Z * option (JsObj * option JsNumber)) * Z * list Timer :=
  (map (fun kl => (kl.1, shown w <$> heap w !! kl.2)) (tasks (this w)),
   nextTaskId (this w), timers w).

(** ** Programs that keep to dates and to callbacks that leave the manager
    alone *)

(** [v] is one of the [Date] objects [ds]. *)
Definition is_date (ds : list JsNumber) (v : JsValue) : bool :=
  match v with
  | DateRef d => bool_decide (d < length ds)%nat
  | _ => false
  end.

(** [f] is a function that makes no call to the manager; it may change
    [Date]s. *)
Definition is_setTime (c : Cmd) : bool :=
  match c with
  | DoSetTime _ _ => true
  | _ => false
  end.

Definition is_plain (f : JsValue) : bool :=
  match f with
  | Function _ body => forallb is_setTime body
  | _ => false
  end.

(** The operations of such a program. *)
Definition proper (ds : list JsNumber) (op : Op) : bool :=
  match op with
  | CreateTask v f => is_date ds v && is_plain f
  | RescheduleTask _ v => is_date ds v
  | _ => true
  end.

Definition is_execute (op : Op) : bool :=
  match op with
  | ExecuteTask _ => true
  | _ => false
  end.

(** A run in which [_executeTask] is run by timers only. *)
Definition by_timers (ops : list Op) : Prop :=
  Forall (fun op => is_execute op = false) ops.

(** ** Timers and their tasks *)



(** ** Exceptions and firings *)

Definition is_firing (op : Op) : bool :=
  match op with
  | Fire _ | ExecuteTask _ => true
  | _ => false
  end.

(** ** Counting tasks *)

Definition is_create (op : Op) : bool :=
  match op with
  | CreateTask _ _ => true
  | _ => false
  end.

(** How many [createTask] calls a run has, and how many of its [cancelTask]
    calls returned [true]. *)
Fixpoint count_creates (ops : list Op) : Z :=
  match ops with
  | [] => 0
  | op :: ops' => (if is_create op then 1 else 0) + count_creates ops'
  end.

Fixpoint count_cancelled (ops : list Op) (rs : list (Result Value)) : Z :=
  match ops, rs with
  | CancelTask _ :: ops', Returns (VBool true) :: rs' => 1 + count_cancelled ops' rs'
  | _ :: ops', _ :: rs' => count_cancelled ops' rs'
  | _, _ => 0
  end.

End Full.

(** ** The two models side by side *)

(** The [Date] with the time value [g]. *)
Definition date_of (g : JsNumber) : Date :=
  match g with
  | Num z => DateMs z
  | NaN => InvalidDate
  end.

(** A task object of the first model and one of [Full] for the same task:
    the same identifier, callback and [timeoutId], and a callback that makes
    no call to the manager.  Nothing is asked of [targetTime]: no method
    reads the [targetTime] that an earlier call has stored. *)
Definition sim_obj (o : JsObj) (o' : Full.JsObj) : Prop :=
  match o, o' with
  | TaskObj t, Full.TaskObj t' =>
      Full.id t' = id t /\
      (exists body, Full.callback t' = Full.Function (callback t) body /\
                    forallb Full.is_setTime body = true) /\
      Full.timeoutId t' = timeoutId t
  | EntryObj _ _, Full.EntryObj _ _ => True
  | ArrayObj _, Full.ArrayObj _ => True
  | _, _ => False
  end.

Record sim (w : World) (w' : Full.World) : Prop := mk_sim {
  sim_heap : Forall2 sim_obj (heap w) (Full.heap w');
  sim_this : this w = Full.this w';
  sim_now : now w = Full.now w';
  sim_timers : timers w = Full.timers w';
  sim_nextHandle : nextHandle w = Full.nextHandle w';
  sim_log : log w = Full.log w'
}.

(** The operation of the first model that an operation of [Full] is, for
    the times that the [Date]s show in [w]; [setTime] is none. *)
Definition lower (w : Full.World) (op : Full.Op) : list Op :=
  match op with
  | Full.CreateTask (Full.DateRef d) (Full.Function cb _) =>
      match Full.dates w !! d with
      | Some g => [CreateTask (date_of g) cb]
      | None => []
      end
  | Full.RescheduleTask i (Full.DateRef d) =>
      match Full.dates w !! d with
      | Some g => [RescheduleTask i (date_of g)]
      | None => []
      end
  | Full.CancelTask i => [CancelTask i]
  | Full.GetTasks => [GetTasks]
  | Full.Advance ms => [Advance ms]
  | Full.Fire h => [Fire h]
  | Full.ExecuteTask i => [ExecuteTask i]
  | _ => []
  end.

(** The same result. *)
Definition same_result {A} (r : Result A) (r' : Full.Result A) : Prop :=
  match r, r' with
  | Ok a, Full.Returns a' => a = a'
  | Raise (CallbackError cb), Full.Throws (Full.Thrown cb') => cb = cb'
  | _, _ => False
  end.

(** A computation keeps [P], whether it returns or raises. *)
Definition preserves {A} (P : Full.World -> Prop) (m : Full.M A) : Prop :=
  forall w, P w -> P (m w).2.

(** The operations of the first model that a run of [Full] is. *)
Fixpoint lower_run (b : Build) (stack : nat) (ops : list Full.Op) (w : Full.World)
  : list Op :=
  match ops with
  | [] => []
  | op :: ops' => lower w op ++ lower_run b stack ops' (Full.step b stack op w).2
  end.

(** The results of the operations of the first model that one operation of
    [Full] is, and its result. *)
Definition same_results (rs : list (Result Value)) (r' : Full.Result Value) : Prop :=
  match rs with
  | [r] => same_result r r'
  | _ => r' = Full.Returns VUndefined
  end.

(** An operation of the first model and one of [Full] that are the same
    call. *)
Definition same_kind (op : Op) (op' : Full.Op) : Prop :=
  match op, op' with
  | CreateTask _ cb, Full.CreateTask _ f => exists body, f = Full.Function cb body
  | CancelTask i, Full.CancelTask j => i = j
  | RescheduleTask i _, Full.RescheduleTask j _ => i = j
  | GetTasks, Full.GetTasks => True
  | Advance m, Full.Advance m' => m = m'
  | Fire h, Full.Fire h' => h = h'
  | ExecuteTask i, Full.ExecuteTask j => i = j
  | _, _ => False
  end.

(** * Properties *)

(** ** The [Map] *)

Module JsMapFacts.
Import JsMap.

Lemma get_set_eq k v m : get k (set k v m) = Some v.
Proof.
  induction m as [|[k' v'] m IH]; cbn.
  - by rewrite Z.eqb_refl.
  - destruct (Z.eqb_spec k k'); cbn.
    + by rewrite Z.eqb_refl.
    + destruct (Z.eqb_spec k k'); [lia | done].
Qed.

Lemma get_set_ne k k' v m : k <> k' -> get k' (set k v m) = get k' m.
Proof.
  intros Hne. induction m as [|[k0 v0] m IH]; cbn.
  - destruct (Z.eqb_spec k' k); [congruence | done].
  - destruct (Z.eqb_spec k k0) as [->|]; cbn.
    + destruct (Z.eqb_spec k' k0); [congruence | done].
    + destruct (Z.eqb_spec k' k0); [done | apply IH].
Qed.

Lemma get_delete_eq k m : get k (delete k m) = None.
Proof.
  induction m as [|[k' v'] m IH]; cbn; [done|].
  destruct (Z.eqb_spec k k'); cbn; [done|].
  destruct (Z.eqb_spec k k'); [lia | done].
Qed.

Lemma get_delete_ne k k' m : k <> k' -> get k' (delete k m) = get k' m.
Proof.
  intros Hne. induction m as [|[k0 v0] m IH]; cbn; [done|].
  destruct (Z.eqb_spec k k0) as [->|]; cbn.
  - destruct (Z.eqb_spec k' k0); [congruence | done].
  - destruct (Z.eqb_spec k' k0); [done | apply IH].
Qed.

Lemma get_None k m : get k m = None <-> k ∉ keys m.
Proof.
  induction m as [|[k' v'] m IH]; cbn.
  - split; [intros _; apply not_elem_of_nil | done].
  - rewrite not_elem_of_cons. destruct (Z.eqb_spec k k'); [|tauto].
    split; [done | tauto].
Qed.

Lemma get_Some k v m : get k m = Some v -> (k, v) ∈ m.
Proof.
  induction m as [|[k' v'] m IH]; cbn; [done|].
  destruct (Z.eqb_spec k k') as [->|].
  - intros [= ->]. left.
  - intros H. right. by apply IH.
Qed.

Lemma get_Some_key k v m : get k m = Some v -> k ∈ keys m.
Proof.
  intros H. destruct (decide (k ∈ keys m)) as [|Hn]; [done|].
  apply get_None in Hn. congruence.
Qed.

(** A key that is not in the map goes to the end: insertion order. *)
Lemma set_fresh k v m : get k m = None -> set k v m = m ++ [(k, v)].
Proof.
  induction m as [|[k' v'] m IH]; cbn; [done|].
  destruct (Z.eqb_spec k k'); [done|]. intros H. by rewrite IH.
Qed.

Lemma elem_delete k k' v m : (k', v) ∈ delete k m <-> (k', v) ∈ m /\ k' <> k.
Proof.
  induction m as [|[k0 v0] m IH]; cbn.
  - split; [intros H; by apply elem_of_nil in H | intros [H _]; by apply elem_of_nil in H].
  - destruct (Z.eqb_spec k k0) as [->|].
    + rewrite IH, elem_of_cons. split; [tauto|].
      intros [[[= -> ->]|H] Hne]; [done | tauto].
    + rewrite !elem_of_cons, IH. split; [|tauto].
      intros [[= -> ->]|[H Hne]]; [split; [by left | congruence] | tauto].
Qed.

Lemma keys_delete k k' m : k' ∈ keys (delete k m) <-> k' ∈ keys m /\ k' <> k.
Proof.
  unfold keys. rewrite !list_elem_of_fmap. split.
  - intros [[k0 v] [-> H]]. apply elem_delete in H as [H Hne].
    split; [by exists (k0, v) | done].
  - intros [[[k0 v] [-> H]] Hne]. exists (k0, v). split; [done|].
    by apply elem_delete.
Qed.

Lemma NoDup_keys_delete k m : NoDup (keys m) -> NoDup (keys (delete k m)).
Proof.
  induction m as [|[k0 v0] m IH]; cbn; [done|].
  intros [Hk Hnd]%NoDup_cons.
  destruct (Z.eqb_spec k k0); [by apply IH|].
  cbn. apply NoDup_cons. split; [|by apply IH].
  intros H. apply Hk. by apply (keys_delete k k0 m) in H as [H _].
Qed.

(** Deleting a key keeps the other entries in their order. *)
Lemma delete_filter k m : delete k m = filter (fun kl => kl.1 <> k) m.
Proof.
  induction m as [|[k' v'] m IH]; [done|]. cbn [delete].
  destruct (Z.eqb_spec k k') as [->|Hne].
  - by rewrite filter_cons_False by (cbn; congruence).
  - rewrite filter_cons_True by (cbn; congruence). by rewrite IH.
Qed.

Lemma keys_app m1 m2 : keys (m1 ++ m2) = keys m1 ++ keys m2.
Proof. unfold keys. apply map_app. Qed.

End JsMapFacts.

(** ** What each method does *)

Ltac unfold_m :=
  cbv [bind ret fmapM tasks_get tasks_set tasks_delete tasks_values
       nextTaskId_postincr alloc load_task assign_targetTime assign_timeoutId
       Date_now setTimeout clearTimeout call
       set_heap set_this set_now set_timers set_nextHandle set_log];
  cbn [heap this now timers nextHandle log tasks nextTaskId fst snd].

Lemma executeTask_absent i w :
  JsMap.get i (tasks (this w)) = None -> _executeTask i w = (Ok tt, w).
Proof. intros H. unfold _executeTask. unfold_m. by rewrite H. Qed.

Lemma executeTask_present i w l t :
  JsMap.get i (tasks (this w)) = Some l ->
  heap w !! l = Some (TaskObj t) ->
  _executeTask i w =
    if cb_throws (callback t)
    then (Raise (CallbackError (callback t)), called i (callback t) w)
    else (Ok tt, deleted i (called i (callback t) w)).
Proof.
  intros H Hl. unfold _executeTask. unfold_m. rewrite H, Hl.
  by destruct (cb_throws (callback t)).
Qed.

Lemma scheduleTask_Esm l w t :
  heap w !! l = Some (TaskObj t) ->
  _scheduleTask Esm l w = (Ok tt, armed l (delay_for (targetTime t) w) w).
Proof.
  intros Hl. unfold _scheduleTask, delay_for, timeUntil. unfold_m. rewrite Hl.
  by destruct (js_gt0 _).
Qed.

Lemma scheduleTask_Src l w t :
  heap w !! l = Some (TaskObj t) ->
  _scheduleTask Src l w =
    if js_gt0 (timeUntil (targetTime t) w)
    then (Ok tt, armed l (timeUntil (targetTime t) w) w)
    else _executeTask (id t) w.
Proof.
  intros Hl. unfold _scheduleTask, timeUntil. unfold_m. rewrite Hl.
  destruct (js_gt0 _); [done|]. by rewrite Hl.
Qed.

Lemma createTask_unfold b d cb w :
  createTask b d cb w =
    match _scheduleTask b (length (heap w)) (registered d cb w) with
    | (Ok _, w') => (Ok (nextTaskId (this w)), w')
    | (Raise e, w') => (Raise e, w')
    end.
Proof. reflexivity. Qed.

Lemma registered_lookup d cb w :
  heap (registered d cb w) !! length (heap w)
  = Some (TaskObj (mkTask (nextTaskId (this w)) d cb None)).
Proof. cbn. by rewrite list_lookup_middle. Qed.

Lemma createTask_Esm d cb w :
  createTask Esm d cb w =
    (Ok (nextTaskId (this w)),
     armed (length (heap w)) (delay_for d w) (registered d cb w)).
Proof.
  rewrite createTask_unfold.
  by rewrite (scheduleTask_Esm _ _ _ (registered_lookup d cb w)).
Qed.

Lemma cancelTask_absent i w :
  JsMap.get i (tasks (this w)) = None -> cancelTask i w = (Ok false, w).
Proof. intros H. unfold cancelTask. unfold_m. by rewrite H. Qed.

Lemma cancelTask_present i w l t :
  JsMap.get i (tasks (this w)) = Some l ->
  heap w !! l = Some (TaskObj t) ->
  cancelTask i w = (Ok true, deleted i (disarmed (timeoutId t) w)).
Proof.
  intros H Hl. unfold cancelTask. unfold_m. rewrite H, Hl.
  by destruct (timeoutId t).
Qed.

Lemma rescheduleTask_absent b i d w :
  JsMap.get i (tasks (this w)) = None -> rescheduleTask b i d w = (Ok false, w).
Proof. intros H. unfold rescheduleTask. unfold_m. by rewrite H. Qed.

Lemma rescheduleTask_unfold b i d w l t :
  JsMap.get i (tasks (this w)) = Some l ->
  heap w !! l = Some (TaskObj t) ->
  rescheduleTask b i d w =
    match _scheduleTask b l (retimed l d (disarmed (timeoutId t) w)) with
    | (Ok _, w') => (Ok true, w')
    | (Raise e, w') => (Raise e, w')
    end.
Proof.
  intros H Hl. unfold rescheduleTask.
  unfold bind at 1. unfold tasks_get at 1. rewrite H.
  unfold bind at 1. unfold load_task at 1. rewrite Hl.
  by destruct (timeoutId t).
Qed.

Lemma retimed_lookup l d h w t :
  heap w !! l = Some (TaskObj t) ->
  heap (retimed l d (disarmed h w)) !! l
  = Some (TaskObj (mkTask (id t) d (callback t) (timeoutId t))).
Proof.
  intros Hl. destruct h; unfold retimed, disarmed, set_heap, set_timers; cbn [heap];
    by rewrite list_lookup_alter_eq, Hl.
Qed.

Lemma rescheduleTask_Esm i d w l t :
  JsMap.get i (tasks (this w)) = Some l ->
  heap w !! l = Some (TaskObj t) ->
  rescheduleTask Esm i d w =
    (Ok true,
     let w1 := retimed l d (disarmed (timeoutId t) w) in
     armed l (delay_for d w1) w1).
Proof.
  intros H Hl. rewrite (rescheduleTask_unfold _ _ _ _ _ _ H Hl).
  by rewrite (scheduleTask_Esm _ _ _ (retimed_lookup l d (timeoutId t) w t Hl)).
Qed.

(** ** Well-formed worlds *)

Lemma once_snoc lg e' :
  once lg ->
  (forall e, e ∈ lg -> cb_throws (ev_callback e) = false -> ev_task e' <> ev_task e) ->
  once (lg ++ [e']).
Proof.
  intros Hlg Hnew m n e1 e2 Hm Hn Hlt Hc.
  apply lookup_app_Some in Hn as [Hn|[Hge Hn]].
  - apply lookup_lt_Some in Hn as Hn'.
    rewrite lookup_app_l in Hm by lia. by apply (Hlg m n).
  - apply list_lookup_singleton_Some in Hn as [Hn ->].
    rewrite lookup_app_l in Hm by lia.
    apply Hnew; [by apply list_elem_of_lookup_2 in Hm | done].
Qed.

Lemma is_task_app h ext l : is_task h l -> is_task (h ++ ext) l.
Proof. intros (t & H). exists t. by apply lookup_app_l_Some. Qed.

Lemma task_at_app h ext l k : task_at h l k -> task_at (h ++ ext) l k.
Proof. intros (t & H & Hk). exists t. split; [by apply lookup_app_l_Some | done]. Qed.

Lemma is_task_with_timeoutId h x l l' :
  is_task h l -> is_task (alter (with_timeoutId x) l' h) l.
Proof.
  intros (t & H). destruct (decide (l' = l)) as [->|Hne].
  - eexists. by rewrite list_lookup_alter_eq, H.
  - exists t. by rewrite list_lookup_alter_ne.
Qed.

Lemma task_at_with_timeoutId h x l l' k :
  task_at h l k -> task_at (alter (with_timeoutId x) l' h) l k.
Proof.
  intros (t & H & Hk). destruct (decide (l' = l)) as [->|Hne].
  - eexists. split; [by rewrite list_lookup_alter_eq, H | done].
  - exists t. split; [by rewrite list_lookup_alter_ne | done].
Qed.

Lemma is_task_with_targetTime h d l l' :
  is_task h l -> is_task (alter (with_targetTime d) l' h) l.
Proof.
  intros (t & H). destruct (decide (l' = l)) as [->|Hne].
  - eexists. by rewrite list_lookup_alter_eq, H.
  - exists t. by rewrite list_lookup_alter_ne.
Qed.

Lemma task_at_with_targetTime h d l l' k :
  task_at h l k -> task_at (alter (with_targetTime d) l' h) l k.
Proof.
  intros (t & H & Hk). destruct (decide (l' = l)) as [->|Hne].
  - eexists. split; [by rewrite list_lookup_alter_eq, H | done].
  - exists t. split; [by rewrite list_lookup_alter_ne | done].
Qed.

Lemma wf_initial t0 : wf (initial t0).
Proof.
  split; cbn; try done; try (intros ? H; by apply elem_of_nil in H).
  - apply NoDup_nil_2.
  - intros ? ? H; by apply elem_of_nil in H.
Qed.

Lemma wf_get w k l :
  wf w -> JsMap.get k (tasks (this w)) = Some l -> task_at (heap w) l k.
Proof. intros Hwf H. apply (wf_tasks w Hwf). by apply JsMapFacts.get_Some. Qed.

Lemma wf_disarmed h w : wf w -> wf (disarmed h w).
Proof.
  intros []. destruct h as [h|]; [|done]. split; cbn; try done.
  intros tm [_ H]%list_elem_of_filter. auto.
Qed.

Lemma wf_retimed l d w : wf w -> wf (retimed l d w).
Proof.
  intros []. split; cbn; try done.
  - intros k l' H. apply task_at_with_targetTime; auto.
  - intros tm H. apply is_task_with_targetTime; auto.
Qed.

Lemma wf_armed l d w : wf w -> is_task (heap w) l -> wf (armed l d w).
Proof.
  intros [] Hl. split; cbn; try done.
  - intros k l' H. apply task_at_with_timeoutId; auto.
  - intros tm [H|H]%elem_of_app; apply is_task_with_timeoutId; [auto|].
    apply list_elem_of_singleton in H as ->. done.
Qed.

Lemma wf_deleted i w : wf w -> wf (deleted i w).
Proof.
  intros []. split; cbn; try done.
  - intros k [H _]%JsMapFacts.keys_delete. auto.
  - by apply JsMapFacts.NoDup_keys_delete.
  - intros k l [H _]%JsMapFacts.elem_delete. auto.
  - intros e He Hc [H _]%JsMapFacts.keys_delete. by apply (wf_done0 e).
Qed.

Lemma wf_called_raise i cb w :
  wf w -> i ∈ JsMap.keys (tasks (this w)) -> cb_throws cb = true ->
  wf (called i cb w).
Proof.
  intros [] Hi Hcb. split; cbn; try done.
  - intros e [H|H]%elem_of_app; [auto|].
    apply list_elem_of_singleton in H as ->. cbn. split; [|done]. by apply wf_keys0.
  - intros e [H|H]%elem_of_app; [auto|].
    apply list_elem_of_singleton in H as ->. cbn. congruence.
  - apply once_snoc; [done|]. cbn. intros e He Hc Heq.
    apply (wf_done0 e He Hc). by rewrite <- Heq.
Qed.

Lemma wf_executed i cb w :
  wf w -> i ∈ JsMap.keys (tasks (this w)) ->
  wf (deleted i (called i cb w)).
Proof.
  intros [] Hi. split; cbn; try done.
  - intros k [H _]%JsMapFacts.keys_delete. auto.
  - by apply JsMapFacts.NoDup_keys_delete.
  - intros k l [H _]%JsMapFacts.elem_delete. auto.
  - intros e [H|H]%elem_of_app; [auto|].
    apply list_elem_of_singleton in H as ->. cbn. split; [|done]. by apply wf_keys0.
  - intros e [H|H]%elem_of_app Hc [Hk Hne]%JsMapFacts.keys_delete.
    + by apply (wf_done0 e).
    + apply list_elem_of_singleton in H as ->. done.
  - apply once_snoc; [done|]. cbn. intros e He Hc Heq.
    apply (wf_done0 e He Hc). by rewrite <- Heq.
Qed.

Lemma wf_registered d cb w : wf w -> wf (registered d cb w).
Proof.
  intros [].
  assert (Hfresh : JsMap.get (nextTaskId (this w)) (tasks (this w)) = None).
  { apply JsMapFacts.get_None. intros H%wf_keys0. lia. }
  split; cbn; rewrite ?(JsMapFacts.set_fresh _ _ _ Hfresh), ?JsMapFacts.keys_app; cbn.
  - lia.
  - intros k [H|H]%elem_of_app.
    + apply wf_keys0 in H. lia.
    + apply list_elem_of_singleton in H as ->. lia.
  - apply NoDup_app. split; [done|]. split; [|apply NoDup_singleton].
    intros k Hk ->%list_elem_of_singleton. apply wf_keys0 in Hk. lia.
  - intros k l [H|H]%elem_of_app.
    + apply task_at_app. auto.
    + apply list_elem_of_singleton in H as [= -> ->].
      eexists. split; [apply list_lookup_middle; done | done].
  - intros tm H. apply is_task_app. auto.
  - intros e H. destruct (wf_log0 e H). split; [lia | done].
  - intros e H Hc [Hk|Hk]%elem_of_app.
    + by apply (wf_done0 e).
    + apply list_elem_of_singleton in Hk. destruct (wf_log0 e H). lia.
  - done.
Qed.

Lemma wf_heap_app ext w : wf w -> wf (set_heap (heap w ++ ext) w).
Proof.
  intros []. split; cbn; try done.
  - intros k l H. apply task_at_app. auto.
  - intros tm H. apply is_task_app. auto.
Qed.

Lemma wf_set_now n w : wf w -> wf (set_now n w).
Proof. by intros []. Qed.

Lemma set_heap_app_nil w : set_heap (heap w ++ []) w = w.
Proof. destruct w. unfold set_heap. cbn. by rewrite app_nil_r. Qed.

Lemma set_heap_app_app ext1 ext2 w :
  set_heap (heap (set_heap (heap w ++ ext1) w) ++ ext2) (set_heap (heap w ++ ext1) w)
  = set_heap (heap w ++ (ext1 ++ ext2)) w.
Proof. unfold set_heap. cbn. by rewrite app_assoc. Qed.

(** [getTasks] only adds objects to the store, and no task object. *)
Lemma entry_of_extends l w :
  exists ext, Forall not_task ext /\ (entry_of l w).2 = set_heap (heap w ++ ext) w.
Proof.
  unfold entry_of, bind, load_task, alloc.
  destruct (heap w !! l) as [[t| |]|]; cbn [snd].
  - exists [EntryObj (id t) (targetTime t)]. split; [|done].
    by apply Forall_singleton.
  - exists []. by rewrite set_heap_app_nil.
  - exists []. by rewrite set_heap_app_nil.
  - exists []. by rewrite set_heap_app_nil.
Qed.

Lemma map_each_entry_of_extends vs w :
  exists ext, Forall not_task ext /\
    (map_each entry_of vs w).2 = set_heap (heap w ++ ext) w.
Proof.
  revert w. induction vs as [|l vs IH]; intros w; cbn.
  - exists []. by rewrite set_heap_app_nil.
  - unfold bind at 1. destruct (entry_of_extends l w) as (e1 & Hn1 & H1).
    destruct (entry_of l w) as [[a|e] w1]; cbn [snd] in H1; subst w1; [|by exists e1].
    unfold bind at 1. destruct (IH (set_heap (heap w ++ e1) w)) as (e2 & Hn2 & H2).
    destruct (map_each entry_of vs _) as [[bs|e] w2]; cbn [snd] in H2; subst w2;
      unfold ret; cbn [snd]; rewrite set_heap_app_app;
      (eexists; split; [|done]; by apply Forall_app).
Qed.

Lemma getTasks_extends b w :
  exists ext, Forall not_task ext /\ (getTasks b w).2 = set_heap (heap w ++ ext) w.
Proof.
  unfold getTasks. unfold bind at 1. unfold tasks_values at 1.
  set (vs := JsMap.values (tasks (this w))). destruct b.
  - unfold bind at 1. destruct (map_each_entry_of_extends vs w) as (e1 & Hn1 & H1).
    destruct (map_each entry_of vs w) as [[es|e] w1]; cbn [snd] in H1; subst w1; [|by exists e1].
    unfold alloc. cbn [snd]. rewrite set_heap_app_app.
    eexists; split; [|done]. apply Forall_app. split; [done|]. by apply Forall_singleton.
  - unfold bind at 1. unfold alloc at 1.
    unfold bind at 1.
    destruct (map_each_entry_of_extends vs (set_heap (heap w ++ [ArrayObj vs]) w))
      as (e1 & Hn1 & H1).
    assert (Hv : Forall not_task [ArrayObj vs]) by (by apply Forall_singleton).
    destruct (map_each entry_of vs _) as [[es|e] w1]; cbn [snd] in H1; subst w1.
    + unfold alloc. cbn [snd]. rewrite !set_heap_app_app.
      eexists; split; [|done]. apply Forall_app. split; [done|].
      apply Forall_app. split; [done|]. by apply Forall_singleton.
    + cbn [snd]. rewrite set_heap_app_app.
      eexists; split; [|done]. by apply Forall_app.
Qed.

Lemma wf_executeTask i w : wf w -> wf (_executeTask i w).2.
Proof.
  intros Hwf. destruct (JsMap.get i (tasks (this w))) as [l|] eqn:Hget.
  - destruct (wf_get w i l Hwf Hget) as (t & Hl & _).
    rewrite (executeTask_present i w l t Hget Hl).
    apply JsMapFacts.get_Some_key in Hget.
    destruct (cb_throws (callback t)) eqn:Hc; cbn [snd].
    + by apply wf_called_raise.
    + by apply wf_executed.
  - by rewrite executeTask_absent.
Qed.

Lemma wf_scheduleTask b l w : wf w -> is_task (heap w) l -> wf (_scheduleTask b l w).2.
Proof.
  intros Hwf [t Hl]. destruct b.
  - rewrite (scheduleTask_Esm l w t Hl). apply wf_armed; [done | by exists t].
  - rewrite (scheduleTask_Src l w t Hl). destruct (js_gt0 _).
    + apply wf_armed; [done | by exists t].
    + by apply wf_executeTask.
Qed.

Lemma snd_match_result {A B} (p : Result A * World) (f : A -> Result B) :
  (match p with
   | (Ok a, w') => (f a, w')
   | (Raise e, w') => (Raise e, w')
   end).2 = p.2.
Proof. by destruct p as [[]]. Qed.

Lemma wf_createTask b d cb w : wf w -> wf (createTask b d cb w).2.
Proof.
  intros Hwf. rewrite createTask_unfold.
  rewrite (snd_match_result _ (fun _ => Ok (nextTaskId (this w)))).
  apply wf_scheduleTask; [by apply wf_registered|].
  eexists. apply registered_lookup.
Qed.

Lemma wf_cancelTask i w : wf w -> wf (cancelTask i w).2.
Proof.
  intros Hwf. destruct (JsMap.get i (tasks (this w))) as [l|] eqn:Hget.
  - destruct (wf_get w i l Hwf Hget) as (t & Hl & _).
    rewrite (cancelTask_present i w l t Hget Hl). cbn [snd].
    by apply wf_deleted, wf_disarmed.
  - by rewrite cancelTask_absent.
Qed.

Lemma wf_rescheduleTask b i d w : wf w -> wf (rescheduleTask b i d w).2.
Proof.
  intros Hwf. destruct (JsMap.get i (tasks (this w))) as [l|] eqn:Hget.
  - destruct (wf_get w i l Hwf Hget) as (t & Hl & _).
    rewrite (rescheduleTask_unfold b i d w l t Hget Hl).
    rewrite (snd_match_result _ (fun _ => Ok true)).
    apply wf_scheduleTask; [by apply wf_retimed, wf_disarmed|].
    eexists. by apply retimed_lookup.
  - by rewrite rescheduleTask_absent.
Qed.

Lemma wf_getTasks b w : wf w -> wf (getTasks b w).2.
Proof.
  intros Hwf. destruct (getTasks_extends b w) as (ext & _ & ->). by apply wf_heap_app.
Qed.

Lemma held_elem h ts t : held h ts = Some t -> t ∈ ts /\ t_handle t = h.
Proof.
  induction ts as [|t' ts IH]; cbn; [done|].
  destruct (Nat.eqb_spec (t_handle t') h).
  - intros [= ->]. split; [left | done].
  - intros H. destruct (IH H). split; [by right | done].
Qed.

Lemma held_None h ts : held h ts = None <-> forall t, t ∈ ts -> t_handle t <> h.
Proof.
  induction ts as [|t' ts IH]; cbn.
  - split; [intros _ t H; by apply elem_of_nil in H | done].
  - destruct (Nat.eqb_spec (t_handle t') h) as [E|E].
    + split; [done|]. intros H. destruct (H t'); [left | done].
    + rewrite IH. split.
      * intros H t [->|Ht]%elem_of_cons; auto.
      * intros H t Ht. apply H. by right.
Qed.

Lemma fire_held h w tm t :
  held h (timers w) = Some tm ->
  heap w !! t_task tm = Some (TaskObj t) ->
  fire h w = _executeTask (id t) (disarmed (Some h) w).
Proof.
  intros Hh Hl. unfold fire. rewrite Hh.
  unfold bind at 1. unfold clearTimeout at 1.
  unfold bind at 1. unfold load_task at 1.
  unfold disarmed. cbn [heap set_timers]. by rewrite Hl.
Qed.

Lemma fire_not_held h w : held h (timers w) = None -> fire h w = (Ok tt, w).
Proof. intros Hh. unfold fire. by rewrite Hh. Qed.

Lemma wf_fire h w : wf w -> wf (fire h w).2.
Proof.
  intros Hwf. destruct (held h (timers w)) as [tm|] eqn:Hh.
  - destruct (held_elem _ _ _ Hh) as [Hin _].
    destruct (wf_timers w Hwf tm Hin) as [t Hl].
    rewrite (fire_held h w tm t Hh Hl).
    apply wf_executeTask, (wf_disarmed (Some h)), Hwf.
  - by rewrite fire_not_held.
Qed.

Lemma snd_fmapM {A B} (f : A -> B) (m : M A) w : (fmapM f m w).2 = (m w).2.
Proof. unfold fmapM, bind, ret. by destruct (m w) as [[]]. Qed.

Lemma wf_step b op w : wf w -> wf (step b op w).2.
Proof.
  intros Hwf. destruct op; cbn [step]; rewrite ?snd_fmapM.
  - by apply wf_createTask.
  - by apply wf_cancelTask.
  - by apply wf_rescheduleTask.
  - by apply wf_getTasks.
  - by apply wf_set_now.
  - by apply wf_fire.
  - by apply wf_executeTask.
Qed.

Lemma run_cons b op ops w :
  run b (op :: ops) w =
    ((step b op w).1 :: (run b ops (step b op w).2).1, (run b ops (step b op w).2).2).
Proof. cbn. destruct (step b op w). cbn. by destruct (run b ops _). Qed.

Lemma run_app b ops1 ops2 w :
  run b (ops1 ++ ops2) w =
    ((run b ops1 w).1 ++ (run b ops2 (run b ops1 w).2).1,
     (run b ops2 (run b ops1 w).2).2).
Proof.
  revert w. induction ops1 as [|op ops1 IH]; intros w.
  - cbn. by destruct (run b ops2 w).
  - rewrite <- app_comm_cons, !run_cons, IH. reflexivity.
Qed.

Lemma wf_run b ops w : wf w -> wf (run b ops w).2.
Proof.
  revert w. induction ops as [|op ops IH]; intros w Hwf; [done|].
  rewrite run_cons. cbn [snd]. by apply IH, wf_step.
Qed.

Lemma reachable_wf b w : reachable b w -> wf w.
Proof. intros (t0 & ops & <-). apply wf_run, wf_initial. Qed.

(** ** The operations as transitions *)

Lemma fmapM_eq {A B} (f : A -> B) (m : M A) w :
  fmapM f m w = (map_result f (m w).1, (m w).2).
Proof. unfold fmapM, bind, ret. by destruct (m w) as [[]]. Qed.

Lemma executeTask_executes i w :
  wf w -> executes i w (_executeTask i w).1 (_executeTask i w).2.
Proof.
  intros Hwf. destruct (JsMap.get i (tasks (this w))) as [l|] eqn:Hget.
  - destruct (wf_get w i l Hwf Hget) as (t & Hl & _).
    rewrite (executeTask_present i w l t Hget Hl).
    destruct (cb_throws (callback t)) eqn:Hc; cbn [fst snd].
    + by eapply executes_raised.
    + by eapply executes_returned.
  - rewrite executeTask_absent by done. by apply executes_absent.
Qed.

Lemma timeUntil_registered d d' cb w : timeUntil d (registered d' cb w) = timeUntil d w.
Proof. reflexivity. Qed.

Lemma timeUntil_retimed d l d' h w :
  timeUntil d (retimed l d' (disarmed h w)) = timeUntil d w.
Proof. by destruct h. Qed.

Lemma delay_for_arms d w : js_gt0 (timeUntil d w) = true -> delay_for d w = timeUntil d w.
Proof. unfold delay_for. by intros ->. Qed.

Lemma scheduleTask_arms b l w t :
  heap w !! l = Some (TaskObj t) ->
  arms b (targetTime t) w ->
  _scheduleTask b l w = (Ok tt, armed l (delay_for (targetTime t) w) w).
Proof.
  intros Hl Harm. destruct b.
  - by apply scheduleTask_Esm.
  - destruct Harm as [|Hgt]; [done|].
    rewrite (scheduleTask_Src l w t Hl), Hgt. by rewrite delay_for_arms.
Qed.

Lemma scheduleTask_runs_now b l w t :
  heap w !! l = Some (TaskObj t) ->
  runs_now b (targetTime t) w ->
  _scheduleTask b l w = _executeTask (id t) w.
Proof.
  intros Hl [-> Hgt]. by rewrite (scheduleTask_Src l w t Hl), Hgt.
Qed.

Lemma arms_or_runs_now b d w : arms b d w \/ runs_now b d w.
Proof.
  unfold arms, runs_now. destruct b; [by left; left|].
  destruct (js_gt0 (timeUntil d w)); [left; by right | by right].
Qed.

Lemma step_does b op w : wf w -> does b op w (step b op w).1 (step b op w).2.
Proof.
  intros Hwf. destruct op as [d cb|i|i d| |ms|h|i]; cbn [step]; rewrite ?fmapM_eq; cbn [fst snd].
  - rewrite createTask_unfold.
    pose proof (registered_lookup d cb w) as Hl.
    destruct (arms_or_runs_now b d w) as [Ha|Hr].
    + rewrite (scheduleTask_arms b _ _ _ Hl) by done. by apply does_create_arm.
    + rewrite (scheduleTask_runs_now b _ _ _ Hl) by done. cbn [id].
      pose proof (executeTask_executes (nextTaskId (this w)) _ (wf_registered d cb w Hwf)) as He.
      destruct (_executeTask _ _) as [[[]|e] w']; cbn [fst snd] in *;
        by apply (does_create_run b d cb w _ w' Hr) in He.
  - destruct (JsMap.get i (tasks (this w))) as [l|] eqn:Hget.
    + destruct (wf_get w i l Hwf Hget) as (t & Hl & _).
      rewrite (cancelTask_present i w l t Hget Hl). by eapply does_cancel.
    + rewrite cancelTask_absent by done. by apply does_cancel_absent.
  - destruct (JsMap.get i (tasks (this w))) as [l|] eqn:Hget.
    + destruct (wf_get w i l Hwf Hget) as (t & Hl & Hid).
      rewrite (rescheduleTask_unfold b i d w l t Hget Hl).
      pose proof (retimed_lookup l d (timeoutId t) w t Hl) as Hl'.
      destruct (arms_or_runs_now b d w) as [Ha|Hr].
      * rewrite (scheduleTask_arms b _ _ _ Hl'); cbn [targetTime];
          rewrite ?timeUntil_retimed; [|by destruct (timeoutId t)].
        replace (delay_for d (retimed l d (disarmed (timeoutId t) w))) with (delay_for d w)
          by (by destruct (timeoutId t)).
        by eapply does_reschedule_arm.
      * rewrite (scheduleTask_runs_now b _ _ _ Hl');
          [|by destruct (timeoutId t)]. cbn [id]. rewrite Hid.
        assert (Hwf' : wf (retimed l d (disarmed (timeoutId t) w)))
          by (by apply wf_retimed, wf_disarmed).
        pose proof (executeTask_executes i _ Hwf') as He.
        destruct (_executeTask _ _) as [[[]|e] w']; cbn [fst snd] in *;
          by apply (does_reschedule_run b i d w l t _ w' Hget Hl Hr) in He.
    + rewrite rescheduleTask_absent by done. by apply does_reschedule_absent.
  - destruct (getTasks_extends b w) as (ext & Hext & ->). by apply does_getTasks.
  - apply does_advance.
  - destruct (held h (timers w)) as [tm|] eqn:Hh.
    + destruct (held_elem _ _ _ Hh) as [Hin _].
      destruct (wf_timers w Hwf tm Hin) as [t Hl].
      rewrite (fire_held h w tm t Hh Hl).
      pose proof (executeTask_executes (id t) _ (wf_disarmed (Some h) w Hwf)) as He.
      by apply (does_fire b h w tm t).
    + rewrite fire_not_held by done. by apply does_fire_not_held.
  - apply does_execute. by apply executeTask_executes.
Qed.

(** ** Identifiers *)

Lemma increasing_cons i l :
  Forall (fun j => i < j) l -> increasing l -> increasing (i :: l).
Proof.
  intros Hall Hl [|m] [|n] x y Hm Hn Hlt; try lia; cbn in *.
  - injection Hm as <-. rewrite Forall_forall in Hall.
    apply Hall. by apply list_elem_of_lookup_2 in Hn.
  - apply (Hl m n); [done | done | lia].
Qed.

Lemma executes_nextTaskId i w r w' :
  executes i w r w' -> nextTaskId (this w') = nextTaskId (this w).
Proof. by destruct 1. Qed.

Lemma does_nextTaskId b op w r w' :
  does b op w r w' ->
  nextTaskId (this w') = nextTaskId (this w) + (if is_create op then 1 else 0).
Proof.
  destruct 1; cbn [is_create];
    try match goal with H : executes _ _ _ _ |- _ => apply executes_nextTaskId in H; rewrite H end;
    try (destruct (timeoutId t)); cbn; lia.
Qed.

Lemma does_create_result b d cb w v w' :
  does b (CreateTask d cb) w (Ok v) w' -> v = VNumber (nextTaskId (this w)).
Proof.
  inversion 1; subst; [done|].
  match goal with H : map_result _ ?r = Ok _ |- _ => destruct r; by inversion H end.
Qed.

Lemma run_nextTaskId b ops w :
  wf w -> nextTaskId (this (run b ops w).2) = nextTaskId (this w) + count_creates ops.
Proof.
  revert w. induction ops as [|op ops IH]; intros w Hwf; [cbn; lia|].
  rewrite run_cons. cbn [snd count_creates].
  rewrite IH by (by apply wf_step).
  rewrite (does_nextTaskId b op w _ _ (step_does b op w Hwf)). lia.
Qed.

Lemma count_creates_nonneg ops : 0 <= count_creates ops.
Proof. induction ops as [|op ops IH]; cbn; [lia|]. destruct (is_create op); lia. Qed.

Lemma run_lookup b ops w k op :
  ops !! k = Some op ->
  (run b ops w).1 !! k = Some (step b op (run b (take k ops) w).2).1.
Proof.
  revert w k. induction ops as [|op' ops IH]; intros w [|k] H; try done.
  - injection H as ->. by rewrite run_cons.
  - cbn in H. rewrite run_cons. cbn [fst]. cbn [take]. rewrite run_cons. cbn [snd].
    by apply IH.
Qed.

Lemma created_ids_bounds b ops w :
  wf w ->
  Forall (fun i => nextTaskId (this w) <= i < nextTaskId (this (run b ops w).2))
         (created_ids ops (run b ops w).1)
  /\ increasing (created_ids ops (run b ops w).1).
Proof.
  revert w. induction ops as [|op ops IH]; intros w Hwf.
  - cbn. split; [done|]. intros m n i j H. by rewrite lookup_nil in H.
  - rewrite run_cons. cbn [fst snd].
    pose proof (step_does b op w Hwf) as Hd.
    pose proof (does_nextTaskId b op w _ _ Hd) as Hn.
    destruct (IH _ (wf_step b op w Hwf)) as [Hall Hinc].
    assert (Hweak : Forall (fun i => nextTaskId (this w) <= i
                            < nextTaskId (this (run b ops (step b op w).2).2))
                         (created_ids ops (run b ops (step b op w).2).1)).
    { eapply Forall_impl; [exact Hall|]. cbn beta. intros i Hi.
      rewrite Hn in Hi. destruct (is_create op); lia. }
    destruct op as [d cb|i|i d| |ms|h|i]; try (cbn [created_ids]; by split).
    cbn [created_ids]. destruct (step b (CreateTask d cb) w).1 as [[| z | |]|e] eqn:Hr;
      try by split.
    apply does_create_result in Hd. injection Hd as ->.
    cbn [is_create] in Hn. split.
    + apply Forall_cons. split; [|done].
      pose proof (run_nextTaskId b ops _ (wf_step b (CreateTask d cb) w Hwf)) as Hrun.
      pose proof (count_creates_nonneg ops). cbn beta. lia.
    + apply increasing_cons; [|done].
      eapply Forall_impl; [exact Hall|]. cbn beta. intros i Hi. lia.
Qed.

(** C4: in every run of a manager the identifiers that [createTask] returns
    are strictly increasing, hence never repeated, and at least 1; the
    [createTask] call that comes after [n] earlier ones is given [n + 1]
    whatever was fired, cancelled or rescheduled in between; and
    [nextTaskId] starts at 1 and is 1 plus the number of [createTask] calls
    so far, so it never goes down and is never set back. *)
Theorem createTask_ids_increasing (b : Build) (ops : list Op) (t0 : Z) :
  nextTaskId (this (initial t0)) = 1 /\
  increasing (created_ids ops (run b ops (initial t0)).1) /\
  NoDup (created_ids ops (run b ops (initial t0)).1) /\
  Forall (fun i => 1 <= i < nextTaskId (this (run b ops (initial t0)).2))
         (created_ids ops (run b ops (initial t0)).1) /\
  (forall k d cb v,
     ops !! k = Some (CreateTask d cb) ->
     (run b ops (initial t0)).1 !! k = Some (Ok v) ->
     v = VNumber (1 + count_creates (take k ops))) /\
  (forall ops',
     nextTaskId (this (run b (ops ++ ops') (initial t0)).2)
     = nextTaskId (this (run b ops (initial t0)).2) + count_creates ops'
     /\ nextTaskId (this (run b ops (initial t0)).2)
        <= nextTaskId (this (run b (ops ++ ops') (initial t0)).2)).
Proof.
  pose proof (wf_initial t0) as Hwf.
  destruct (created_ids_bounds b ops _ Hwf) as [Hall Hinc].
  split; [done|]. split; [done|]. split; [|split; [done|split]].
  - apply NoDup_alt. intros m n i Hm Hn.
    destruct (Nat.lt_trichotomy m n) as [Hlt|[->|Hlt]]; [|done|].
    + pose proof (Hinc m n i i Hm Hn Hlt). lia.
    + pose proof (Hinc n m i i Hn Hm Hlt). lia.
  - intros k d cb v Hk Hr. rewrite (run_lookup b ops _ k _ Hk) in Hr.
    pose proof (wf_run b (take k ops) _ Hwf) as Hwfk.
    pose proof (step_does b (CreateTask d cb) _ Hwfk) as Hd.
    destruct (step b (CreateTask d cb) _) as [r w']. cbn [fst snd] in *.
    injection Hr as ->. apply does_create_result in Hd. subst v.
    by rewrite (run_nextTaskId b (take k ops) _ Hwf).
  - intros ops'. rewrite run_app. cbn [snd].
    rewrite (run_nextTaskId b ops' _ (wf_run b ops _ Hwf)).
    pose proof (count_creates_nonneg ops'). lia.
Qed.

(** Three tasks, with a cancellation and a firing in between: 1, 2, 3. *)
Lemma createTask_ids_increasing_witness :
  created_ids
    [CreateTask (DateMs 1000) cb_ok; CancelTask 1; CreateTask (DateMs (-5)) cb_ok;
     Fire 2%nat; CreateTask (DateMs 7) cb_bad]
    (run Esm
       [CreateTask (DateMs 1000) cb_ok; CancelTask 1; CreateTask (DateMs (-5)) cb_ok;
        Fire 2%nat; CreateTask (DateMs 7) cb_bad] (initial 0)).1
  = [1; 2; 3]
  /\ VNumber 3 = VNumber (1 + count_creates (take 4
       [CreateTask (DateMs 1000) cb_ok; CancelTask 1; CreateTask (DateMs (-5)) cb_ok;
        Fire 2%nat; CreateTask (DateMs 7) cb_bad])).
Proof.
  split; [reflexivity|].
  apply (proj1 (proj2 (proj2 (proj2 (proj2
          (createTask_ids_increasing Esm
             [CreateTask (DateMs 1000) cb_ok; CancelTask 1; CreateTask (DateMs (-5)) cb_ok;
              Fire 2%nat; CreateTask (DateMs 7) cb_bad] 0)))))
         4%nat (DateMs 7) cb_bad (VNumber 3)); reflexivity.
Defined.

(** ** Firing *)







(** ** Cancelling *)

Ltac simpl_world :=
  cbn [heap this now timers nextHandle log tasks nextTaskId fst snd
       deleted called armed disarmed retimed registered
       set_heap set_this set_now set_timers set_nextHandle set_log] in *.

Lemma calls_of_snoc_ne i lg e : ev_task e <> i -> calls_of i (lg ++ [e]) = calls_of i lg.
Proof.
  intros Hne. unfold calls_of. rewrite filter_app.
  rewrite (filter_cons_False _ e []) by done. by rewrite app_nil_r.
Qed.

Lemma executes_gone i j w r w' :
  gone i w -> executes j w r w' ->
  gone i w' /\ calls_of i (log w') = calls_of i (log w).
Proof.
  intros [Hget Hlt]. destruct 1 as [j w Hj|j w l t Hj Hl Hc|j w l t Hj Hl Hc].
  - done.
  - assert (j <> i) by congruence. unfold gone. simpl_world. split; [split; [|done]|].
    + by rewrite JsMapFacts.get_delete_ne.
    + by apply calls_of_snoc_ne.
  - assert (j <> i) by congruence. unfold gone. simpl_world. split; [done|].
    by apply calls_of_snoc_ne.
Qed.

Lemma gone_registered i d cb w : gone i w -> gone i (registered d cb w).
Proof.
  intros [Hget Hlt]. split; simpl_world; [|lia].
  rewrite JsMapFacts.get_set_ne by lia. done.
Qed.

Lemma does_gone b i op w r w' :
  gone i w -> does b op w r w' ->
  gone i w' /\ calls_of i (log w') = calls_of i (log w) /\
  (op = CancelTask i -> r = Ok (VBool false)) /\
  (forall d, op = RescheduleTask i d -> r = Ok (VBool false)).
Proof.
  intros Hg. pose proof Hg as [Hget Hlt].
  destruct 1 as [d cb w Ha|d cb w r w' Hr He|j w l t Hj Hl|j w Hj
                |j d w l t Hj Hl Ha|j d w l t r w' Hj Hl Hr He|j d w Hj
                |w r ext Hext|ms w|h w tm t r w' Hh Hl He|h w Hh|j w r w' He].
  - split; [|by split_and!]. by apply (gone_registered i d cb) in Hg as [? ?].
  - apply (executes_gone i _ _ _ _ (gone_registered i d cb w Hg)) in He as [? ?].
    by split_and!.
  - assert (j <> i) by congruence. split; [|split; [|split]].
    + split; [|by destruct (timeoutId t)]. simpl_world.
      rewrite JsMapFacts.get_delete_ne by done. by destruct (timeoutId t).
    + by destruct (timeoutId t).
    + congruence.
    + done.
  - by split_and!.
  - assert (j <> i) by congruence. split; [|split; [|split]].
    + by destruct (timeoutId t).
    + by destruct (timeoutId t).
    + done.
    + congruence.
  - assert (j <> i) by congruence.
    assert (Hg' : gone i (retimed l d (disarmed (timeoutId t) w)))
      by (by destruct (timeoutId t)).
    apply (executes_gone i _ _ _ _ Hg') in He as [? He]. split; [done|].
    split; [|split; [done|congruence]].
    rewrite He. by destruct (timeoutId t).
  - by split_and!.
  - by split_and!.
  - by split_and!.
  - assert (Hg' : gone i (disarmed (Some h) w)) by done.
    apply (executes_gone i _ _ _ _ Hg') in He as [? ?]. by split_and!.
  - by split_and!.
  - apply (executes_gone i _ _ _ _ Hg) in He as [? ?]. by split_and!.
Qed.

Lemma run_gone b i ops w :
  wf w -> gone i w ->
  gone i (run b ops w).2 /\
  calls_of i (log (run b ops w).2) = calls_of i (log w) /\
  (forall k, ops !! k = Some (CancelTask i) ->
             (run b ops w).1 !! k = Some (Ok (VBool false))) /\
  (forall k d, ops !! k = Some (RescheduleTask i d) ->
               (run b ops w).1 !! k = Some (Ok (VBool false))).
Proof.
  revert w. induction ops as [|op ops IH]; intros w Hwf Hg.
  - cbn. split; [done|]. split; [done|]. split; intros k; by rewrite lookup_nil.
  - rewrite run_cons. cbn [fst snd].
    destruct (does_gone b i op w _ _ Hg (step_does b op w Hwf)) as (Hg' & Hc & Hcan & Hres).
    destruct (IH _ (wf_step b op w Hwf) Hg') as (Hg'' & Hc' & Hcan' & Hres').
    split; [done|]. split; [congruence|]. split.
    + intros [|k] Hk; cbn in *; [|by apply Hcan'].
      injection Hk as ->. by rewrite Hcan.
    + intros [|k] d Hk; cbn in *; [|by eapply Hres'].
      injection Hk as ->. by rewrite (Hres d).
Qed.

Lemma held_disarmed h ts : held h (filter (fun t => t_handle t <> h) ts) = None.
Proof.
  apply held_None. intros t [H _]%list_elem_of_filter. done.
Qed.

(** C5: in a world a run has reached, [cancelTask(i)] for an identifier that
    is not in the map returns [false] and changes nothing; for one that is in
    the map it clears the timer of the task ([clearTimeout(task.timeoutId)]),
    deletes the entry, changes nothing in the store and returns [true]; it
    never raises.  After a [cancelTask(i)] that returned [true], however the
    run goes on, no callback is called for [i] any more, and every
    [cancelTask(i)] and [rescheduleTask(i, _)] returns [false]. *)
Theorem cancelTask_correct (b : Build) (w : World) (i : Z) :
  reachable b w ->
  (JsMap.get i (tasks (this w)) = None -> cancelTask i w = (Ok false, w)) /\
  (forall l, JsMap.get i (tasks (this w)) = Some l ->
     exists t, heap w !! l = Some (TaskObj t) /\
       cancelTask i w = (Ok true, deleted i (disarmed (timeoutId t) w)) /\
       JsMap.get i (tasks (this (cancelTask i w).2)) = None /\
       (forall h, timeoutId t = Some h -> held h (timers (cancelTask i w).2) = None) /\
       heap (cancelTask i w).2 = heap w /\
       log (cancelTask i w).2 = log w) /\
  (exists r, (cancelTask i w).1 = Ok r) /\
  ((cancelTask i w).1 = Ok true ->
     forall ops,
       calls_of i (log (run b ops (cancelTask i w).2).2) = calls_of i (log w) /\
       (forall k, ops !! k = Some (CancelTask i) ->
          (run b ops (cancelTask i w).2).1 !! k = Some (Ok (VBool false))) /\
       (forall k d, ops !! k = Some (RescheduleTask i d) ->
          (run b ops (cancelTask i w).2).1 !! k = Some (Ok (VBool false)))).
Proof.
  intros Hwf%reachable_wf.
  destruct (JsMap.get i (tasks (this w))) as [l|] eqn:Hget.
  - destruct (wf_get w i l Hwf Hget) as (t & Hl & Hid).
    rewrite (cancelTask_present i w l t Hget Hl). cbn [fst snd].
    split; [done|]. split; [|split; [by eexists|]].
    + intros l' [= <-]. exists t. split; [done|]. split; [done|].
      split; [apply JsMapFacts.get_delete_eq|].
      split; [|by destruct (timeoutId t)].
      intros h ->. simpl_world. apply held_disarmed.
    + intros _ ops.
      assert (Hg : gone i (deleted i (disarmed (timeoutId t) w))).
      { split; [apply JsMapFacts.get_delete_eq|].
        apply JsMapFacts.get_Some_key, (wf_keys w Hwf) in Hget.
        destruct (timeoutId t); simpl_world; lia. }
      assert (Hwf' : wf (deleted i (disarmed (timeoutId t) w)))
        by (by apply wf_deleted, wf_disarmed).
      destruct (run_gone b i ops _ Hwf' Hg) as (_ & Hc & Hcan & Hres).
      split; [|done]. rewrite Hc. by destruct (timeoutId t).
  - rewrite cancelTask_absent by done. cbn [fst snd].
    split; [done|]. split; [done|]. split; [by eexists|]. done.
Qed.

(** Task 1 is cancelled; its timer is cleared, and later its old closure,
    a second cancel and a reschedule find nothing. *)
Lemma cancelTask_correct_witness :
  cancelTask 7 (run Esm [CreateTask (DateMs 10) cb_ok] (initial 0)).2
  = (Ok false, (run Esm [CreateTask (DateMs 10) cb_ok] (initial 0)).2)
  /\ (run Esm [ExecuteTask 1; CancelTask 1; RescheduleTask 1 (DateMs 5)]
        (cancelTask 1 (run Esm [CreateTask (DateMs 10) cb_ok] (initial 0)).2).2).1 !! 1%nat
     = Some (Ok (VBool false)).
Proof.
  assert (Hr : reachable Esm (run Esm [CreateTask (DateMs 10) cb_ok] (initial 0)).2)
    by (by exists 0, [CreateTask (DateMs 10) cb_ok]).
  split.
  - apply (proj1 (cancelTask_correct Esm _ 7 Hr)). reflexivity.
  - apply (proj1 (proj2 (proj2 (proj2 (proj2 (cancelTask_correct Esm _ 1 Hr)))
             eq_refl [ExecuteTask 1; CancelTask 1; RescheduleTask 1 (DateMs 5)]))
            1%nat).
    reflexivity.
Defined.

(** ** Listing *)

Lemma wf_task_objects w : wf w -> exists ts, task_objects w ts.
Proof.
  intros Hwf. unfold task_objects. pose proof (wf_tasks w Hwf) as H.
  induction (tasks (this w)) as [|[k l] m IH].
  - exists []. constructor.
  - destruct IH as [ts Hts]; [intros k' l' Hin; apply H; by right|].
    destruct (H k l) as (t & Hl & Hk); [left|].
    exists (t :: ts). by constructor.
Qed.

Lemma entry_of_task l w t :
  heap w !! l = Some (TaskObj t) ->
  entry_of l w = (Ok (length (heap w)), set_heap (heap w ++ [entry_obj t]) w).
Proof. intros Hl. unfold entry_of, bind, load_task, alloc. by rewrite Hl. Qed.

Lemma map_each_entry_of vs ts w :
  Forall2 (fun l t => heap w !! l = Some (TaskObj t)) vs ts ->
  map_each entry_of vs w =
    (Ok (seq (length (heap w)) (length vs)),
     set_heap (heap w ++ map entry_obj ts) w).
Proof.
  intros H. revert w H. revert ts. induction vs as [|l vs IH]; intros ts w H.
  - apply Forall2_nil_inv_l in H as ->. cbn. unfold ret. by rewrite set_heap_app_nil.
  - apply Forall2_cons_inv_l in H as (t & ts' & Hl & Hts & ->).
    cbn [map_each]. unfold bind at 1. rewrite (entry_of_task l w t Hl).
    unfold bind at 1. rewrite (IH ts').
    + unfold ret. cbn [set_heap heap length seq map].
      rewrite length_app. cbn [length]. rewrite Nat.add_1_r.
      unfold set_heap. cbn [heap this now timers nextHandle log].
      by rewrite <- app_assoc.
    + eapply Forall2_impl; [exact Hts|]. cbn. intros l' t' Hl'.
      by apply lookup_app_l_Some.
Qed.

Lemma task_objects_values w ts :
  task_objects w ts ->
  Forall2 (fun l t => heap w !! l = Some (TaskObj t)) (JsMap.values (tasks (this w))) ts.
Proof.
  unfold task_objects, JsMap.values. intros H.
  induction H as [|[k l] t m ts [Hl _] _ IH]; cbn; by constructor.
Qed.

Lemma getTasks_eq b w ts :
  task_objects w ts ->
  getTasks b w =
    (Ok (getTasks_array b w ts),
     set_heap (heap w ++ getTasks_objects b w ts) w).
Proof.
  intros Hts. pose proof (task_objects_values w ts Hts) as Hvs.
  pose proof (Forall2_length _ _ _ Hvs) as Hlen.
  unfold getTasks. unfold bind at 1. unfold tasks_values at 1. destruct b.
  - unfold bind at 1. rewrite (map_each_entry_of _ ts w Hvs).
    unfold alloc, set_heap, getTasks_array, getTasks_objects.
    cbn [heap this now timers nextHandle log].
    by rewrite length_app, length_map, <- app_assoc, Hlen.
  - unfold bind at 1. unfold alloc at 1. unfold bind at 1.
    rewrite (map_each_entry_of _ ts).
    + unfold alloc, set_heap, getTasks_array, getTasks_objects.
      cbn [heap this now timers nextHandle log].
      rewrite !length_app, length_map. cbn [length].
      rewrite <- !app_assoc, Hlen. do 3 f_equal; [lia|].
      do 2 f_equal. by rewrite Nat.add_1_r.
    + eapply Forall2_impl; [exact Hvs|]. cbn. intros l t Hl.
      by apply lookup_app_l_Some.
Qed.

Lemma read_entries_seq h n ts ext :
  length h = n ->
  read_all (h ++ map entry_obj ts ++ ext) (seq n (length ts))
  = Some (map (fun t => (id t, targetTime t)) ts).
Proof.
  revert h n. induction ts as [|t ts IH]; intros h n Hn; [done|].
  cbn [length seq map read_all app].
  unfold read_entry at 1. subst n. rewrite list_lookup_middle by done.
  cbn [entry_obj app].
  specialize (IH (h ++ [entry_obj t]) (S (length h))).
  rewrite <- app_assoc in IH. cbn [app] in IH. rewrite IH; [done|].
  rewrite length_app. cbn. lia.
Qed.

Lemma entries_seq h n ts ext :
  length h = n ->
  Forall2 (fun e t => (n <= e)%nat /\
                      (h ++ map entry_obj ts ++ ext) !! e = Some (entry_obj t))
          (seq n (length ts)) ts.
Proof.
  revert h n. induction ts as [|t ts IH]; intros h n Hn; [constructor|].
  cbn [length seq map app]. constructor.
  - split; [lia|]. subst n. by rewrite list_lookup_middle.
  - specialize (IH (h ++ [entry_obj t]) (S n)).
    rewrite <- app_assoc in IH. cbn [app] in IH.
    eapply Forall2_impl; [apply IH; rewrite length_app; cbn; lia|].
    cbn beta. intros e t' [? ?]. split; [lia | done].
Qed.

(** The manager sees nothing of a change to the store that keeps the
    objects it had. *)
Lemma registry_frame w h' :
  wf w ->
  (forall l, (l < length (heap w))%nat -> h' !! l = heap w !! l) ->
  registry (set_heap h' w) = registry w.
Proof.
  intros Hwf Hsame. unfold registry. cbn [set_heap heap this timers].
  do 2 f_equal. apply map_ext_in. intros [k l] Hin. cbn [fst snd]. f_equal.
  apply Hsame. apply list_elem_of_In, (wf_tasks w Hwf) in Hin as (t & Hl & _).
  by apply lookup_lt_Some in Hl.
Qed.

(** ** Timers and their tasks *)

Lemma lookup_with_timeoutId_inv (h : list JsObj) x (l l' : nat) t' :
  alter (with_timeoutId x) l h !! l' = Some (TaskObj t') ->
  exists t, h !! l' = Some (TaskObj t) /\ id t' = id t /\ callback t' = callback t /\
            targetTime t' = targetTime t /\
            timeoutId t' = if decide (l = l') then x else timeoutId t.
Proof.
  destruct (decide (l = l')) as [->|Hne].
  - rewrite list_lookup_alter_eq. destruct (h !! l') as [[t| |]|]; cbn; try done.
    intros [= <-]. by exists t.
  - rewrite list_lookup_alter_ne by done. intros H. by exists t'.
Qed.

Lemma lookup_with_targetTime_inv (h : list JsObj) d (l l' : nat) t' :
  alter (with_targetTime d) l h !! l' = Some (TaskObj t') ->
  exists t, h !! l' = Some (TaskObj t) /\ id t' = id t /\ callback t' = callback t /\
            timeoutId t' = timeoutId t /\
            targetTime t' = if decide (l = l') then d else targetTime t.
Proof.
  destruct (decide (l = l')) as [->|Hne].
  - rewrite list_lookup_alter_eq. destruct (h !! l') as [[t| |]|]; cbn; try done.
    intros [= <-]. by exists t.
  - rewrite list_lookup_alter_ne by done. intros H. by exists t'.
Qed.

Lemma lookup_app_not_task (h ext : list JsObj) (l : nat) t :
  Forall not_task ext -> (h ++ ext) !! l = Some (TaskObj t) -> h !! l = Some (TaskObj t).
Proof.
  intros Hext [H|[_ H]]%lookup_app_Some; [done|].
  apply list_elem_of_lookup_2 in H. rewrite Forall_forall in Hext.
  by destruct (Hext _ H t).
Qed.

Lemma lookup_app_new_task (h : list JsObj) t0 (l : nat) t :
  (h ++ [TaskObj t0]) !! l = Some (TaskObj t) ->
  h !! l = Some (TaskObj t) \/ (l = length h /\ t = t0).
Proof.
  intros [H|[Hge H]]%lookup_app_Some; [by left|].
  apply list_lookup_singleton_Some in H as [Hl [= <-]]. right. split; [lia | done].
Qed.

Lemma twf_initial t0 : timers_wf (initial t0).
Proof.
  split; cbn.
  - intros tm H. by apply elem_of_nil in H.
  - intros l t h H. by rewrite lookup_nil in H.
  - intros tm l t H. by apply elem_of_nil in H.
Qed.

Lemma twf_disarmed h w : timers_wf w -> timers_wf (disarmed h w).
Proof.
  intros []. destruct h as [h|]; [|done]. split; cbn; try done.
  - intros tm [_ H]%list_elem_of_filter. auto.
  - intros tm l t [_ H]%list_elem_of_filter. eauto.
Qed.

Lemma twf_retimed l d w : timers_wf w -> timers_wf (retimed l d w).
Proof.
  intros []. split; cbn; try done.
  - intros l' t' h (t & Hl & _ & _ & Ht & _)%lookup_with_targetTime_inv Hh.
    rewrite Ht in Hh. eauto.
  - intros tm l' t' Htm (t & Hl & _ & _ & Ht & _)%lookup_with_targetTime_inv Hh.
    rewrite Ht in Hh. eauto.
Qed.

Lemma twf_armed l d w : timers_wf w -> timers_wf (armed l d w).
Proof.
  intros []. split; cbn.
  - intros tm [H|H]%elem_of_app.
    + apply twf_handles0 in H. lia.
    + apply list_elem_of_singleton in H as ->. cbn. lia.
  - intros l' t' h (t & Hl & _ & _ & _ & Ht)%lookup_with_timeoutId_inv Hh.
    rewrite Ht in Hh. destruct (decide (l = l')).
    + injection Hh as <-. lia.
    + apply (twf_timeoutIds0 l' t h) in Hh; [lia | done].
  - intros tm l' t' Htm (t & Hl & _ & _ & _ & Ht)%lookup_with_timeoutId_inv Hh.
    rewrite Ht in Hh. apply elem_of_app in Htm as [Htm|Htm].
    + destruct (decide (l = l')).
      * injection Hh as Hh. apply twf_handles0 in Htm. lia.
      * eauto.
    + apply list_elem_of_singleton in Htm as ->. cbn in *.
      destruct (decide (l = l')); [done|].
      apply (twf_timeoutIds0 l' t _ Hl) in Hh. lia.
Qed.

Lemma twf_deleted i w : timers_wf w -> timers_wf (deleted i w).
Proof. by intros []. Qed.

Lemma twf_called i cb w : timers_wf w -> timers_wf (called i cb w).
Proof. by intros []. Qed.

Lemma twf_set_now n w : timers_wf w -> timers_wf (set_now n w).
Proof. by intros []. Qed.

Lemma twf_registered d cb w : timers_wf w -> timers_wf (registered d cb w).
Proof.
  intros []. split; cbn; try done.
  - intros l t h [Hl|[_ ->]]%lookup_app_new_task Hh; [eauto | done].
  - intros tm l t Htm [Hl|[_ ->]]%lookup_app_new_task Hh; [eauto | done].
Qed.

Lemma twf_heap_app ext w :
  Forall not_task ext -> timers_wf w -> timers_wf (set_heap (heap w ++ ext) w).
Proof.
  intros Hext []. split; cbn; try done.
  - intros l t h Hl%lookup_app_not_task Hh; eauto.
  - intros tm l t Htm Hl%lookup_app_not_task Hh; eauto.
Qed.

Lemma executes_twf i w r w' : timers_wf w -> executes i w r w' -> timers_wf w'.
Proof.
  intros Htw. destruct 1; [done | by apply twf_deleted, twf_called | by apply twf_called].
Qed.

Lemma does_twf b op w r w' : timers_wf w -> does b op w r w' -> timers_wf w'.
Proof.
  intros Htw.
  destruct 1 as [d cb w Ha|d cb w r w' Hr He|j w l t Hj Hl|j w Hj
                |j d w l t Hj Hl Ha|j d w l t r w' Hj Hl Hr He|j d w Hj
                |w r ext Hext|ms w|h w tm t r w' Hh Hl He|h w Hh|j w r w' He].
  - by apply twf_armed, twf_registered.
  - apply (executes_twf _ _ _ _ (twf_registered d cb w Htw) He).
  - by apply twf_deleted, twf_disarmed.
  - done.
  - by apply twf_armed, twf_retimed, twf_disarmed.
  - apply (executes_twf _ _ _ _ (twf_retimed l d _ (twf_disarmed (timeoutId t) w Htw)) He).
  - done.
  - by apply twf_heap_app.
  - by apply twf_set_now.
  - apply (executes_twf _ _ _ _ (twf_disarmed (Some h) w Htw) He).
  - done.
  - by apply (executes_twf _ _ _ _ Htw He).
Qed.

Lemma twf_run b ops w : wf w -> timers_wf w -> timers_wf (run b ops w).2.
Proof.
  revert w. induction ops as [|op ops IH]; intros w Hwf Htw; [done|].
  rewrite run_cons. cbn [snd]. apply IH; [by apply wf_step|].
  by apply (does_twf b op w _ _ Htw (step_does b op w Hwf)).
Qed.

Lemma reachable_twf b w : reachable b w -> timers_wf w.
Proof. intros (t0 & ops & <-). apply twf_run; [apply wf_initial | apply twf_initial]. Qed.

Lemma owned_initial t0 : owned (initial t0).
Proof. split; cbn; [intros tm H; by apply elem_of_nil in H | done]. Qed.

Lemma owned_but_disarmed i l t w :
  wf w -> timers_wf w -> owned w ->
  JsMap.get i (tasks (this w)) = Some l ->
  heap w !! l = Some (TaskObj t) ->
  owned_but i (disarmed (timeoutId t) w).
Proof.
  intros Hwf Htw [Ht Hk] Hget Hl. destruct (timeoutId t) as [h|] eqn:Hh; cbn.
  - split; cbn.
    + intros tm [_ H]%list_elem_of_filter. auto.
    + intros k l' Hne Hk'. destruct (Hk k l' Hk') as [(tm & Htm & Hl')|He]; [|by right].
      left. exists tm. split; [|done]. apply list_elem_of_filter. split; [|done].
      intros Heq. rewrite <- Heq in Hh.
      pose proof (twf_owner w Htw tm l t Htm Hl Hh) as Hsame.
      destruct (wf_get w k l' Hwf Hk') as (t' & Hlt' & Hid').
      destruct (wf_get w i l Hwf Hget) as (t'' & Hlt'' & Hid'').
      congruence.
    + intros l' tm Hget' [Hne Htm]%list_elem_of_filter Heq.
      destruct (Ht tm Htm) as (t' & Hl' & Hh' & _). congruence.
  - split; cbn; [done | auto |].
    intros l' tm Hget' Htm Heq.
    destruct (Ht tm Htm) as (t' & Hl' & Hh' & _). congruence.
Qed.

Lemma owned_but_retimed i l d w : owned_but i w -> owned_but i (retimed l d w).
Proof.
  intros [Ht Hk Hn]. split; cbn; [|done|done].
  intros tm Htm. destruct (Ht tm Htm) as (t & Hl & Hh & Hg).
  destruct (decide (l = t_task tm)) as [->|Hne].
  - eexists. rewrite list_lookup_alter_eq, Hl. cbn. done.
  - exists t. by rewrite list_lookup_alter_ne.
Qed.

Lemma owned_but_registered d cb w :
  wf w -> owned w -> owned_but (nextTaskId (this w)) (registered d cb w).
Proof.
  intros Hwf [Ht Hk]. split; cbn.
  - intros tm Htm. destruct (Ht tm Htm) as (t & Hl & Hh & Hg). exists t.
    split; [by apply lookup_app_l_Some|]. split; [done|].
    rewrite JsMapFacts.get_set_ne; [done|].
    apply JsMapFacts.get_Some_key, (wf_keys w Hwf) in Hg. lia.
  - intros k l Hne Hg. rewrite JsMapFacts.get_set_ne in Hg by done. auto.
  - intros l tm Hg Htm Heq. rewrite JsMapFacts.get_set_eq in Hg. injection Hg as <-.
    destruct (Ht tm Htm) as (t & Hl & _). apply lookup_lt_Some in Hl. lia.
Qed.

Lemma owned_armed i l t dl w :
  timers_wf w -> owned_but i w ->
  JsMap.get i (tasks (this w)) = Some l ->
  heap w !! l = Some (TaskObj t) -> id t = i ->
  owned (armed l dl w).
Proof.
  intros Htw [Ht Hk Hn] Hget Hl Hid. split; cbn.
  - intros tm [Htm|Htm]%elem_of_app.
    + destruct (Ht tm Htm) as (t' & Hl' & Hh' & Hg'). exists t'.
      rewrite list_lookup_alter_ne; [done|].
      intros Heq. by apply (Hn l tm).
    + apply list_elem_of_singleton in Htm as ->. cbn.
      eexists. rewrite list_lookup_alter_eq, Hl. cbn. by rewrite Hid.
  - intros k l' Hg. destruct (decide (k = i)) as [->|Hne].
    + left. exists (mkTimer (nextHandle w) l dl).
      split; [apply elem_of_app; right; by apply list_elem_of_singleton|].
      cbn. congruence.
    + destruct (Hk k l' Hne Hg) as [(tm & Htm & Hl')|He]; [|by right].
      left. exists tm. split; [|done]. apply elem_of_app. by left.
Qed.

Lemma owned_deleted i w : owned_but i w -> owned (deleted i w).
Proof.
  intros [Ht Hk Hn]. split; cbn.
  - intros tm Htm. destruct (Ht tm Htm) as (t & Hl & Hh & Hg). exists t.
    split; [done|]. split; [done|].
    rewrite JsMapFacts.get_delete_ne; [done|].
    intros ->. by apply (Hn _ tm Hg).
  - intros k l Hg. destruct (decide (k = i)) as [->|Hne].
    + by rewrite JsMapFacts.get_delete_eq in Hg.
    + rewrite JsMapFacts.get_delete_ne in Hg by done. auto.
Qed.

Lemma owned_but_called i j cb w : owned_but i w -> owned_but i (called j cb w).
Proof.
  intros [Ht Hk Hn]. split; cbn; [done| |done].
  intros k l Hne Hg. destruct (Hk k l Hne Hg) as [?|(e & He & ?)]; [by left|].
  right. exists e. split; [|done]. apply elem_of_app. by left.
Qed.

Lemma owned_called_raise i cb w :
  owned_but i w -> cb_throws cb = true -> owned (called i cb w).
Proof.
  intros [Ht Hk Hn] Hc. split; cbn; [done|].
  intros k l Hg. destruct (decide (k = i)) as [->|Hne].
  - right. eexists. split; [apply elem_of_app; right; by apply list_elem_of_singleton|].
    done.
  - destruct (Hk k l Hne Hg) as [?|(e & He & ?)]; [by left|].
    right. exists e. split; [|done]. apply elem_of_app. by left.
Qed.

Lemma owned_but_absent i w :
  owned_but i w -> JsMap.get i (tasks (this w)) = None -> owned w.
Proof.
  intros [Ht Hk Hn] Hg. split; [done|].
  intros k l Hg'. apply Hk; [congruence | done].
Qed.

Lemma executes_owned i w r w' : owned_but i w -> executes i w r w' -> owned w'.
Proof.
  intros Hob. destruct 1 as [i w Hi|i w l t Hi Hl Hc|i w l t Hi Hl Hc].
  - by apply (owned_but_absent i).
  - by apply owned_deleted, owned_but_called.
  - by apply owned_called_raise.
Qed.

Lemma owned_heap_app ext w : owned w -> owned (set_heap (heap w ++ ext) w).
Proof.
  intros [Ht Hk]. split; cbn; [|done].
  intros tm Htm. destruct (Ht tm Htm) as (t & Hl & ?). exists t.
  split; [by apply lookup_app_l_Some | done].
Qed.

Lemma does_owned b op w r w' :
  wf w -> timers_wf w -> owned w -> is_execute op = false ->
  does b op w r w' -> owned w'.
Proof.
  intros Hwf Htw Hown Hop.
  destruct 1 as [d cb w Ha|d cb w r w' Hr He|j w l t Hj Hl|j w Hj
                |j d w l t Hj Hl Ha|j d w l t r w' Hj Hl Hr He|j d w Hj
                |w r ext Hext|ms w|h w tm t r w' Hh Hl He|h w Hh|j w r w' He].
  - eapply (owned_armed (nextTaskId (this w))).
    + by apply twf_registered.
    + by apply owned_but_registered.
    + cbn. apply JsMapFacts.get_set_eq.
    + apply registered_lookup.
    + done.
  - by apply (executes_owned _ _ _ _ (owned_but_registered d cb w Hwf Hown) He).
  - by apply owned_deleted, (owned_but_disarmed j l t).
  - done.
  - destruct (wf_get w j l Hwf Hj) as (t' & Hl' & Hid).
    assert (t' = t) as -> by congruence.
    eapply (owned_armed j).
    + by apply twf_retimed, twf_disarmed.
    + by apply owned_but_retimed, (owned_but_disarmed j l t).
    + by destruct (timeoutId t).
    + by apply retimed_lookup.
    + done.
  - apply (executes_owned j _ _ _ (owned_but_retimed j l d _
             (owned_but_disarmed j l t w Hwf Htw Hown Hj Hl)) He).
  - done.
  - by apply owned_heap_app.
  - by destruct Hown.
  - destruct (held_elem _ _ _ Hh) as [Htm Hhd].
    destruct (own_timer w Hown tm Htm) as (t' & Hl' & Hh' & Hg').
    assert (t' = t) as -> by congruence. rewrite Hhd in Hh'.
    rewrite <- Hh' in He.
    apply (executes_owned (id t) _ _ _
             (owned_but_disarmed (id t) (t_task tm) t w Hwf Htw Hown Hg' Hl) He).
  - done.
  - done.
Qed.

Lemma owned_run b ops w :
  wf w -> timers_wf w -> owned w -> by_timers ops -> owned (run b ops w).2.
Proof.
  revert w. induction ops as [|op ops IH]; intros w Hwf Htw Hown Hops; [done|].
  apply Forall_cons in Hops as [Hop Hops].
  rewrite run_cons. cbn [snd].
  pose proof (step_does b op w Hwf) as Hd.
  apply IH; [by apply wf_step | by apply (does_twf b op w _ _ Htw Hd) | | done].
  by apply (does_owned b op w _ _ Hwf Htw Hown Hop Hd).
Qed.

(** ** Scheduling and rescheduling *)

Lemma createTask_Src d cb w :
  createTask Src d cb w =
    if js_gt0 (timeUntil d w)
    then (Ok (nextTaskId (this w)),
          armed (length (heap w)) (timeUntil d w) (registered d cb w))
    else (if cb_throws cb
          then Raise (CallbackError cb)
          else Ok (nextTaskId (this w)),
          ran (nextTaskId (this w)) cb (registered d cb w)).
Proof.
  rewrite createTask_unfold.
  rewrite (scheduleTask_Src _ _ _ (registered_lookup d cb w)). cbn [targetTime id].
  rewrite timeUntil_registered. destruct (js_gt0 (timeUntil d w)); [done|].
  rewrite (executeTask_present (nextTaskId (this w)) (registered d cb w)
             (length (heap w)) _
             (JsMapFacts.get_set_eq _ _ _) (registered_lookup d cb w)).
  unfold ran. cbn [callback]. by destruct (cb_throws cb).
Qed.

Lemma rescheduleTask_Src i d w l t :
  JsMap.get i (tasks (this w)) = Some l ->
  heap w !! l = Some (TaskObj t) ->
  id t = i ->
  rescheduleTask Src i d w =
    if js_gt0 (timeUntil d w)
    then (Ok true, armed l (timeUntil d w) (retimed l d (disarmed (timeoutId t) w)))
    else (if cb_throws (callback t)
          then Raise (CallbackError (callback t))
          else Ok true,
          ran i (callback t) (retimed l d (disarmed (timeoutId t) w))).
Proof.
  intros Hget Hl Hid. rewrite (rescheduleTask_unfold Src i d w l t Hget Hl).
  rewrite (scheduleTask_Src _ _ _ (retimed_lookup l d (timeoutId t) w t Hl)).
  cbn [targetTime id]. rewrite timeUntil_retimed.
  destruct (js_gt0 (timeUntil d w)); [done|]. rewrite Hid.
  assert (Hget' : JsMap.get i (tasks (this (retimed l d (disarmed (timeoutId t) w))))
                  = Some l) by (by destruct (timeoutId t)).
  rewrite (executeTask_present i _ l _ Hget' (retimed_lookup l d (timeoutId t) w t Hl)).
  unfold ran. cbn [callback]. by destruct (cb_throws (callback t)).
Qed.

Lemma delay_for_due d w : js_gt0 (timeUntil d w) = false -> delay_for d w = Num 0.
Proof. unfold delay_for. by intros ->. Qed.

(** C2 (as amended): in [Esm], for every [targetTime], [createTask] takes
    one timer for the new task and calls no callback; the delay of the timer
    is the time until [targetTime] when that is positive, and 0 otherwise
    (a time that is now or past, or an invalid date).  The same holds for
    [rescheduleTask] on a task that is in the map.  In [Src] the same holds
    when the time until [targetTime] is positive; otherwise [Src] takes no
    timer and calls the callback before [createTask] or [rescheduleTask]
    returns. *)
Theorem scheduling_takes_a_timer
    (w : World) (d : Date) (cb : Callback) (i : Z) (l : loc) (t : Task) :
  (createTask Esm d cb w
   = (Ok (nextTaskId (this w)),
      armed (length (heap w)) (delay_for d w) (registered d cb w)) /\
   log (createTask Esm d cb w).2 = log w /\
   timers (createTask Esm d cb w).2
   = timers w ++ [mkTimer (nextHandle w) (length (heap w)) (delay_for d w)]) /\
  (js_gt0 (timeUntil d w) = false -> delay_for d w = Num 0) /\
  (js_gt0 (timeUntil d w) = true -> delay_for d w = timeUntil d w) /\
  (JsMap.get i (tasks (this w)) = Some l ->
   heap w !! l = Some (TaskObj t) ->
   id t = i ->
   (rescheduleTask Esm i d w
    = (Ok true, armed l (delay_for d w) (retimed l d (disarmed (timeoutId t) w))) /\
    log (rescheduleTask Esm i d w).2 = log w /\
    timers (rescheduleTask Esm i d w).2
    = timers (disarmed (timeoutId t) w) ++ [mkTimer (nextHandle w) l (delay_for d w)]) /\
   (js_gt0 (timeUntil d w) = true ->
      rescheduleTask Src i d w = rescheduleTask Esm i d w) /\
   (js_gt0 (timeUntil d w) = false ->
      log (rescheduleTask Src i d w).2
      = log w ++ [mkEvent i (callback t) (JsMap.keys (tasks (this w)))] /\
      timers (rescheduleTask Src i d w).2 = timers (disarmed (timeoutId t) w))) /\
  (js_gt0 (timeUntil d w) = true -> createTask Src d cb w = createTask Esm d cb w) /\
  (js_gt0 (timeUntil d w) = false ->
     log (createTask Src d cb w).2
     = log w ++ [mkEvent (nextTaskId (this w)) cb
                   (JsMap.keys (JsMap.set (nextTaskId (this w)) (length (heap w))
                                           (tasks (this w))))] /\
     timers (createTask Src d cb w).2 = timers w).
Proof.
  rewrite createTask_Esm, createTask_Src.
  split; [done|]. split; [apply delay_for_due|]. split; [apply delay_for_arms|].
  split; [|split].
  - intros Hget Hl Hid.
    rewrite (rescheduleTask_Esm i d w l t Hget Hl),
            (rescheduleTask_Src i d w l t Hget Hl Hid).
    assert (Hd : delay_for d (retimed l d (disarmed (timeoutId t) w)) = delay_for d w)
      by (by destruct (timeoutId t)).
    cbv zeta. rewrite Hd. split; [|split].
    + split; [done|]. split; by destruct (timeoutId t).
    + intros Hgt. by rewrite Hgt, delay_for_arms.
    + intros ->. cbn [snd]. unfold ran.
      destruct (cb_throws (callback t)); split; by destruct (timeoutId t).
  - intros Hgt. by rewrite Hgt, delay_for_arms.
  - intros ->. cbn [snd]. unfold ran. by destruct (cb_throws cb).
Qed.

(** A task that was due an hour ago: [Esm] takes a timer with delay 0 and
    calls nothing. *)
Lemma scheduling_takes_a_timer_witness :
  delay_for (DateMs (-3600000)) (initial 0) = Num 0
  /\ log (rescheduleTask Esm 1 (DateMs (-5))
            (run Esm [CreateTask (DateMs 10) cb_ok] (initial 0)).2).2 = [].
Proof.
  split.
  - apply (proj1 (proj2 (scheduling_takes_a_timer (initial 0) (DateMs (-3600000)) cb_ok
                           1 0%nat (mkTask 1 (DateMs 10) cb_ok (Some 1%nat))))).
    reflexivity.
  - apply (proj1 (proj2 (proj1 (proj1 (proj2 (proj2 (proj2
             (scheduling_takes_a_timer
                (run Esm [CreateTask (DateMs 10) cb_ok] (initial 0)).2
                (DateMs (-5)) cb_ok 1 0%nat (mkTask 1 (DateMs 10) cb_ok (Some 1%nat))))))
             eq_refl eq_refl eq_refl)))).
Defined.

(** In [Src] a task created with a time in the past has its callback called
    before [createTask] returns. *)
Lemma createTask_calls_at_once :
  ~ (forall (b : Build) (w : World) (d : Date) (cb : Callback),
       reachable b w -> log (createTask b d cb w).2 = log w).
Proof.
  intros H. specialize (H Src (initial 0) (DateMs (-1000)) cb_ok).
  discriminate H. by exists 0, [].
Qed.

Lemma held_app h ts1 ts2 :
  held h (ts1 ++ ts2) = match held h ts1 with
                        | Some t => Some t
                        | None => held h ts2
                        end.
Proof.
  induction ts1 as [|t ts1 IH]; cbn; [done|].
  by destruct (Nat.eqb (t_handle t) h).
Qed.

Lemma held_new h l dl ts :
  (forall tm, tm ∈ ts -> (t_handle tm < h)%nat) ->
  held h (ts ++ [mkTimer h l dl]) = Some (mkTimer h l dl).
Proof.
  intros Hts. rewrite held_app.
  replace (held h ts) with (@None Timer).
  - cbn. by rewrite Nat.eqb_refl.
  - symmetry. apply held_None. intros tm Htm%Hts. lia.
Qed.

Lemma held_old h h' l dl ts :
  h <> h' -> held h (filter (fun t => t_handle t <> h) ts ++ [mkTimer h' l dl]) = None.
Proof.
  intros Hne. rewrite held_app, held_disarmed. cbn.
  destruct (Nat.eqb_spec h' h); [congruence | done].
Qed.

Lemma retimed_armed_heap (l : nat) d x (hp : list JsObj) t :
  hp !! l = Some (TaskObj t) ->
  alter (with_timeoutId x) l (alter (with_targetTime d) l hp)
  = <[l := TaskObj (mkTask (id t) d (callback t) x)]> hp.
Proof.
  intros Hl. apply list_eq. intros j. destruct (decide (j = l)) as [->|Hne].
  - rewrite !list_lookup_alter_eq, Hl.
    rewrite list_lookup_insert_eq by (by apply lookup_lt_Some in Hl). done.
  - rewrite !list_lookup_alter_ne by done. by rewrite list_lookup_insert_ne.
Qed.

Lemma rescheduleTask_arms b i d w l t :
  JsMap.get i (tasks (this w)) = Some l ->
  heap w !! l = Some (TaskObj t) ->
  arms b d w ->
  rescheduleTask b i d w
  = (Ok true, armed l (delay_for d w) (retimed l d (disarmed (timeoutId t) w))).
Proof.
  intros Hget Hl Ha. rewrite (rescheduleTask_unfold b i d w l t Hget Hl).
  rewrite (scheduleTask_arms b _ _ _ (retimed_lookup l d (timeoutId t) w t Hl));
    [|by destruct (timeoutId t)].
  cbn [targetTime]. by destruct (timeoutId t).
Qed.

(** C6 (as amended): in a world a run has reached, [rescheduleTask(i, d)]
    for an identifier that is not in the map returns [false].  For a task in
    the map it clears the timer of the task, sets [targetTime] to [d] and
    runs [_scheduleTask], as [createTask] does.  When that takes a timer
    (always in [Esm]; in [Src] when [d] is ahead), the call returns [true],
    the old handle is no longer held, the new timer is held for the same
    task object under the same identifier, and the map is the same after
    each of the three statements: the task is in it all along.  When [Src]
    finds the task due, it calls the callback within [rescheduleTask], and
    the entry is deleted when the callback returns. *)
Theorem rescheduleTask_correct (b : Build) (w : World) (i : Z) (d : Date) :
  reachable b w ->
  (JsMap.get i (tasks (this w)) = None -> rescheduleTask b i d w = (Ok false, w)) /\
  (forall l, JsMap.get i (tasks (this w)) = Some l ->
     exists t, heap w !! l = Some (TaskObj t) /\ id t = i /\
       rescheduleTask b i d w
       = match _scheduleTask b l (retimed l d (disarmed (timeoutId t) w)) with
         | (Ok _, w') => (Ok true, w')
         | (Raise e, w') => (Raise e, w')
         end /\
       (forall cb,
          createTask b d cb w
          = match _scheduleTask b (length (heap w)) (registered d cb w) with
            | (Ok _, w') => (Ok (nextTaskId (this w)), w')
            | (Raise e, w') => (Raise e, w')
            end) /\
       tasks (this (disarmed (timeoutId t) w)) = tasks (this w) /\
       tasks (this (retimed l d (disarmed (timeoutId t) w))) = tasks (this w) /\
       (arms b d w ->
          rescheduleTask b i d w
          = (Ok true, armed l (delay_for d w) (retimed l d (disarmed (timeoutId t) w))) /\
          tasks (this (rescheduleTask b i d w).2) = tasks (this w) /\
          JsMap.get i (tasks (this (rescheduleTask b i d w).2)) = Some l /\
          heap (rescheduleTask b i d w).2 !! l
          = Some (TaskObj (mkTask i d (callback t) (Some (nextHandle w)))) /\
          held (nextHandle w) (timers (rescheduleTask b i d w).2)
          = Some (mkTimer (nextHandle w) l (delay_for d w)) /\
          (forall h, timeoutId t = Some h ->
             held h (timers (rescheduleTask b i d w).2) = None)) /\
       (runs_now b d w ->
          rescheduleTask b i d w
          = (if cb_throws (callback t)
             then Raise (CallbackError (callback t))
             else Ok true,
             ran i (callback t) (retimed l d (disarmed (timeoutId t) w))) /\
          (cb_throws (callback t) = false ->
             JsMap.get i (tasks (this (rescheduleTask b i d w).2)) = None))).
Proof.
  intros Hr. pose proof (reachable_wf b w Hr) as Hwf.
  pose proof (reachable_twf b w Hr) as Htw.
  split; [apply rescheduleTask_absent|].
  intros l Hget. destruct (wf_get w i l Hwf Hget) as (t & Hl & Hid).
  exists t. split; [done|]. split; [done|].
  split; [by apply rescheduleTask_unfold|].
  split; [intros cb; apply createTask_unfold|].
  split; [by destruct (timeoutId t)|]. split; [by destruct (timeoutId t)|].
  pose proof (retimed_lookup l d (timeoutId t) w t Hl) as Hl'.
  assert (Hd : delay_for d (retimed l d (disarmed (timeoutId t) w)) = delay_for d w)
    by (by destruct (timeoutId t)).
  assert (Hx : nextHandle (retimed l d (disarmed (timeoutId t) w)) = nextHandle w)
    by (by destruct (timeoutId t)).
  split.
  - intros Ha. rewrite (rescheduleTask_arms b i d w l t Hget Hl Ha).
    cbn [fst snd]. split; [done|].
    split; [by destruct (timeoutId t)|]. split; [by destruct (timeoutId t)|].
    split; [|split].
    + unfold armed. cbn [heap]. rewrite list_lookup_alter_eq, Hl'.
      cbn [fmap option_fmap option_map with_timeoutId id targetTime callback].
      by rewrite Hx, Hid.
    + unfold armed. cbn [timers]. rewrite Hx.
      apply held_new. intros tm Htm. apply (twf_handles w Htw).
      destruct (timeoutId t); cbn in Htm; [|done].
      by apply list_elem_of_filter in Htm as [_ Htm].
    + intros h Hh. unfold armed. cbn [timers]. rewrite Hx, Hh.
      cbn [timers retimed disarmed set_timers set_heap].
      apply held_old. apply (twf_timeoutIds w Htw l t h Hl) in Hh. lia.
  - intros [-> Hgt]. rewrite (rescheduleTask_Src i d w l t Hget Hl Hid), Hgt.
    split; [done|]. intros Hc. cbn [snd]. unfold ran. rewrite Hc. cbn.
    apply JsMapFacts.get_delete_eq.
Qed.

(** Task 1, waiting under handle 1, is given a new time: handle 2 is held
    for it and handle 1 is not. *)
Lemma rescheduleTask_correct_witness :
  rescheduleTask Esm 9 (DateMs 5) (run Esm [CreateTask (DateMs 10) cb_ok] (initial 0)).2
  = (Ok false, (run Esm [CreateTask (DateMs 10) cb_ok] (initial 0)).2)
  /\ exists t,
       heap (run Esm [CreateTask (DateMs 10) cb_ok] (initial 0)).2 !! 0%nat
       = Some (TaskObj t) /\ id t = 1.
Proof.
  assert (Hr : reachable Esm (run Esm [CreateTask (DateMs 10) cb_ok] (initial 0)).2)
    by (by exists 0, [CreateTask (DateMs 10) cb_ok]).
  split.
  - apply (proj1 (rescheduleTask_correct Esm _ 9 (DateMs 5) Hr)). reflexivity.
  - destruct (proj2 (rescheduleTask_correct Esm _ 1 (DateMs 5) Hr) 0%nat eq_refl)
      as (t & Hl & Hid & _).
    by exists t.
Defined.

(** In [Src] a task rescheduled to a time in the past is run within
    [rescheduleTask] and is not in the map when [true] is returned. *)
Lemma rescheduled_task_gone :
  ~ (forall (b : Build) (w : World) (i : Z) (d : Date),
       reachable b w ->
       (rescheduleTask b i d w).1 = Ok true ->
       JsMap.get i (tasks (this (rescheduleTask b i d w).2)) <> None).
Proof.
  intros H.
  apply (H Src (run Src [CreateTask (DateMs 1000) cb_ok] (initial 0)).2 1 (DateMs (-1))).
  - by exists 0, [CreateTask (DateMs 1000) cb_ok].
  - reflexivity.
  - reflexivity.
Qed.

(** ** What [rescheduleTask] leaves alone *)

(** C10 (as amended): in a world a run has reached, a [rescheduleTask(i, d)]
    that returns [false] leaves the whole world as it was.  One that takes a
    timer (always in [Esm]; in [Src] when [d] is ahead) returns [true] and
    changes the task object of [i] only, and of it only [targetTime] and
    [timeoutId]: the map (keys, order and values) and [nextTaskId] are the
    same, every other object of the store is the same, and so is every
    timer held for another task; no callback is called.  (In [Src] a task
    that is due is run instead, and its entry is deleted when the callback
    returns.) *)
Theorem rescheduleTask_frame (b : Build) (w : World) (i : Z) (d : Date) :
  reachable b w ->
  ((rescheduleTask b i d w).1 = Ok false -> (rescheduleTask b i d w).2 = w) /\
  (forall l t,
     JsMap.get i (tasks (this w)) = Some l ->
     heap w !! l = Some (TaskObj t) ->
     arms b d w ->
     (rescheduleTask b i d w).1 = Ok true /\
     this (rescheduleTask b i d w).2 = this w /\
     heap (rescheduleTask b i d w).2
     = <[l := TaskObj (mkTask (id t) d (callback t) (Some (nextHandle w)))]> (heap w) /\
     (forall l', l' <> l -> heap (rescheduleTask b i d w).2 !! l' = heap w !! l') /\
     (forall k l', k <> i -> JsMap.get k (tasks (this w)) = Some l' ->
        heap (rescheduleTask b i d w).2 !! l' = heap w !! l') /\
     (forall tm, t_task tm <> l ->
        tm ∈ timers (rescheduleTask b i d w).2 <-> tm ∈ timers w) /\
     log (rescheduleTask b i d w).2 = log w /\
     now (rescheduleTask b i d w).2 = now w).
Proof.
  intros Hr. pose proof (reachable_wf b w Hr) as Hwf.
  pose proof (reachable_twf b w Hr) as Htw. split.
  - destruct (JsMap.get i (tasks (this w))) as [l|] eqn:Hget.
    + destruct (wf_get w i l Hwf Hget) as (t & Hl & Hid).
      destruct (arms_or_runs_now b d w) as [Ha|[-> Hgt]].
      * rewrite (rescheduleTask_arms b i d w l t Hget Hl Ha). discriminate.
      * rewrite (rescheduleTask_Src i d w l t Hget Hl Hid), Hgt. cbn [fst].
        by destruct (cb_throws (callback t)).
    + by rewrite rescheduleTask_absent.
  - intros l t Hget Hl Ha.
    rewrite (rescheduleTask_arms b i d w l t Hget Hl Ha). cbn [fst snd].
    assert (Hheap : heap (armed l (delay_for d w) (retimed l d (disarmed (timeoutId t) w)))
                    = <[l := TaskObj (mkTask (id t) d (callback t) (Some (nextHandle w)))]>
                        (heap w)).
    { destruct (timeoutId t) eqn:Hto; cbn [armed retimed disarmed heap set_heap set_timers
                                          nextHandle];
        by apply retimed_armed_heap. }
    split; [done|]. split; [by destruct (timeoutId t)|]. split; [done|].
    rewrite Hheap. split; [|split; [|split; [|split]]].
    + intros l' Hne. by rewrite list_lookup_insert_ne.
    + intros k l' Hne Hk. rewrite list_lookup_insert_ne; [done|].
      intros <-. destruct (wf_get w k l Hwf Hk) as (t'' & Hl'' & Hid'').
      destruct (wf_get w i l Hwf Hget) as (t0 & Hl0 & Hid0). congruence.
    + intros tm Hne. unfold armed. cbn [timers]. rewrite elem_of_app, list_elem_of_singleton.
      split.
      * intros [Htm| ->]; [|done].
        destruct (timeoutId t); cbn in Htm; [|done].
        by apply list_elem_of_filter in Htm as [_ Htm].
      * intros Htm. left. destruct (timeoutId t) as [h|] eqn:Hto; cbn; [|done].
        apply list_elem_of_filter. split; [|done].
        intros Heq. rewrite <- Heq in Hto.
        by apply Hne, (twf_owner w Htw tm l t).
    + by destruct (timeoutId t).
    + by destruct (timeoutId t).
Qed.

(** Of two tasks the second is rescheduled: the object of the first, and
    the map, are what they were. *)
Lemma rescheduleTask_frame_witness :
  (rescheduleTask Esm 2 (DateMs 77)
     (run Esm [CreateTask (DateMs 10) cb_ok; CreateTask (DateMs 20) cb_bad] (initial 0)).2).1
  = Ok true
  /\ (rescheduleTask Esm 5 (DateMs 77)
     (run Esm [CreateTask (DateMs 10) cb_ok; CreateTask (DateMs 20) cb_bad] (initial 0)).2).2
  = (run Esm [CreateTask (DateMs 10) cb_ok; CreateTask (DateMs 20) cb_bad] (initial 0)).2.
Proof.
  assert (Hr : reachable Esm
                 (run Esm [CreateTask (DateMs 10) cb_ok; CreateTask (DateMs 20) cb_bad]
                      (initial 0)).2)
    by (by exists 0, [CreateTask (DateMs 10) cb_ok; CreateTask (DateMs 20) cb_bad]).
  split.
  - apply (proj1 (proj2 (rescheduleTask_frame Esm _ 2 (DateMs 77) Hr) 1%nat
                    (mkTask 2 (DateMs 20) cb_bad (Some 2%nat)) eq_refl eq_refl
                    (or_introl eq_refl))).
  - apply (proj1 (rescheduleTask_frame Esm _ 5 (DateMs 77) Hr)). reflexivity.
Defined.

(** In [Src], rescheduling a task to a time in the past returns [true] and
    the keys of the map are not what they were. *)
Lemma rescheduleTask_changes_keys :
  ~ (forall (b : Build) (w : World) (i : Z) (d : Date),
       reachable b w ->
       (rescheduleTask b i d w).1 = Ok true ->
       JsMap.keys (tasks (this (rescheduleTask b i d w).2)) = JsMap.keys (tasks (this w))).
Proof.
  intros H.
  specialize (H Src (run Src [CreateTask (DateMs 1000) cb_ok] (initial 0)).2 1 (DateMs 0)).
  discriminate H.
  - by exists 0, [CreateTask (DateMs 1000) cb_ok].
  - reflexivity.
Qed.

(** ** The tests of the repository *)

(** The tests of the repository, run on the model: the clock is at 0, and
    [jest.runAllTimers()] fires the timers that are held. *)
Example test_new_manager :
  tasks new_TaskManager = [] /\ nextTaskId new_TaskManager = 1.
Proof. done. Qed.

Example test_create_task (b : Build) :
  run b [CreateTask (DateMs 1000) cb_ok] (initial 0)
  = ([Ok (VNumber 1)],
     mkWorld [TaskObj (mkTask 1 (DateMs 1000) cb_ok (Some 1%nat))]
             (mkTaskManager [(1, 0%nat)] 2) 0
             [mkTimer 1%nat 0%nat (Num 1000)] 2%nat []).
Proof. by destruct b. Qed.

Example test_execute_task (b : Build) :
  let r := run b [CreateTask (DateMs (-1000)) cb_ok; Fire 1%nat] (initial 0) in
  length (log r.2) = 1%nat /\ tasks (this r.2) = [].
Proof. by destruct b. Qed.

Example test_cancel_task (b : Build) :
  let r := run b [CreateTask (DateMs 1000) cb_ok; CancelTask 1] (initial 0) in
  r.1 = [Ok (VNumber 1); Ok (VBool true)] /\ tasks (this r.2) = [] /\ timers r.2 = [].
Proof. by destruct b. Qed.

Example test_reschedule_task (b : Build) :
  let r := run b [CreateTask (DateMs 1000) cb_ok; RescheduleTask 1 (DateMs 2000)]
               (initial 0) in
  r.1 = [Ok (VNumber 1); Ok (VBool true)] /\
  nextHandle r.2 = 3%nat /\
  heap r.2 !! 0%nat = Some (TaskObj (mkTask 1 (DateMs 2000) cb_ok (Some 2%nat))).
Proof. by destruct b. Qed.

Example test_get_tasks (b : Build) :
  let w := (run b [CreateTask (DateMs 1000) cb_ok; CreateTask (DateMs 2000) cb_bad]
                (initial 0)).2 in
  exists a, (getTasks b w).1 = Ok a /\
    read_entries (heap (getTasks b w).2) a = Some [(1, DateMs 1000); (2, DateMs 2000)].
Proof.
  destruct b; [exists 4%nat | exists 5%nat]; split; vm_compute; reflexivity.
Qed.

(** * Further properties of the class *)

(** ** Exceptions *)



Lemma getTasks_reads b w ts :
  task_objects w ts ->
  exists a, (getTasks b w).1 = Ok a /\
    read_entries (heap (getTasks b w).2) a
    = Some (map (fun t => (id t, targetTime t)) ts).
Proof.
  intros Hts. rewrite (getTasks_eq b w ts Hts). cbn [fst snd].
  eexists. split; [done|]. cbn [set_heap heap]. unfold read_entries.
  destruct b; cbn [getTasks_array getTasks_objects].
  - rewrite app_assoc, list_lookup_middle by (by rewrite length_app, length_map).
    rewrite <- app_assoc. by apply read_entries_seq.
  - assert (Hlen : length (heap w ++ [ArrayObj (JsMap.values (tasks (this w)))])
                   = S (length (heap w))) by (rewrite length_app; cbn; lia).
    rewrite (app_assoc (heap w)), (app_assoc _ (map entry_obj ts)).
    rewrite list_lookup_middle by (by rewrite length_app, length_map, Hlen).
    rewrite <- (app_assoc _ (map entry_obj ts)). by apply read_entries_seq.
Qed.





(** ** A timer that fires *)



(** ** A task that has run *)

(** X3: once a call of the callback of a task has returned, the identifier
    of the task is unknown for good: however the run goes on, the identifier
    is not in the map, no callback is called for it, and every
    [cancelTask] and [rescheduleTask] of it returns [false]. *)
Theorem task_that_ran_is_unknown (b : Build) (w : World) (e : Event) (ops : list Op) :
  reachable b w ->
  e ∈ log w ->
  cb_throws (ev_callback e) = false ->
  JsMap.get (ev_task e) (tasks (this (run b ops w).2)) = None /\
  calls_of (ev_task e) (log (run b ops w).2) = calls_of (ev_task e) (log w) /\
  (forall k, ops !! k = Some (CancelTask (ev_task e)) ->
     (run b ops w).1 !! k = Some (Ok (VBool false))) /\
  (forall k d, ops !! k = Some (RescheduleTask (ev_task e) d) ->
     (run b ops w).1 !! k = Some (Ok (VBool false))).
Proof.
  intros Hwf%reachable_wf He Hc.
  assert (Hg : gone (ev_task e) w).
  { split.
    - apply JsMapFacts.get_None. by apply (wf_done w Hwf).
    - by apply (wf_log w Hwf). }
  destruct (run_gone b (ev_task e) ops w Hwf Hg) as ([Hget _] & Hcalls & Hcan & Hres).
  done.
Qed.

(** Task 1 has run; cancelling it afterwards returns [false]. *)
Lemma task_that_ran_is_unknown_witness :
  (run Esm [CancelTask 1]
     (run Esm [CreateTask (DateMs 5) cb_ok; Fire 1%nat] (initial 0)).2).1 !! 0%nat
  = Some (Ok (VBool false)).
Proof.
  apply (proj1 (proj2 (proj2
           (task_that_ran_is_unknown Esm
              (run Esm [CreateTask (DateMs 5) cb_ok; Fire 1%nat] (initial 0)).2
              (mkEvent 1 cb_ok [1]) [CancelTask 1]
              ltac:(by exists 0, [CreateTask (DateMs 5) cb_ok; Fire 1%nat])
              ltac:(by apply list_elem_of_singleton)
              eq_refl)))
         0%nat).
  reflexivity.
Defined.

(** ** What [cancelTask] leaves alone *)

Lemma filter_all {A} (P : A -> Prop) `{forall x, Decision (P x)} (l : list A) :
  (forall x, x ∈ l -> P x) -> filter P l = l.
Proof.
  induction l as [|x l IH]; intros Hall; [done|].
  rewrite filter_cons_True by (apply Hall; left).
  rewrite IH; [done|]. intros y Hy. apply Hall. by right.
Qed.

(** X4: in a world a run has reached, a [cancelTask(i)] that finds the task
    deletes its entry and clears its timer and touches nothing else: the
    other entries are the same and in the same order, no object of the store
    is changed, the timers held for other tasks are the same, and the
    counter, the clock and the log are the same.  The timers held afterwards
    are those held before, in their order, without the one whose handle is
    the [timeoutId] of the task: that timer is no longer held. *)
Theorem cancelTask_frame (b : Build) (w : World) (i : Z) (l : loc) (t : Task) :
  reachable b w ->
  JsMap.get i (tasks (this w)) = Some l ->
  heap w !! l = Some (TaskObj t) ->
  (cancelTask i w).1 = Ok true /\
  tasks (this (cancelTask i w).2) = filter (fun kl => kl.1 <> i) (tasks (this w)) /\
  (forall k, k <> i ->
     JsMap.get k (tasks (this (cancelTask i w).2)) = JsMap.get k (tasks (this w))) /\
  heap (cancelTask i w).2 = heap w /\
  (forall tm, t_task tm <> l ->
     tm ∈ timers (cancelTask i w).2 <-> tm ∈ timers w) /\
  (forall tm, tm ∈ timers (cancelTask i w).2 -> tm ∈ timers w) /\
  nextTaskId (this (cancelTask i w).2) = nextTaskId (this w) /\
  nextHandle (cancelTask i w).2 = nextHandle w /\
  now (cancelTask i w).2 = now w /\
  log (cancelTask i w).2 = log w /\
  timers (cancelTask i w).2
  = filter (fun tm => Some (t_handle tm) <> timeoutId t) (timers w) /\
  (forall h, timeoutId t = Some h -> held h (timers (cancelTask i w).2) = None).
Proof.
  intros Hr Hget Hl. pose proof (reachable_twf b w Hr) as Htw.
  rewrite (cancelTask_present i w l t Hget Hl). cbn [fst snd].
  assert (Hts : tasks (this (disarmed (timeoutId t) w)) = tasks (this w))
    by (by destruct (timeoutId t)).
  split; [done|].
  split; [cbn [deleted set_this this tasks]; rewrite Hts; apply JsMapFacts.delete_filter|].
  split; [intros k Hne; cbn [deleted set_this this tasks]; rewrite Hts;
          by apply JsMapFacts.get_delete_ne|].
  split; [by destruct (timeoutId t)|].
  split; [|split].
  - intros tm Hne. destruct (timeoutId t) as [h|] eqn:Hto; cbn; [|done].
    rewrite list_elem_of_filter. split; [by intros [_ ?]|].
    intros Htm. split; [|done]. intros Heq. rewrite <- Heq in Hto.
    by apply Hne, (twf_owner w Htw tm l t).
  - intros tm. destruct (timeoutId t) as [h|]; cbn; [|done].
    by intros [_ ?]%list_elem_of_filter.
  - split; [by destruct (timeoutId t)|]. split; [by destruct (timeoutId t)|].
    split; [by destruct (timeoutId t)|]. split; [by destruct (timeoutId t)|].
    split.
    + destruct (timeoutId t) as [h|]; cbn.
      * apply list_filter_iff. intros tm. split; [congruence|].
        intros Hne Heq. apply Hne. by rewrite Heq.
      * symmetry. by apply filter_all.
    + intros h ->. cbn. apply held_disarmed.
Qed.

(** Task 1 of two is cancelled: the timer of task 2 is still held. *)
Lemma cancelTask_frame_witness :
  mkTimer 2%nat 1%nat (Num 9)
  ∈ timers (cancelTask 1
      (run Esm [CreateTask (DateMs 5) cb_ok; CreateTask (DateMs 9) cb_ok] (initial 0)).2).2.
Proof.
  apply (proj1 (proj2 (proj2 (proj2 (proj2
           (cancelTask_frame Esm
              (run Esm [CreateTask (DateMs 5) cb_ok; CreateTask (DateMs 9) cb_ok]
                   (initial 0)).2
              1 0%nat (mkTask 1 (DateMs 5) cb_ok (Some 1%nat))
              ltac:(by exists 0, [CreateTask (DateMs 5) cb_ok; CreateTask (DateMs 9) cb_ok])
              eq_refl eq_refl)))))
         (mkTimer 2%nat 1%nat (Num 9))).
  - cbn. lia.
  - apply list_elem_of_lookup_2 with 1%nat. reflexivity.
Defined.

(** ** Creating *)

Lemma disarm_new h l dl ts :
  (forall tm, tm ∈ ts -> (t_handle tm < h)%nat) ->
  filter (fun t => t_handle t <> h) (ts ++ [mkTimer h l dl]) = ts.
Proof.
  intros Hts. rewrite filter_app, filter_all.
  - rewrite filter_cons_False by (cbn; intros Hne; by apply Hne).
    rewrite filter_nil. apply app_nil_r.
  - intros tm Htm%Hts. lia.
Qed.

Lemma delete_new k v m :
  JsMap.get k m = None -> JsMap.delete k (m ++ [(k, v)]) = m.
Proof.
  induction m as [|[k' v'] m IH]; cbn.
  - by rewrite Z.eqb_refl.
  - destruct (Z.eqb_spec k k'); [done|]. intros Hm. by rewrite IH.
Qed.

Lemma get_new k v m : JsMap.get k m = None -> JsMap.get k (m ++ [(k, v)]) = Some v.
Proof.
  intros Hm. rewrite <- (JsMapFacts.set_fresh k v m Hm). apply JsMapFacts.get_set_eq.
Qed.

Lemma wf_fresh w : wf w -> JsMap.get (nextTaskId (this w)) (tasks (this w)) = None.
Proof.
  intros Hwf. apply JsMapFacts.get_None. intros Hk%(wf_keys w Hwf). lia.
Qed.

Lemma createTask_created b d cb w :
  wf w -> arms b d w ->
  createTask b d cb w = (Ok (nextTaskId (this w)), created d cb w).
Proof.
  intros Hwf Ha. rewrite createTask_unfold.
  rewrite (scheduleTask_arms b _ _ _ (registered_lookup d cb w)) by done.
  cbn [targetTime]. f_equal. unfold armed, registered, created.
  cbn [heap this now timers nextHandle log tasks nextTaskId].
  rewrite (JsMapFacts.set_fresh _ _ _ (wf_fresh w Hwf)).
  replace (length (heap w)) with (length (heap w) + 0)%nat at 1 by lia.
  by rewrite alter_app_r.
Qed.

(** X5: in a world a run has reached, a [createTask(d, cb)] that takes a
    timer (always in [Esm]; in [Src] when [d] is ahead) returns [nextTaskId]
    and changes the world in this way only: one new task object, with the
    identifier, [d], [cb] and the handle of the new timer, comes last in the
    store; one entry for it comes last in the map; the counter goes up by
    one; and one timer for it, held under a new handle, comes last among the
    timers.  Everything that was there is as it was, and no callback is
    called. *)
Theorem createTask_adds_one (b : Build) (w : World) (d : Date) (cb : Callback) :
  reachable b w ->
  arms b d w ->
  createTask b d cb w = (Ok (nextTaskId (this w)), created d cb w) /\
  JsMap.get (nextTaskId (this w)) (tasks (this w)) = None /\
  JsMap.get (nextTaskId (this w)) (tasks (this (created d cb w)))
  = Some (length (heap w)) /\
  held (nextHandle w) (timers w) = None /\
  held (nextHandle w) (timers (created d cb w))
  = Some (mkTimer (nextHandle w) (length (heap w)) (delay_for d w)) /\
  (forall k, k <> nextTaskId (this w) ->
     JsMap.get k (tasks (this (created d cb w))) = JsMap.get k (tasks (this w))) /\
  (forall l o, heap w !! l = Some o -> heap (created d cb w) !! l = Some o).
Proof.
  intros Hr Ha. pose proof (reachable_wf b w Hr) as Hwf.
  pose proof (reachable_twf b w Hr) as Htw.
  pose proof (wf_fresh w Hwf) as Hfresh.
  split; [by apply createTask_created|]. split; [done|].
  split; [by apply get_new|]. split; [|split; [|split]].
  - apply held_None. intros tm Htm%(twf_handles w Htw). lia.
  - apply held_new. apply (twf_handles w Htw).
  - intros k Hne. cbn [created this tasks].
    rewrite <- (JsMapFacts.set_fresh _ (length (heap w)) _ Hfresh).
    by apply JsMapFacts.get_set_ne.
  - intros l o Hl. by apply lookup_app_l_Some.
Qed.

(** A second task is created next to a first. *)
Lemma createTask_adds_one_witness :
  createTask Src (DateMs 9) cb_bad
    (run Src [CreateTask (DateMs 5) cb_ok] (initial 0)).2
  = (Ok 2,
     mkWorld [TaskObj (mkTask 1 (DateMs 5) cb_ok (Some 1%nat));
              TaskObj (mkTask 2 (DateMs 9) cb_bad (Some 2%nat))]
             (mkTaskManager [(1, 0%nat); (2, 1%nat)] 3) 0
             [mkTimer 1%nat 0%nat (Num 5); mkTimer 2%nat 1%nat (Num 9)] 3%nat []).
Proof.
  apply (proj1 (createTask_adds_one Src
                  (run Src [CreateTask (DateMs 5) cb_ok] (initial 0)).2
                  (DateMs 9) cb_bad
                  ltac:(by exists 0, [CreateTask (DateMs 5) cb_ok])
                  (or_intror eq_refl))).
Defined.

Lemma task_objects_created d cb w ts :
  task_objects w ts ->
  task_objects (created d cb w)
    (ts ++ [mkTask (nextTaskId (this w)) d cb (Some (nextHandle w))]).
Proof.
  unfold task_objects. intros Hts. cbn [created this tasks heap].
  apply Forall2_app.
  - eapply Forall2_impl; [exact Hts|]. cbn beta. intros [k l] t [Hl Hk].
    split; [by apply lookup_app_l_Some | done].
  - constructor; [|constructor]. cbn [fst snd]. split; [|done].
    by apply list_lookup_middle.
Qed.

(** X6: in a world a run has reached, after a [createTask(d, cb)] that takes
    a timer, [getTasks()] lists what it listed before, in the same order,
    and then the new task with its identifier and [d]. *)
Theorem getTasks_after_createTask
    (b : Build) (w : World) (d : Date) (cb : Callback) (ts : list Task) :
  reachable b w ->
  arms b d w ->
  task_objects w ts ->
  (exists a, (getTasks b w).1 = Ok a /\
     read_entries (heap (getTasks b w).2) a
     = Some (map (fun t => (id t, targetTime t)) ts)) /\
  (exists a, (getTasks b (createTask b d cb w).2).1 = Ok a /\
     read_entries (heap (getTasks b (createTask b d cb w).2).2) a
     = Some (map (fun t => (id t, targetTime t)) ts ++ [(nextTaskId (this w), d)])).
Proof.
  intros Hr Ha Hts. pose proof (reachable_wf b w Hr) as Hwf.
  split; [by apply getTasks_reads|].
  rewrite (createTask_created b d cb w Hwf Ha). cbn [snd].
  destruct (getTasks_reads b _ _ (task_objects_created d cb w ts Hts)) as (a & Ha1 & Ha2).
  exists a. split; [done|]. by rewrite Ha2, map_app.
Qed.

(** One task is listed; after a second is created, both are. *)
Lemma getTasks_after_createTask_witness :
  exists a,
    (getTasks Esm (createTask Esm (DateMs 9) cb_bad
       (run Esm [CreateTask (DateMs 5) cb_ok] (initial 0)).2).2).1 = Ok a /\
    read_entries (heap (getTasks Esm (createTask Esm (DateMs 9) cb_bad
       (run Esm [CreateTask (DateMs 5) cb_ok] (initial 0)).2).2).2) a
    = Some ([(1, DateMs 5)] ++ [(2, DateMs 9)]).
Proof.
  apply (proj2 (getTasks_after_createTask Esm
                  (run Esm [CreateTask (DateMs 5) cb_ok] (initial 0)).2
                  (DateMs 9) cb_bad [mkTask 1 (DateMs 5) cb_ok (Some 1%nat)]
                  ltac:(by exists 0, [CreateTask (DateMs 5) cb_ok])
                  (or_introl eq_refl)
                  ltac:(repeat constructor))).
Defined.

(** X7: in a world a run has reached, cancelling a task right after the
    [createTask] that took a timer for it returns [true] and undoes the
    creation for the manager and the host: the map and the timers held are
    what they were before [createTask], and no callback was called.  Only
    the counters have moved on, and the task object stays in the store. *)
Theorem cancelTask_undoes_createTask
    (b : Build) (w : World) (d : Date) (cb : Callback) :
  reachable b w ->
  arms b d w ->
  (createTask b d cb w).1 = Ok (nextTaskId (this w)) /\
  (cancelTask (nextTaskId (this w)) (createTask b d cb w).2).1 = Ok true /\
  tasks (this (cancelTask (nextTaskId (this w)) (createTask b d cb w).2).2)
  = tasks (this w) /\
  timers (cancelTask (nextTaskId (this w)) (createTask b d cb w).2).2 = timers w /\
  log (cancelTask (nextTaskId (this w)) (createTask b d cb w).2).2 = log w /\
  nextTaskId (this (cancelTask (nextTaskId (this w)) (createTask b d cb w).2).2)
  = nextTaskId (this w) + 1 /\
  nextHandle (cancelTask (nextTaskId (this w)) (createTask b d cb w).2).2
  = S (nextHandle w).
Proof.
  intros Hr Ha. pose proof (reachable_wf b w Hr) as Hwf.
  pose proof (reachable_twf b w Hr) as Htw.
  pose proof (wf_fresh w Hwf) as Hfresh.
  rewrite (createTask_created b d cb w Hwf Ha). cbn [fst snd].
  split; [done|].
  rewrite (cancelTask_present (nextTaskId (this w)) (created d cb w) (length (heap w))
             (mkTask (nextTaskId (this w)) d cb (Some (nextHandle w)))).
  - cbn [fst snd timeoutId disarmed deleted created set_timers set_this
         heap this now timers nextHandle log tasks nextTaskId].
    split; [done|]. split; [by apply delete_new|].
    split; [apply disarm_new, (twf_handles w Htw)|]. done.
  - by apply get_new.
  - by apply list_lookup_middle.
Qed.

(** A task is created next to another and cancelled at once. *)
Lemma cancelTask_undoes_createTask_witness :
  timers (cancelTask 2 (createTask Esm (DateMs (-9)) cb_bad
     (run Esm [CreateTask (DateMs 5) cb_ok] (initial 0)).2).2).2
  = timers (run Esm [CreateTask (DateMs 5) cb_ok] (initial 0)).2.
Proof.
  apply (proj1 (proj2 (proj2 (proj2
           (cancelTask_undoes_createTask Esm
              (run Esm [CreateTask (DateMs 5) cb_ok] (initial 0)).2
              (DateMs (-9)) cb_bad
              ltac:(by exists 0, [CreateTask (DateMs 5) cb_ok])
              (or_introl eq_refl)))))).
Defined.

(** ** The timers held *)

Lemma NoDup_map_filter {A B} (f : A -> B) (P : A -> Prop)
    `{forall x, Decision (P x)} (l : list A) :
  NoDup (map f l) -> NoDup (map f (filter P l)).
Proof.
  induction l as [|x l IH]; [done|]. cbn [map].
  intros [Hx Hl]%NoDup_cons. destruct (decide (P x)).
  - rewrite filter_cons_True by done. cbn [map]. apply NoDup_cons.
    split; [|by apply IH]. intros Hin. apply Hx.
    apply list_elem_of_In, in_map_iff in Hin as (y & Hy & Hin).
    apply list_elem_of_In, list_elem_of_filter in Hin as [_ Hin].
    rewrite <- Hy. apply list_elem_of_In, in_map. by apply list_elem_of_In.
  - rewrite filter_cons_False by done. by apply IH.
Qed.

Lemma NoDup_map_determined {A B C} (f : A -> B) (g : A -> C) (l : list A) :
  NoDup (map f l) ->
  (forall x y, x ∈ l -> y ∈ l -> g x = g y -> f x = f y) ->
  NoDup (map g l).
Proof.
  induction l as [|x l IH]; [constructor|]. cbn [map].
  intros [Hx Hl]%NoDup_cons Hdet. apply NoDup_cons. split.
  - intros Hin. apply Hx.
    apply list_elem_of_In, in_map_iff in Hin as (y & Hy & Hin).
    apply list_elem_of_In in Hin.
    rewrite (Hdet x y); [|left|by right|done].
    apply list_elem_of_In, in_map. by apply list_elem_of_In.
  - apply IH; [done|]. intros y z Hy Hz. apply Hdet; by right.
Qed.

Lemma handles_armed l dl w :
  timers_wf w -> NoDup (map t_handle (timers w)) ->
  NoDup (map t_handle (timers (armed l dl w))).
Proof.
  intros Htw Hnd. cbn [armed timers]. rewrite map_app. apply NoDup_app.
  split; [done|]. split; [|apply NoDup_singleton].
  intros h Hin ->%list_elem_of_singleton.
  apply list_elem_of_In, in_map_iff in Hin as (tm & Hh & Htm).
  apply list_elem_of_In, (twf_handles w Htw) in Htm. cbn in Hh. lia.
Qed.

Lemma handles_disarmed h w :
  NoDup (map t_handle (timers w)) -> NoDup (map t_handle (timers (disarmed h w))).
Proof. destruct h; [apply NoDup_map_filter | done]. Qed.

Lemma executes_timers i w r w' : executes i w r w' -> timers w' = timers w.
Proof. by destruct 1. Qed.

Lemma does_handles b op w r w' :
  timers_wf w -> NoDup (map t_handle (timers w)) -> does b op w r w' ->
  NoDup (map t_handle (timers w')).
Proof.
  intros Htw Hnd.
  destruct 1 as [d cb w Ha|d cb w r w' Hr He|j w l t Hj Hl|j w Hj
                |j d w l t Hj Hl Ha|j d w l t r w' Hj Hl Hr He|j d w Hj
                |w r ext Hext|ms w|h w tm t r w' Hh Hl He|h w Hh|j w r w' He];
    try done; try (rewrite (executes_timers _ _ _ _ He)); try done.
  - apply handles_armed; [by apply twf_registered | done].
  - by apply (handles_disarmed (timeoutId t)).
  - apply handles_armed; [by apply twf_retimed, twf_disarmed|].
    by apply (handles_disarmed (timeoutId t)).
  - by apply (handles_disarmed (timeoutId t)).
  - by apply (handles_disarmed (Some h)).
Qed.

Lemma handles_run b ops w :
  wf w -> timers_wf w -> NoDup (map t_handle (timers w)) ->
  NoDup (map t_handle (timers (run b ops w).2)).
Proof.
  revert w. induction ops as [|op ops IH]; intros w Hwf Htw Hnd; [done|].
  rewrite run_cons. cbn [snd].
  pose proof (step_does b op w Hwf) as Hd.
  apply IH; [by apply wf_step | by apply (does_twf b op w _ _ Htw Hd)|].
  by apply (does_handles b op w _ _ Htw Hnd Hd).
Qed.

(** X8: after every run no two timers held have the same handle, and every
    handle held is below [nextHandle]; and after a run in which
    [_executeTask] is run by timers only, no two timers held are for the same
    task: [rescheduleTask] never leaves the old timer of a task behind. *)
Theorem one_timer_for_a_task (b : Build) (ops : list Op) (t0 : Z) :
  NoDup (map t_handle (timers (run b ops (initial t0)).2)) /\
  (forall tm, tm ∈ timers (run b ops (initial t0)).2 ->
     (t_handle tm < nextHandle (run b ops (initial t0)).2)%nat) /\
  (by_timers ops -> NoDup (map t_task (timers (run b ops (initial t0)).2))).
Proof.
  pose proof (twf_run b ops _ (wf_initial t0) (twf_initial t0)) as Htw.
  pose proof (handles_run b ops _ (wf_initial t0) (twf_initial t0)) as Hnd.
  split; [apply Hnd; constructor|]. split; [apply (twf_handles _ Htw)|].
  intros Hops.
  pose proof (owned_run b ops _ (wf_initial t0) (twf_initial t0) (owned_initial t0) Hops)
    as Hown.
  apply (NoDup_map_determined t_handle); [apply Hnd; constructor|].
  intros x y Hx Hy Heq.
  destruct (own_timer _ Hown x Hx) as (t & Hl & Hto & _).
  destruct (own_timer _ Hown y Hy) as (t' & Hl' & Hto' & _).
  rewrite Heq in Hl. congruence.
Qed.

(** A task rescheduled twice holds one timer. *)
Lemma one_timer_for_a_task_witness :
  NoDup (map t_task (timers
    (run Esm [CreateTask (DateMs 5) cb_ok; RescheduleTask 1 (DateMs 7);
              CreateTask (DateMs 9) cb_ok; RescheduleTask 1 (DateMs 8)] (initial 0)).2)).
Proof.
  apply (proj2 (proj2 (one_timer_for_a_task Esm
           [CreateTask (DateMs 5) cb_ok; RescheduleTask 1 (DateMs 7);
            CreateTask (DateMs 9) cb_ok; RescheduleTask 1 (DateMs 8)] 0))).
  repeat constructor.
Defined.

Lemma delay_for_good b d w : arms b d w -> good_delay b (delay_for d w).
Proof.
  unfold arms, delay_for. intros Ha.
  destruct (js_gt0 (timeUntil d w)) eqn:Hgt.
  - destruct (timeUntil d w) as [z|]; [|done]. cbn in Hgt.
    apply Z.ltb_lt in Hgt. cbn. split; [lia | done].
  - destruct Ha as [->|]; [|done]. cbn. split; [lia | done].
Qed.

Lemma does_delays b op w r w' :
  (forall tm, tm ∈ timers w -> good_delay b (t_delay tm)) ->
  does b op w r w' ->
  forall tm, tm ∈ timers w' -> good_delay b (t_delay tm).
Proof.
  intros Hgood.
  destruct 1 as [d cb w Ha|d cb w r w' Hr He|j w l t Hj Hl|j w Hj
                |j d w l t Hj Hl Ha|j d w l t r w' Hj Hl Hr He|j d w Hj
                |w r ext Hext|ms w|h w tm t r w' Hh Hl He|h w Hh|j w r w' He];
    try done; try (rewrite (executes_timers _ _ _ _ He)); try done.
  - intros tm [Htm|Htm]%elem_of_app; [auto|].
    apply list_elem_of_singleton in Htm as ->. by apply delay_for_good.
  - intros tm. destruct (timeoutId t); cbn; [|auto].
    intros [_ Htm]%list_elem_of_filter. auto.
  - intros tm [Htm|Htm]%elem_of_app.
    + destruct (timeoutId t); cbn in Htm; [|auto].
      apply list_elem_of_filter in Htm as [_ Htm]. auto.
    + apply list_elem_of_singleton in Htm as ->. by apply delay_for_good.
  - intros tm. destruct (timeoutId t); cbn; [|auto].
    intros [_ Htm]%list_elem_of_filter. auto.
  - intros tm0 [_ Htm]%list_elem_of_filter. auto.
Qed.

(** X9: after every run, every timer held was taken with a delay that is a
    number and is not negative: [setTimeout] is never given NaN or a
    negative delay, whatever dates the tasks have.  In [Src] the delay is
    positive: a timer is taken only for a task whose time is ahead. *)
Theorem timer_delays_not_negative (b : Build) (ops : list Op) (t0 : Z) (tm : Timer) :
  tm ∈ timers (run b ops (initial t0)).2 ->
  exists z, t_delay tm = Num z /\ 0 <= z /\ (b = Src -> 0 < z).
Proof.
  assert (Hall : forall w, wf w ->
            (forall tm, tm ∈ timers w -> good_delay b (t_delay tm)) ->
            forall tm, tm ∈ timers (run b ops w).2 -> good_delay b (t_delay tm)).
  { induction ops as [|op ops IH]; intros w Hwf Hgood; [done|].
    rewrite run_cons. cbn [snd]. apply IH; [by apply wf_step|].
    by apply (does_delays b op w _ _ Hgood (step_does b op w Hwf)). }
  intros Htm. apply (Hall _ (wf_initial t0)) in Htm.
  - destruct (t_delay tm) as [z|]; [|done]. exists z. by destruct Htm.
  - intros tm' H. by apply elem_of_nil in H.
Qed.

(** Tasks with a past date and with an invalid date: the timers of [Esm]
    have delay 0. *)
Lemma timer_delays_not_negative_witness :
  exists z, t_delay (mkTimer 2%nat 1%nat (Num 0)) = Num z /\ 0 <= z /\ (Esm = Src -> 0 < z).
Proof.
  apply (timer_delays_not_negative Esm
           [CreateTask (DateMs (-5)) cb_ok; CreateTask InvalidDate cb_ok] 0
           (mkTimer 2%nat 1%nat (Num 0))).
  apply list_elem_of_lookup_2 with 1%nat. reflexivity.
Defined.

(** ** The callbacks called *)

Lemma known_mono R R' w : (forall x, x ∈ R -> x ∈ R') -> known R w -> known R' w.
Proof. intros Hsub [Hh Hl]. split; eauto. Qed.

Lemma known_retimed R l d w : known R w -> known R (retimed l d w).
Proof.
  intros [Hh Hl]. split; [|done]. cbn.
  intros l' t' (t & Ht & Hid & Hcb & _)%lookup_with_targetTime_inv.
  rewrite Hid, Hcb. eauto.
Qed.

Lemma known_armed R l dl w : known R w -> known R (armed l dl w).
Proof.
  intros [Hh Hl]. split; [|done]. cbn.
  intros l' t' (t & Ht & Hid & Hcb & _)%lookup_with_timeoutId_inv.
  rewrite Hid, Hcb. eauto.
Qed.

Lemma known_disarmed R h w : known R w -> known R (disarmed h w).
Proof. by destruct h. Qed.

Lemma known_registered R d cb w :
  known R w -> known (R ++ [(nextTaskId (this w), cb)]) (registered d cb w).
Proof.
  intros [Hh Hl]. split; cbn.
  - intros l t [Ht|[_ ->]]%lookup_app_new_task; apply elem_of_app.
    + left. eauto.
    + right. by apply list_elem_of_singleton.
  - intros e He. apply elem_of_app. left. eauto.
Qed.

Lemma known_executes R i w r w' :
  wf w -> known R w -> executes i w r w' -> known R w'.
Proof.
  intros Hwf [Hh Hl].
  destruct 1 as [i w Hi|i w l t Hi Hlk Hc|i w l t Hi Hlk Hc]; [done| |];
    (split; [done|]); cbn;
    intros e [He|He]%elem_of_app; try (by apply Hl);
    apply list_elem_of_singleton in He as ->; cbn;
    destruct (wf_get w i l Hwf Hi) as (t' & Hlk' & <-);
    assert (t' = t) as -> by congruence; eauto.
Qed.

Lemma does_known R b op w r w' :
  wf w -> known R w -> does b op w r w' ->
  known (R ++ given (nextTaskId (this w)) [op]) w'.
Proof.
  intros Hwf Hk.
  destruct 1 as [d cb w Ha|d cb w r w' Hr He|j w l t Hj Hl|j w Hj
                |j d w l t Hj Hl Ha|j d w l t r w' Hj Hl Hr He|j d w Hj
                |w r ext Hext|ms w|h w tm t r w' Hh Hl He|h w Hh|j w r w' He];
    cbn [given]; rewrite ?app_nil_r; try done.
  - by apply known_armed, known_registered.
  - apply (known_executes _ _ _ _ _ (wf_registered d cb w Hwf)
             (known_registered R d cb w Hk) He).
  - by destruct (timeoutId t).
  - by apply known_armed, known_retimed, known_disarmed.
  - apply (known_executes _ _ _ _ _
             (wf_retimed l d _ (wf_disarmed (timeoutId t) w Hwf))
             (known_retimed R l d _ (known_disarmed R (timeoutId t) w Hk)) He).
  - destruct Hk as [Hh Hl]. split; [|done]. cbn.
    intros l t Ht%lookup_app_not_task; eauto.
  - apply (known_executes _ _ _ _ _ (wf_disarmed (Some h) w Hwf)
             (known_disarmed R (Some h) w Hk) He).
  - by apply (known_executes _ _ _ _ _ Hwf Hk He).
Qed.

Lemma known_initial t0 : known [] (initial t0).
Proof.
  split.
  - intros l t H. by destruct l.
  - intros e H. by apply elem_of_nil in H.
Qed.

Lemma given_cons n op ops :
  given n (op :: ops) = given n [op] ++ given (n + (if is_create op then 1 else 0)) ops.
Proof. destruct op; cbn; rewrite ?Z.add_0_r; done. Qed.

Lemma known_run R b ops w :
  wf w -> known R w -> known (R ++ given (nextTaskId (this w)) ops) (run b ops w).2.
Proof.
  revert R w. induction ops as [|op ops IH]; intros R w Hwf Hk.
  - cbn. by rewrite app_nil_r.
  - rewrite run_cons, given_cons, app_assoc. cbn [snd].
    pose proof (step_does b op w Hwf) as Hd.
    rewrite <- (does_nextTaskId b op w _ _ Hd).
    apply IH; [by apply wf_step|]. by apply (does_known R b op w _ _ Hwf Hk Hd).
Qed.

(** Where a pair of [given] comes from. *)
Lemma given_lookup n ops i cb :
  (i, cb) ∈ given n ops ->
  exists k d, ops !! k = Some (CreateTask d cb) /\ i = n + count_creates (take k ops).
Proof.
  revert n. induction ops as [|op ops IH]; intros n Hin.
  - by apply elem_of_nil in Hin.
  - rewrite given_cons in Hin. apply elem_of_app in Hin as [Hin|Hin].
    + destruct op as [d cb'| | | | | |]; cbn in Hin;
        try (by apply elem_of_nil in Hin).
      apply list_elem_of_singleton in Hin as [= -> ->].
      exists 0%nat, d. split; [done|]. cbn. lia.
    + destruct (IH _ Hin) as (k & d & Hk & ->).
      exists (S k), d. split; [done|]. cbn [take count_creates]. lia.
Qed.

Lemma count_creates_take_le ops k k' :
  (k <= k')%nat -> count_creates (take k ops) <= count_creates (take k' ops).
Proof.
  revert k k'. induction ops as [|op ops IH]; intros k k' Hle.
  - by rewrite !take_nil.
  - destruct k as [|k]; destruct k' as [|k']; cbn [take count_creates]; try lia.
    + pose proof (count_creates_nonneg (take k' ops)). destruct (is_create op); lia.
    + specialize (IH k k'). lia.
Qed.




(** In the first model:
    after a run in which [_executeTask] is run by timers only and no
    callback given to [createTask] raises, a task is in the map exactly when
    a timer is held for it: the map lists the tasks that are waiting, and
    nothing else. *)
Lemma map_lists_waiting_tasks
    (b : Build) (ops : list Op) (t0 : Z) (i : Z) (l : loc) :
  by_timers ops ->
  (forall k d cb, ops !! k = Some (CreateTask d cb) -> cb_throws cb = false) ->
  JsMap.get i (tasks (this (run b ops (initial t0)).2)) = Some l <->
  exists tm t, tm ∈ timers (run b ops (initial t0)).2 /\ t_task tm = l /\
    heap (run b ops (initial t0)).2 !! l = Some (TaskObj t) /\ id t = i.
Proof.
  intros Hops Hok.
  pose proof (wf_run b ops _ (wf_initial t0)) as Hwf.
  pose proof (owned_run b ops _ (wf_initial t0) (twf_initial t0) (owned_initial t0) Hops)
    as Hown.
  assert (Hk : known (given 1 ops) (run b ops (initial t0)).2).
  { apply (known_run [] b ops (initial t0) (wf_initial t0)), known_initial. }
  split.
  - intros Hget. destruct (wf_get _ i l Hwf Hget) as (t & Hlk & Hid).
    destruct (own_task _ Hown i l Hget) as [(tm & Htm & Htl)|(e & He & _ & Hc)].
    + by exists tm, t.
    + apply (proj2 Hk), given_lookup in He as (k & d & Hop & _).
      apply Hok in Hop. congruence.
  - intros (tm & t & Htm & <- & Hlk & <-).
    destruct (own_timer _ Hown tm Htm) as (t' & Hlk' & _ & Hget). congruence.
Qed.


(** ** The two versions on a task that is due *)







(** ** Rescheduling twice *)

Lemma rescheduleTask_arms_world b i d w l t :
  timers_wf w ->
  JsMap.get i (tasks (this w)) = Some l ->
  heap w !! l = Some (TaskObj t) ->
  arms b d w ->
  rescheduleTask b i d w
  = (Ok true,
     mkWorld (<[l := TaskObj (mkTask (id t) d (callback t) (Some (nextHandle w)))]> (heap w))
             (this w) (now w)
             (timers (disarmed (timeoutId t) w) ++ [mkTimer (nextHandle w) l (delay_for d w)])
             (S (nextHandle w)) (log w)).
Proof.
  intros Htw Hget Hl Ha. rewrite (rescheduleTask_arms b i d w l t Hget Hl Ha).
  f_equal. unfold armed.
  destruct (timeoutId t);
    cbn [retimed disarmed set_heap set_timers heap this now timers nextHandle log];
    by rewrite (retimed_armed_heap l d _ (heap w) t Hl).
Qed.

(** X14: in a world a run has reached, of two [rescheduleTask] calls for a
    task, one after the other and both taking a timer, the second wins: the
    task has the second time, the timer of the first call is no longer
    held, and the map, the other objects of the store, the timers of the
    other tasks and the log are what one call with the second time leaves;
    only the handle of the timer is the next one. *)
Theorem rescheduleTask_twice
    (b : Build) (w : World) (i : Z) (d1 d2 : Date) (l : loc) (t : Task) :
  reachable b w ->
  JsMap.get i (tasks (this w)) = Some l ->
  heap w !! l = Some (TaskObj t) ->
  arms b d1 w ->
  arms b d2 w ->
  rescheduleTask b i d2 (rescheduleTask b i d1 w).2
  = (Ok true,
     mkWorld (<[l := TaskObj (mkTask (id t) d2 (callback t) (Some (S (nextHandle w))))]>
                (heap w))
             (this w) (now w)
             (timers (disarmed (timeoutId t) w)
              ++ [mkTimer (S (nextHandle w)) l (delay_for d2 w)])
             (S (S (nextHandle w))) (log w)) /\
  rescheduleTask b i d2 w
  = (Ok true,
     mkWorld (<[l := TaskObj (mkTask (id t) d2 (callback t) (Some (nextHandle w)))]>
                (heap w))
             (this w) (now w)
             (timers (disarmed (timeoutId t) w)
              ++ [mkTimer (nextHandle w) l (delay_for d2 w)])
             (S (nextHandle w)) (log w)) /\
  held (nextHandle w) (timers (rescheduleTask b i d2 (rescheduleTask b i d1 w).2).2)
  = None.
Proof.
  intros Hr Hget Hl Ha1 Ha2. pose proof (reachable_wf b w Hr) as Hwf.
  pose proof (reachable_twf b w Hr) as Htw.
  rewrite (rescheduleTask_arms_world b i d1 w l t Htw Hget Hl Ha1). cbn [snd].
  set (w1 := mkWorld _ _ _ _ _ _).
  assert (Hwf1 : wf w1).
  { pose proof (wf_rescheduleTask b i d1 w Hwf) as H.
    by rewrite (rescheduleTask_arms_world b i d1 w l t Htw Hget Hl Ha1) in H. }
  assert (Htw1 : timers_wf w1).
  { pose proof (does_twf b _ w _ _ Htw (step_does b (RescheduleTask i d1) w Hwf)) as H.
    cbn [step] in H. rewrite snd_fmapM in H.
    by rewrite (rescheduleTask_arms_world b i d1 w l t Htw Hget Hl Ha1) in H. }
  assert (Hl1 : heap w1 !! l
                = Some (TaskObj (mkTask (id t) d1 (callback t) (Some (nextHandle w))))).
  { unfold w1. cbn [heap]. apply list_lookup_insert_eq. by apply lookup_lt_Some in Hl. }
  assert (Hold : forall tm, tm ∈ timers (disarmed (timeoutId t) w) ->
                   (t_handle tm < nextHandle w)%nat).
  { intros tm Htm. apply (twf_handles w Htw).
    destruct (timeoutId t); cbn in Htm; [|done].
    by apply list_elem_of_filter in Htm as [_ Htm]. }
  rewrite (rescheduleTask_arms_world b i d2 w1 l _ Htw1 Hget Hl1 Ha2).
  rewrite (rescheduleTask_arms_world b i d2 w l t Htw Hget Hl Ha2).
  cbn [fst snd id callback timeoutId disarmed set_timers w1
       heap this now timers nextHandle log].
  rewrite (disarm_new _ _ _ _ Hold), list_insert_insert_eq.
  split; [done|]. split; [done|].
  rewrite held_app. replace (held (nextHandle w) (timers (disarmed (timeoutId t) w)))
    with (@None Timer).
  - cbn [held t_handle]. by rewrite (proj2 (Nat.eqb_neq (S (nextHandle w)) (nextHandle w))) by lia.
  - symmetry. apply held_None. intros tm Htm%Hold. lia.
Qed.

(** A task is moved to 7 and then to 3. *)
Lemma rescheduleTask_twice_witness :
  held 2%nat (timers (rescheduleTask Esm 1 (DateMs 3)
     (rescheduleTask Esm 1 (DateMs 7)
        (run Esm [CreateTask (DateMs 5) cb_ok] (initial 0)).2).2).2) = None.
Proof.
  apply (proj2 (proj2 (rescheduleTask_twice Esm
           (run Esm [CreateTask (DateMs 5) cb_ok] (initial 0)).2
           1 (DateMs 7) (DateMs 3) 0%nat (mkTask 1 (DateMs 5) cb_ok (Some 1%nat))
           ltac:(by exists 0, [CreateTask (DateMs 5) cb_ok])
           eq_refl eq_refl (or_introl eq_refl) (or_introl eq_refl)))).
Defined.

(** ** When the map is empty *)



(** ** Listing twice *)

Lemma read_entry_app h ext e x :
  read_entry h e = Some x -> read_entry (h ++ ext) e = Some x.
Proof.
  unfold read_entry. destruct (h !! e) as [o|] eqn:He; [|done].
  by rewrite (lookup_app_l_Some _ _ _ _ He).
Qed.

Lemma read_all_app h ext es xs :
  read_all h es = Some xs -> read_all (h ++ ext) es = Some xs.
Proof.
  revert xs. induction es as [|e es IH]; intros xs; [done|]. cbn [read_all].
  destruct (read_entry h e) as [x|] eqn:He; [|done].
  destruct (read_all h es) as [ys|] eqn:Hes; [|done]. intros [= <-].
  by rewrite (read_entry_app _ ext _ _ He), (IH ys).
Qed.

Lemma read_entries_app h ext a xs :
  read_entries h a = Some xs -> read_entries (h ++ ext) a = Some xs.
Proof.
  unfold read_entries. destruct (h !! a) as [o|] eqn:Ha; [|done].
  rewrite (lookup_app_l_Some _ _ _ _ Ha). destruct o; try done.
  apply read_all_app.
Qed.

Lemma task_objects_heap_app ext w ts :
  task_objects w ts -> task_objects (set_heap (heap w ++ ext) w) ts.
Proof.
  unfold task_objects. cbn [set_heap this heap]. intros Hts.
  eapply Forall2_impl; [exact Hts|]. cbn beta. intros [k l] t [Hl Hk].
  split; [by apply lookup_app_l_Some | done].
Qed.

Lemma getTasks_array_bounds b w ts :
  (length (heap w) <= getTasks_array b w ts)%nat /\
  (getTasks_array b w ts < length (heap w ++ getTasks_objects b w ts))%nat.
Proof.
  destruct b; cbn [getTasks_array getTasks_objects];
    rewrite !length_app, ?length_map; cbn [length]; lia.
Qed.

(** X16: in a world a run has reached, two [getTasks()] calls, one after the
    other, return two different arrays that list the same entries, and the
    first array still lists them after the second call: a list taken earlier
    is not touched by listing again. *)
Theorem getTasks_twice (b : Build) (w : World) (ts : list Task) :
  reachable b w ->
  task_objects w ts ->
  exists a a',
    (getTasks b w).1 = Ok a /\
    (getTasks b (getTasks b w).2).1 = Ok a' /\
    a <> a' /\
    read_entries (heap (getTasks b w).2) a
    = Some (map (fun t => (id t, targetTime t)) ts) /\
    read_entries (heap (getTasks b (getTasks b w).2).2) a'
    = Some (map (fun t => (id t, targetTime t)) ts) /\
    read_entries (heap (getTasks b (getTasks b w).2).2) a
    = Some (map (fun t => (id t, targetTime t)) ts).
Proof.
  intros Hr Hts.
  destruct (getTasks_reads b w ts Hts) as (a & Ha & Hread).
  pose proof (getTasks_eq b w ts Hts) as Heq.
  assert (Hw1 : (getTasks b w).2 = set_heap (heap w ++ getTasks_objects b w ts) w)
    by (by rewrite Heq).
  assert (Ha' : a = getTasks_array b w ts) by (rewrite Heq in Ha; by injection Ha).
  pose proof (task_objects_heap_app (getTasks_objects b w ts) w ts Hts) as Hts1.
  rewrite <- Hw1 in Hts1.
  destruct (getTasks_reads b _ ts Hts1) as (a' & Ha1 & Hread1).
  pose proof (getTasks_eq b _ ts Hts1) as Heq1.
  exists a, a'. split; [done|]. split; [done|]. split; [|split; [done|split; [done|]]].
  - rewrite Heq1 in Ha1. injection Ha1 as <-.
    destruct (getTasks_array_bounds b w ts) as [_ Hlt].
    destruct (getTasks_array_bounds b (getTasks b w).2 ts) as [Hle _].
    rewrite Hw1 in Hle at 1. cbn [set_heap heap] in Hle. lia.
  - rewrite Heq1. cbn [snd set_heap heap]. by apply read_entries_app.
Qed.

(** Two tasks are listed twice. *)
Lemma getTasks_twice_witness :
  exists a a',
    (getTasks Src (run Src [CreateTask (DateMs 5) cb_ok; CreateTask (DateMs 9) cb_ok]
                       (initial 0)).2).1 = Ok a /\
    (getTasks Src (getTasks Src
       (run Src [CreateTask (DateMs 5) cb_ok; CreateTask (DateMs 9) cb_ok]
            (initial 0)).2).2).1 = Ok a' /\
    a <> a'.
Proof.
  destruct (getTasks_twice Src
              (run Src [CreateTask (DateMs 5) cb_ok; CreateTask (DateMs 9) cb_ok]
                   (initial 0)).2
              [mkTask 1 (DateMs 5) cb_ok (Some 1%nat); mkTask 2 (DateMs 9) cb_ok (Some 2%nat)])
    as (a & a' & H1 & H2 & H3 & _).
  - by exists 0, [CreateTask (DateMs 5) cb_ok; CreateTask (DateMs 9) cb_ok].
  - repeat constructor.
  - exists a, a'. split; [exact H1|]. split; [exact H2 | exact H3].
Defined.

(** ** Counting tasks *)

Lemma length_set_fresh k v m :
  JsMap.get k m = None -> length (JsMap.set k v m) = S (length m).
Proof.
  intros Hm. rewrite (JsMapFacts.set_fresh k v m Hm), length_app. cbn. lia.
Qed.

Lemma length_delete_present k v m :
  NoDup (JsMap.keys m) -> JsMap.get k m = Some v ->
  S (length (JsMap.delete k m)) = length m.
Proof.
  induction m as [|[k' v'] m IH]; cbn; [done|].
  intros [Hk Hnd]%NoDup_cons. destruct (Z.eqb_spec k k') as [->|Hne].
  - intros _. rewrite JsMapFacts.delete_filter, filter_all; [done|].
    intros [k0 v0] Hin. cbn. intros ->. apply Hk.
    apply list_elem_of_In, in_map_iff. exists (k', v0). split; [done|].
    by apply list_elem_of_In.
  - intros Hget. cbn. by rewrite IH.
Qed.

Lemma count_returned_snoc lg e :
  count_returned (lg ++ [e])
  = count_returned lg + (if cb_throws (ev_callback e) then 0 else 1).
Proof.
  unfold count_returned. rewrite filter_app, length_app.
  destruct (cb_throws (ev_callback e)) eqn:Hc.
  - rewrite filter_cons_False by congruence. cbn. lia.
  - rewrite filter_cons_True by done. cbn. lia.
Qed.

Lemma executes_settled i w r w' : wf w -> executes i w r w' -> settled w' = settled w.
Proof.
  intros Hwf. destruct 1 as [i w Hi|i w l t Hi Hl Hc|i w l t Hi Hl Hc]; [done| |];
    unfold settled; cbn [called deleted set_log set_this this tasks log];
    rewrite count_returned_snoc; cbn [ev_callback]; rewrite Hc; [|lia].
  pose proof (length_delete_present i l _ (wf_nodup w Hwf) Hi). lia.
Qed.

Lemma settled_registered d cb w : wf w -> settled (registered d cb w) = settled w + 1.
Proof.
  intros Hwf. unfold settled. cbn [registered this tasks log].
  rewrite (length_set_fresh _ _ _ (wf_fresh w Hwf)). lia.
Qed.

Lemma does_settled b op w r w' :
  wf w -> does b op w r w' ->
  settled w' = settled w + count_creates [op] - count_cancelled [op] [r].
Proof.
  intros Hwf.
  destruct 1 as [d cb w Ha|d cb w r w' Hr He|j w l t Hj Hl|j w Hj
                |j d w l t Hj Hl Ha|j d w l t r w' Hj Hl Hr He|j d w Hj
                |w r ext Hext|ms w|h w tm t r w' Hh Hl He|h w Hh|j w r w' He];
    cbn [count_creates count_cancelled is_create].
  - change (settled (armed (length (heap w)) (delay_for d w) (registered d cb w)))
      with (settled (registered d cb w)).
    rewrite (settled_registered d cb w Hwf). lia.
  - rewrite (executes_settled _ _ _ _ (wf_registered d cb w Hwf) He).
    rewrite (settled_registered d cb w Hwf). by destruct r; cbn; lia.
  - unfold settled. cbn [deleted set_this this tasks log].
    assert (Hts : tasks (this (disarmed (timeoutId t) w)) = tasks (this w))
      by (by destruct (timeoutId t)).
    assert (Hlg : log (disarmed (timeoutId t) w) = log w) by (by destruct (timeoutId t)).
    rewrite Hts, Hlg.
    pose proof (length_delete_present j l _ (wf_nodup w Hwf) Hj). lia.
  - lia.
  - assert (Hs : settled (armed l (delay_for d w) (retimed l d (disarmed (timeoutId t) w)))
                 = settled w) by (by destruct (timeoutId t)).
    rewrite Hs. lia.
  - rewrite (executes_settled _ _ _ _
               (wf_retimed l d _ (wf_disarmed (timeoutId t) w Hwf)) He).
    assert (Hs : settled (retimed l d (disarmed (timeoutId t) w)) = settled w)
      by (by destruct (timeoutId t)).
    rewrite Hs. destruct r; cbn; lia.
  - lia.
  - change (settled (set_heap (heap w ++ ext) w)) with (settled w).
    destruct r as [[]|]; lia.
  - change (settled (set_now (now w + ms) w)) with (settled w). lia.
  - rewrite (executes_settled _ _ _ _ (wf_disarmed (Some h) w Hwf) He).
    change (settled (disarmed (Some h) w)) with (settled w). destruct r; cbn; lia.
  - lia.
  - rewrite (executes_settled _ _ _ _ Hwf He). destruct r; cbn; lia.
Qed.

Lemma count_cancelled_cons op ops r rs :
  count_cancelled (op :: ops) (r :: rs)
  = count_cancelled [op] [r] + count_cancelled ops rs.
Proof. destruct op; try done. destruct r as [[| |[]|]|]; cbn; lia. Qed.

Lemma settled_run b ops w :
  wf w ->
  settled (run b ops w).2
  = settled w + count_creates ops - count_cancelled ops (run b ops w).1.
Proof.
  revert w. induction ops as [|op ops IH]; intros w Hwf; [cbn; lia|].
  rewrite run_cons. cbn [fst snd]. rewrite count_cancelled_cons.
  rewrite IH by (by apply wf_step).
  rewrite (does_settled b op w _ _ Hwf (step_does b op w Hwf)).
  cbn [count_creates]. lia.
Qed.

(** In the first model:
    after every run, the tasks created are accounted for, each once: the
    number of [createTask] calls is the number of entries of the map, plus
    the number of [cancelTask] calls that returned [true], plus the number
    of calls of callbacks that returned.  No task is lost, and none is in
    the map after it has run or was cancelled. *)
Lemma every_task_accounted (b : Build) (ops : list Op) (t0 : Z) :
  count_creates ops
  = Z.of_nat (length (tasks (this (run b ops (initial t0)).2)))
    + count_cancelled ops (run b ops (initial t0)).1
    + count_returned (log (run b ops (initial t0)).2).
Proof.
  pose proof (settled_run b ops (initial t0) (wf_initial t0)) as H.
  change (settled (initial t0)) with 0 in H. unfold settled in H. lia.
Qed.

(** * The class among the values of a program: properties *)

(** ** What each method does *)

Ltac unfold_full :=
  cbv [Full.bind Full.ret Full.throw Full.fmapM Full.tasks_get Full.tasks_set
       Full.tasks_delete Full.tasks_values Full.nextTaskId_postincr Full.alloc
       Full.load_task Full.assign_targetTime Full.assign_timeoutId Full.Date_now
       Full.getTime Full.setTime Full.setTimeout Full.clearTimeout Full.calling
       Full.set_heap Full.set_dates Full.set_this Full.set_now Full.set_timers
       Full.set_nextHandle Full.set_log];
  cbn [Full.heap Full.dates Full.this Full.now Full.timers Full.nextHandle Full.log
       tasks nextTaskId fst snd].

Lemma full_executeTask_O b i w :
  Full._executeTask b 0 i w = (Full.Throws Full.RangeError, w).
Proof. reflexivity. Qed.

Lemma full_executeTask_absent b n i w :
  JsMap.get i (tasks (Full.this w)) = None ->
  Full._executeTask b (S n) i w = (Full.Returns tt, w).
Proof.
  intros H. cbn [Full._executeTask]. unfold Full._executeTask_body. unfold_full.
  by rewrite H.
Qed.

Lemma full_executeTask_plain b n i w l t cb :
  JsMap.get i (tasks (Full.this w)) = Some l ->
  Full.heap w !! l = Some (Full.TaskObj t) ->
  Full.callback t = Full.Function cb [] ->
  Full._executeTask b (S n) i w =
    if cb_throws cb
    then (Full.Throws (Full.Thrown cb), Full.called i cb w)
    else (Full.Returns tt, Full.deleted i (Full.called i cb w)).
Proof.
  intros H Hl Hcb. cbn [Full._executeTask]. unfold Full._executeTask_body, Full.call.
  unfold_full. rewrite H, Hl, Hcb. cbn [Full.script]. unfold_full.
  by destruct (cb_throws cb).
Qed.

Lemma full_script_setTimes b ex body w :
  forallb Full.is_setTime body = true ->
  exists ds', length ds' = length (Full.dates w) /\
    Full.script b ex body w = (Full.Returns tt, Full.set_dates ds' w).
Proof.
  revert w. induction body as [|c body IH]; intros w Hq.
  - exists (Full.dates w). split; [done|]. cbn. by destruct w.
  - cbn in Hq. apply andb_prop in Hq as [Hc Hq]. destruct c; try done.
    cbn [Full.script Full.cmd]. unfold Full.bind at 1. unfold Full.setTime at 1.
    destruct (IH (Full.set_dates (<[d:=t]> (Full.dates w)) w) Hq) as (ds' & Hlen & ->).
    exists ds'. split; [|done]. rewrite Hlen. cbn. by rewrite length_insert.
Qed.

(** [_executeTask] for a task whose callback makes no call to the manager:
    the callback changes [Date]s at most. *)
Lemma full_executeTask_quiet b n i w l t cb body :
  JsMap.get i (tasks (Full.this w)) = Some l ->
  Full.heap w !! l = Some (Full.TaskObj t) ->
  Full.callback t = Full.Function cb body ->
  forallb Full.is_setTime body = true ->
  exists ds', length ds' = length (Full.dates w) /\
    Full._executeTask b (S n) i w =
      if cb_throws cb
      then (Full.Throws (Full.Thrown cb), Full.set_dates ds' (Full.called i cb w))
      else (Full.Returns tt, Full.deleted i (Full.set_dates ds' (Full.called i cb w))).
Proof.
  intros H Hl Hcb Hq.
  destruct (full_script_setTimes b (Full._executeTask b n) body (Full.called i cb w) Hq)
    as (ds' & Hlen & Hscript).
  exists ds'. split; [done|].
  cbn [Full._executeTask]. unfold Full._executeTask_body, Full.call.
  unfold Full.bind, Full.tasks_get, Full.load_task, Full.calling. rewrite H, Hl, Hcb.
  unfold Full.called in Hscript. rewrite Hscript.
  by destruct (cb_throws cb).
Qed.

Lemma full_executeTask_not_callable b n i w l t :
  JsMap.get i (tasks (Full.this w)) = Some l ->
  Full.heap w !! l = Some (Full.TaskObj t) ->
  (forall cb body, Full.callback t <> Full.Function cb body) ->
  Full._executeTask b (S n) i w = (Full.Throws Full.TypeError, w).
Proof.
  intros H Hl Hcb. cbn [Full._executeTask]. unfold Full._executeTask_body, Full.call.
  unfold_full. rewrite H, Hl. destruct (Full.callback t) as [| | |cb body]; try done.
  by destruct (Hcb cb body).
Qed.

Lemma full_scheduleTask_Esm ex l w t g :
  Full.heap w !! l = Some (Full.TaskObj t) ->
  Full.time_of w (Full.targetTime t) = Some g ->
  Full._scheduleTask Esm ex l w = (Full.Returns tt, Full.armed l (Full.delay_for g w) w).
Proof.
  intros Hl Hg. unfold Full._scheduleTask, Full.delay_for, Full.timeUntil. unfold_full.
  rewrite Hl, Hg. by destruct (js_gt0 _).
Qed.

Lemma full_scheduleTask_Src ex l w t g :
  Full.heap w !! l = Some (Full.TaskObj t) ->
  Full.time_of w (Full.targetTime t) = Some g ->
  Full._scheduleTask Src ex l w =
    if js_gt0 (Full.timeUntil g w)
    then (Full.Returns tt, Full.armed l (Full.timeUntil g w) w)
    else ex (Full.id t) w.
Proof.
  intros Hl Hg. unfold Full._scheduleTask, Full.timeUntil. unfold_full.
  rewrite Hl, Hg. destruct (js_gt0 _); [done|]. by rewrite Hl.
Qed.

Lemma full_scheduleTask_TypeError b ex l w t :
  Full.heap w !! l = Some (Full.TaskObj t) ->
  Full.time_of w (Full.targetTime t) = None ->
  Full._scheduleTask b ex l w = (Full.Throws Full.TypeError, w).
Proof.
  intros Hl Hg. unfold Full._scheduleTask. destruct b; unfold_full; by rewrite Hl, Hg.
Qed.

Lemma full_createTask_unfold b ex v f w :
  Full.createTask b ex v f w =
    match Full._scheduleTask b ex (length (Full.heap w)) (Full.registered v f w) with
    | (Full.Returns _, w') => (Full.Returns (nextTaskId (Full.this w)), w')
    | (Full.Throws e, w') => (Full.Throws e, w')
    end.
Proof. reflexivity. Qed.

Lemma full_registered_lookup v f w :
  Full.heap (Full.registered v f w) !! length (Full.heap w)
  = Some (Full.TaskObj (Full.mkTask (nextTaskId (Full.this w)) v f None)).
Proof. cbn. by rewrite list_lookup_middle. Qed.

Lemma full_cancelTask_absent i w :
  JsMap.get i (tasks (Full.this w)) = None ->
  Full.cancelTask i w = (Full.Returns false, w).
Proof. intros H. unfold Full.cancelTask. unfold_full. by rewrite H. Qed.

Lemma full_cancelTask_present i w l t :
  JsMap.get i (tasks (Full.this w)) = Some l ->
  Full.heap w !! l = Some (Full.TaskObj t) ->
  Full.cancelTask i w
  = (Full.Returns true, Full.deleted i (Full.disarmed (Full.timeoutId t) w)).
Proof.
  intros H Hl. unfold Full.cancelTask. unfold_full. rewrite H, Hl.
  by destruct (Full.timeoutId t).
Qed.

Lemma full_rescheduleTask_absent b ex i v w :
  JsMap.get i (tasks (Full.this w)) = None ->
  Full.rescheduleTask b ex i v w = (Full.Returns false, w).
Proof. intros H. unfold Full.rescheduleTask. unfold_full. by rewrite H. Qed.

Lemma full_rescheduleTask_unfold b ex i v w l t :
  JsMap.get i (tasks (Full.this w)) = Some l ->
  Full.heap w !! l = Some (Full.TaskObj t) ->
  Full.rescheduleTask b ex i v w =
    match Full._scheduleTask b ex l
            (Full.retimed l v (Full.disarmed (Full.timeoutId t) w)) with
    | (Full.Returns _, w') => (Full.Returns true, w')
    | (Full.Throws e, w') => (Full.Throws e, w')
    end.
Proof.
  intros H Hl. unfold Full.rescheduleTask.
  unfold Full.bind at 1. unfold Full.tasks_get at 1. rewrite H.
  unfold Full.bind at 1. unfold Full.load_task at 1. rewrite Hl.
  by destruct (Full.timeoutId t).
Qed.

Lemma full_retimed_lookup l v h w t :
  Full.heap w !! l = Some (Full.TaskObj t) ->
  Full.heap (Full.retimed l v (Full.disarmed h w)) !! l
  = Some (Full.TaskObj (Full.mkTask (Full.id t) v (Full.callback t) (Full.timeoutId t))).
Proof.
  intros Hl. destruct h; unfold Full.retimed, Full.disarmed, Full.set_heap, Full.set_timers;
    cbn [Full.heap]; by rewrite list_lookup_alter_eq, Hl.
Qed.

Lemma full_fire_held b n h w tm t :
  held h (Full.timers w) = Some tm ->
  Full.heap w !! t_task tm = Some (Full.TaskObj t) ->
  Full.fire b n h w = Full._executeTask b n (Full.id t) (Full.disarmed (Some h) w).
Proof.
  intros Hh Hl. unfold Full.fire. rewrite Hh.
  unfold Full.bind at 1. unfold Full.clearTimeout at 1.
  unfold Full.bind at 1. unfold Full.load_task at 1.
  unfold Full.disarmed. cbn [Full.heap Full.set_timers]. by rewrite Hl.
Qed.

Lemma full_fire_not_held b n h w :
  held h (Full.timers w) = None -> Full.fire b n h w = (Full.Returns tt, w).
Proof. intros Hh. unfold Full.fire. by rewrite Hh. Qed.

Lemma full_fmapM_eq {A B} (f : A -> B) (m : Full.M A) w :
  Full.fmapM f m w
  = (match (m w).1 with
     | Full.Returns a => Full.Returns (f a)
     | Full.Throws e => Full.Throws e
     end, (m w).2).
Proof. unfold Full.fmapM, Full.bind, Full.ret. by destruct (m w) as [[]]. Qed.

Lemma full_run_cons b n op ops w :
  Full.run b n (op :: ops) w =
    ((Full.step b n op w).1 :: (Full.run b n ops (Full.step b n op w).2).1,
     (Full.run b n ops (Full.step b n op w).2).2).
Proof. cbn. destruct (Full.step b n op w). cbn. by destruct (Full.run b n ops _). Qed.

(** ** Listing *)

Lemma full_set_heap_app_nil w : Full.set_heap (Full.heap w ++ []) w = w.
Proof. destruct w. unfold Full.set_heap. cbn. by rewrite app_nil_r. Qed.

Lemma full_entry_of_task l w t :
  Full.heap w !! l = Some (Full.TaskObj t) ->
  Full.entry_of l w
  = (Full.Returns (length (Full.heap w)),
     Full.set_heap (Full.heap w ++ [Full.entry_obj t]) w).
Proof.
  intros Hl. unfold Full.entry_of, Full.bind, Full.load_task, Full.alloc. by rewrite Hl.
Qed.

Lemma full_map_each_entry_of vs ts w :
  Forall2 (fun l t => Full.heap w !! l = Some (Full.TaskObj t)) vs ts ->
  Full.map_each Full.entry_of vs w =
    (Full.Returns (seq (length (Full.heap w)) (length vs)),
     Full.set_heap (Full.heap w ++ map Full.entry_obj ts) w).
Proof.
  intros H. revert w H. revert ts. induction vs as [|l vs IH]; intros ts w H.
  - apply Forall2_nil_inv_l in H as ->. cbn. unfold Full.ret.
    by rewrite full_set_heap_app_nil.
  - apply Forall2_cons_inv_l in H as (t & ts' & Hl & Hts & ->).
    cbn [Full.map_each]. unfold Full.bind at 1. rewrite (full_entry_of_task l w t Hl).
    unfold Full.bind at 1. rewrite (IH ts').
    + unfold Full.ret. cbn [Full.set_heap Full.heap length seq map].
      rewrite length_app. cbn [length]. rewrite Nat.add_1_r.
      unfold Full.set_heap.
      cbn [Full.heap Full.dates Full.this Full.now Full.timers Full.nextHandle Full.log].
      by rewrite <- app_assoc.
    + eapply Forall2_impl; [exact Hts|]. cbn. intros l' t' Hl'.
      by apply lookup_app_l_Some.
Qed.

Lemma full_task_objects_values w ts :
  Full.task_objects w ts ->
  Forall2 (fun l t => Full.heap w !! l = Some (Full.TaskObj t))
          (JsMap.values (tasks (Full.this w))) ts.
Proof.
  unfold Full.task_objects, JsMap.values. intros H.
  induction H as [|[k l] t m ts [Hl _] _ IH]; cbn; by constructor.
Qed.

Lemma full_getTasks_eq b w ts :
  Full.task_objects w ts ->
  Full.getTasks b w =
    (Full.Returns (Full.getTasks_array b w ts),
     Full.set_heap (Full.heap w ++ Full.getTasks_objects b w ts) w).
Proof.
  intros Hts. pose proof (full_task_objects_values w ts Hts) as Hvs.
  pose proof (Forall2_length _ _ _ Hvs) as Hlen.
  unfold Full.getTasks. unfold Full.bind at 1. unfold Full.tasks_values at 1. destruct b.
  - unfold Full.bind at 1. rewrite (full_map_each_entry_of _ ts w Hvs).
    unfold Full.alloc, Full.set_heap, Full.getTasks_array, Full.getTasks_objects.
    cbn [Full.heap Full.dates Full.this Full.now Full.timers Full.nextHandle Full.log].
    by rewrite length_app, length_map, <- app_assoc, Hlen.
  - unfold Full.bind at 1. unfold Full.alloc at 1. unfold Full.bind at 1.
    rewrite (full_map_each_entry_of _ ts).
    + unfold Full.alloc, Full.set_heap, Full.getTasks_array, Full.getTasks_objects.
      cbn [Full.heap Full.dates Full.this Full.now Full.timers Full.nextHandle Full.log].
      rewrite !length_app, length_map. cbn [length].
      rewrite <- !app_assoc, Hlen. do 3 f_equal; [lia|].
      do 2 f_equal. by rewrite Nat.add_1_r.
    + eapply Forall2_impl; [exact Hvs|]. cbn. intros l t Hl.
      by apply lookup_app_l_Some.
Qed.



(** ** Well-formed worlds, whatever the program *)

Lemma full_is_task_app h ext l : Full.is_task h l -> Full.is_task (h ++ ext) l.
Proof. intros (t & H). exists t. by apply lookup_app_l_Some. Qed.

Lemma full_task_at_app h ext l k : Full.task_at h l k -> Full.task_at (h ++ ext) l k.
Proof. intros (t & H & Hk). exists t. split; [by apply lookup_app_l_Some | done]. Qed.

Lemma full_is_task_with_timeoutId h x l l' :
  Full.is_task h l -> Full.is_task (alter (Full.with_timeoutId x) l' h) l.
Proof.
  intros (t & H). destruct (decide (l' = l)) as [->|Hne].
  - eexists. by rewrite list_lookup_alter_eq, H.
  - exists t. by rewrite list_lookup_alter_ne.
Qed.

Lemma full_task_at_with_timeoutId h x l l' k :
  Full.task_at h l k -> Full.task_at (alter (Full.with_timeoutId x) l' h) l k.
Proof.
  intros (t & H & Hk). destruct (decide (l' = l)) as [->|Hne].
  - eexists. split; [by rewrite list_lookup_alter_eq, H | done].
  - exists t. split; [by rewrite list_lookup_alter_ne | done].
Qed.

Lemma full_is_task_with_targetTime h d l l' :
  Full.is_task h l -> Full.is_task (alter (Full.with_targetTime d) l' h) l.
Proof.
  intros (t & H). destruct (decide (l' = l)) as [->|Hne].
  - eexists. by rewrite list_lookup_alter_eq, H.
  - exists t. by rewrite list_lookup_alter_ne.
Qed.

Lemma full_task_at_with_targetTime h d l l' k :
  Full.task_at h l k -> Full.task_at (alter (Full.with_targetTime d) l' h) l k.
Proof.
  intros (t & H & Hk). destruct (decide (l' = l)) as [->|Hne].
  - eexists. split; [by rewrite list_lookup_alter_eq, H | done].
  - exists t. split; [by rewrite list_lookup_alter_ne | done].
Qed.

Lemma full_wf_initial t0 ds : Full.wf (Full.initial t0 ds).
Proof.
  split; cbn; try done; try (intros ? H; by apply elem_of_nil in H).
  - apply NoDup_nil_2.
  - intros ? ? H; by apply elem_of_nil in H.
Qed.

Lemma full_wf_get w k l :
  Full.wf w -> JsMap.get k (tasks (Full.this w)) = Some l -> Full.task_at (Full.heap w) l k.
Proof. intros Hwf H. apply (Full.wf_tasks w Hwf). by apply JsMapFacts.get_Some. Qed.

Lemma full_wf_disarmed h w : Full.wf w -> Full.wf (Full.disarmed h w).
Proof.
  intros []. destruct h as [h|]; [|done]. split; cbn; try done.
  intros tm [_ H]%list_elem_of_filter. auto.
Qed.

Lemma full_wf_retimed l d w : Full.wf w -> Full.wf (Full.retimed l d w).
Proof.
  intros []. split; cbn; try done.
  - intros k l' H. apply full_task_at_with_targetTime; auto.
  - intros tm H. apply full_is_task_with_targetTime; auto.
Qed.

Lemma full_wf_armed l d w :
  Full.wf w -> Full.is_task (Full.heap w) l -> Full.wf (Full.armed l d w).
Proof.
  intros [] Hl. split; cbn; try done.
  - intros k l' H. apply full_task_at_with_timeoutId; auto.
  - intros tm [H|H]%elem_of_app; apply full_is_task_with_timeoutId; [auto|].
    apply list_elem_of_singleton in H as ->. done.
Qed.

Lemma full_wf_deleted i w : Full.wf w -> Full.wf (Full.deleted i w).
Proof.
  intros []. split; cbn; try done.
  - intros k [H _]%JsMapFacts.keys_delete. auto.
  - by apply JsMapFacts.NoDup_keys_delete.
  - intros k l [H _]%JsMapFacts.elem_delete. auto.
Qed.

Lemma full_wf_called i cb w : Full.wf w -> Full.wf (Full.called i cb w).
Proof. by intros []. Qed.

Lemma full_wf_registered v f w : Full.wf w -> Full.wf (Full.registered v f w).
Proof.
  intros [Hnext Hkeys Hnodup Htasks Htimers].
  assert (Hfresh : JsMap.get (nextTaskId (Full.this w)) (tasks (Full.this w)) = None).
  { apply JsMapFacts.get_None. intros H%Hkeys. lia. }
  split; cbn; rewrite ?(JsMapFacts.set_fresh _ _ _ Hfresh), ?JsMapFacts.keys_app; cbn.
  - lia.
  - intros k [H|H]%elem_of_app.
    + apply Hkeys in H. lia.
    + apply list_elem_of_singleton in H as ->. lia.
  - apply NoDup_app. split; [done|]. split; [|apply NoDup_singleton].
    intros k Hk ->%list_elem_of_singleton. apply Hkeys in Hk. lia.
  - intros k l [H|H]%elem_of_app.
    + apply full_task_at_app. auto.
    + apply list_elem_of_singleton in H as [= -> ->].
      eexists. split; [apply list_lookup_middle; done | done].
  - intros tm H. apply full_is_task_app. auto.
Qed.

Lemma full_wf_heap_app ext w :
  Full.wf w -> Full.wf (Full.set_heap (Full.heap w ++ ext) w).
Proof.
  intros []. split; cbn; try done.
  - intros k l H. apply full_task_at_app. auto.
  - intros tm H. apply full_is_task_app. auto.
Qed.

Lemma full_wf_set_now n w : Full.wf w -> Full.wf (Full.set_now n w).
Proof. by intros []. Qed.

Lemma full_wf_set_dates ds w : Full.wf w -> Full.wf (Full.set_dates ds w).
Proof. by intros []. Qed.

Lemma full_wf_task_objects w : Full.wf w -> exists ts, Full.task_objects w ts.
Proof.
  intros Hwf. unfold Full.task_objects. pose proof (Full.wf_tasks w Hwf) as H.
  induction (tasks (Full.this w)) as [|[k l] m IH].
  - exists []. constructor.
  - destruct IH as [ts Hts]; [intros k' l' Hin; apply H; by right|].
    destruct (H k l) as (t & Hl & Hk); [left|].
    exists (t :: ts). by constructor.
Qed.

Lemma preserves_bind {A B} P (m : Full.M A) (k : A -> Full.M B) :
  preserves P m -> (forall a, preserves P (k a)) -> preserves P (Full.bind m k).
Proof.
  intros Hm Hk w Hw. unfold Full.bind. specialize (Hm w Hw).
  destruct (m w) as [[a|e] w']; cbn [snd] in *; [by apply Hk | done].
Qed.

Lemma preserves_ret {A} P (a : A) : preserves P (Full.ret a).
Proof. by intros w Hw. Qed.

Lemma preserves_throw {A} P e : preserves P (@Full.throw A e).
Proof. by intros w Hw. Qed.

Lemma full_snd_match_result {A B} (p : Full.Result A * Full.World) (f : A -> Full.Result B) :
  (match p with
   | (Full.Returns a, w') => (f a, w')
   | (Full.Throws e, w') => (Full.Throws e, w')
   end).2 = p.2.
Proof. by destruct p as [[]]. Qed.

Section FullWf.

Variable b : Build.
Variable ex : Z -> Full.M unit.
Hypothesis Hex : forall i, preserves Full.wf (ex i).

Lemma full_wf_scheduleTask l w :
  Full.wf w -> Full.is_task (Full.heap w) l -> Full.wf (Full._scheduleTask b ex l w).2.
Proof.
  intros Hwf [t Hl]. destruct (Full.time_of w (Full.targetTime t)) as [g|] eqn:Hg.
  - destruct b.
    + rewrite (full_scheduleTask_Esm ex l w t g Hl Hg). apply full_wf_armed; [done | by exists t].
    + rewrite (full_scheduleTask_Src ex l w t g Hl Hg). destruct (js_gt0 _).
      * apply full_wf_armed; [done | by exists t].
      * by apply Hex.
  - by rewrite (full_scheduleTask_TypeError b ex l w t Hl Hg).
Qed.

Lemma full_wf_createTask v f : preserves Full.wf (Full.createTask b ex v f).
Proof.
  intros w Hwf. rewrite full_createTask_unfold.
  rewrite (full_snd_match_result _ (fun _ => Full.Returns (nextTaskId (Full.this w)))).
  apply full_wf_scheduleTask; [by apply full_wf_registered|].
  eexists. apply full_registered_lookup.
Qed.

Lemma full_wf_cancelTask i : preserves Full.wf (Full.cancelTask i).
Proof.
  intros w Hwf. destruct (JsMap.get i (tasks (Full.this w))) as [l|] eqn:Hget.
  - destruct (full_wf_get w i l Hwf Hget) as (t & Hl & _).
    rewrite (full_cancelTask_present i w l t Hget Hl). cbn [snd].
    by apply full_wf_deleted, full_wf_disarmed.
  - by rewrite full_cancelTask_absent.
Qed.

Lemma full_wf_rescheduleTask i v : preserves Full.wf (Full.rescheduleTask b ex i v).
Proof.
  intros w Hwf. destruct (JsMap.get i (tasks (Full.this w))) as [l|] eqn:Hget.
  - destruct (full_wf_get w i l Hwf Hget) as (t & Hl & _).
    rewrite (full_rescheduleTask_unfold b ex i v w l t Hget Hl).
    rewrite (full_snd_match_result _ (fun _ => Full.Returns true)).
    apply full_wf_scheduleTask; [by apply full_wf_retimed, full_wf_disarmed|].
    eexists. by apply full_retimed_lookup.
  - by rewrite full_rescheduleTask_absent.
Qed.

Lemma full_wf_getTasks : preserves Full.wf (Full.getTasks b).
Proof.
  intros w Hwf. destruct (full_wf_task_objects w Hwf) as [ts Hts].
  rewrite (full_getTasks_eq b w ts Hts). by apply full_wf_heap_app.
Qed.

Lemma full_wf_setTime d t : preserves Full.wf (Full.setTime d t).
Proof. intros w Hwf. by apply full_wf_set_dates. Qed.

Lemma full_wf_cmd c : preserves Full.wf (Full.cmd b ex c).
Proof.
  destruct c; cbn [Full.cmd]; try (apply preserves_bind; [|intros; apply preserves_ret]).
  - apply full_wf_createTask.
  - apply full_wf_cancelTask.
  - apply full_wf_rescheduleTask.
  - apply full_wf_getTasks.
  - apply full_wf_setTime.
Qed.

Lemma full_wf_script cs : preserves Full.wf (Full.script b ex cs).
Proof.
  induction cs as [|c cs IH]; cbn [Full.script]; [apply preserves_ret|].
  apply preserves_bind; [apply full_wf_cmd | by intros].
Qed.

Lemma full_wf_call i f : preserves Full.wf (Full.call b ex i f).
Proof.
  destruct f as [| | |cb body]; cbn [Full.call]; try apply preserves_throw.
  apply preserves_bind; [intros w Hwf; by apply full_wf_called|]. intros _.
  apply preserves_bind; [apply full_wf_script|]. intros _.
  destruct (cb_throws cb); [apply preserves_throw | apply preserves_ret].
Qed.

Lemma full_wf_executeTask_body i : preserves Full.wf (Full._executeTask_body b ex i).
Proof.
  unfold Full._executeTask_body. apply preserves_bind; [by intros w Hwf|].
  intros [l|]; [|apply preserves_ret].
  apply preserves_bind.
  { intros w Hwf. unfold Full.load_task. by destruct (Full.heap w !! l) as [[]|]. }
  intros t. apply preserves_bind; [apply full_wf_call|]. intros _.
  intros w Hwf. by apply full_wf_deleted.
Qed.

End FullWf.

Lemma full_wf_executeTask b n i : preserves Full.wf (Full._executeTask b n i).
Proof.
  revert i. induction n as [|n IH]; intros i; cbn [Full._executeTask].
  - apply preserves_throw.
  - by apply full_wf_executeTask_body.
Qed.

Lemma full_wf_fire b n h : preserves Full.wf (Full.fire b n h).
Proof.
  intros w Hwf. destruct (held h (Full.timers w)) as [tm|] eqn:Hh.
  - destruct (held_elem _ _ _ Hh) as [Hin _].
    destruct (Full.wf_timers w Hwf tm Hin) as [t Hl].
    rewrite (full_fire_held b n h w tm t Hh Hl).
    apply full_wf_executeTask, (full_wf_disarmed (Some h)), Hwf.
  - by rewrite full_fire_not_held.
Qed.

Lemma full_snd_fmapM {A B} (f : A -> B) (m : Full.M A) w :
  (Full.fmapM f m w).2 = (m w).2.
Proof. unfold Full.fmapM, Full.bind, Full.ret. by destruct (m w) as [[]]. Qed.

Lemma full_wf_step b n op : preserves Full.wf (Full.step b n op).
Proof.
  intros w Hwf. destruct op; cbn [Full.step]; rewrite ?full_snd_fmapM.
  - apply full_wf_createTask; [apply full_wf_executeTask | done].
  - by apply full_wf_cancelTask.
  - apply full_wf_rescheduleTask; [apply full_wf_executeTask | done].
  - by apply full_wf_getTasks.
  - by apply full_wf_setTime.
  - by apply full_wf_set_now.
  - by apply full_wf_fire.
  - by apply full_wf_executeTask.
Qed.

Lemma full_wf_run b n ops w : Full.wf w -> Full.wf (Full.run b n ops w).2.
Proof.
  revert w. induction ops as [|op ops IH]; intros w Hwf; [done|].
  rewrite full_run_cons. cbn [snd]. by apply IH, full_wf_step.
Qed.

Lemma full_reachable_wf b w : Full.reachable b w -> Full.wf w.
Proof. intros (n & t0 & ds & ops & <-). apply full_wf_run, full_wf_initial. Qed.

(** ** The two models side by side *)

Lemma getTime_date_of g : getTime (date_of g) = g.
Proof. by destruct g. Qed.

Lemma sim_task w rw l t :
  sim w rw -> heap w !! l = Some (TaskObj t) ->
  exists t', Full.heap rw !! l = Some (Full.TaskObj t') /\
    Full.id t' = id t /\
    (exists body, Full.callback t' = Full.Function (callback t) body /\
                  forallb Full.is_setTime body = true) /\
    Full.timeoutId t' = timeoutId t.
Proof.
  intros Hs Hl.
  destruct (Forall2_lookup_l _ _ _ _ _ (sim_heap _ _ Hs) Hl) as (o' & Hl' & Ho).
  destruct o' as [t'| |]; try done. by exists t'.
Qed.

Lemma sim_called i cb w rw : sim w rw -> sim (called i cb w) (Full.called i cb rw).
Proof. intros []. split; cbn; congruence. Qed.

Lemma sim_deleted i w rw : sim w rw -> sim (deleted i w) (Full.deleted i rw).
Proof. intros []. split; cbn; congruence. Qed.

Lemma sim_disarmed h w rw : sim w rw -> sim (disarmed h w) (Full.disarmed h rw).
Proof. intros []. destruct h; [|done]. split; cbn; congruence. Qed.

Lemma sim_set_now n w rw : sim w rw -> sim (set_now n w) (Full.set_now n rw).
Proof. intros []. split; cbn; congruence. Qed.

Lemma sim_set_dates ds w rw : sim w rw -> sim w (Full.set_dates ds rw).
Proof. intros []. split; cbn; congruence. Qed.

Lemma sim_heap_app ext ext' w rw :
  sim w rw -> Forall2 sim_obj ext ext' ->
  sim (set_heap (heap w ++ ext) w) (Full.set_heap (Full.heap rw ++ ext') rw).
Proof. intros [] Hext. split; cbn; try congruence. by apply Forall2_app. Qed.

Lemma sim_armed l dl w rw : sim w rw -> sim (armed l dl w) (Full.armed l dl rw).
Proof.
  intros [Hh Ht Hn Htm Hnh Hlg]. split; cbn; try congruence.
  rewrite Hnh. apply Forall2_alter; [done|].
  intros [t| |] [t'| |] _ _; cbn; try done.
  intros (? & ? & ?). done.
Qed.

Lemma sim_retimed l d v w rw : sim w rw -> sim (retimed l d w) (Full.retimed l v rw).
Proof.
  intros []. split; cbn; try congruence.
  apply Forall2_alter; [done|].
  intros [t| |] [t'| |] _ _; cbn; try done.
Qed.

Lemma sim_registered d cb body v w rw :
  forallb Full.is_setTime body = true ->
  sim w rw -> sim (registered d cb w) (Full.registered v (Full.Function cb body) rw).
Proof.
  intros Hq [Hh Ht Hn Htm Hnh Hlg]. pose proof (Forall2_length _ _ _ Hh) as Hlen.
  split; cbn; try congruence.
  apply Forall2_app; [done|]. constructor; [|constructor].
  cbn. rewrite Ht. split; [done|]. split; [by exists body | done].
Qed.

Lemma sim_timeUntil g w rw :
  sim w rw -> timeUntil (date_of g) w = Full.timeUntil g rw.
Proof.
  intros [Hh Ht Hn Htm Hnh Hlg]. unfold timeUntil, Full.timeUntil.
  by rewrite getTime_date_of, Hn.
Qed.

Lemma sim_delay_for g w rw :
  sim w rw -> delay_for (date_of g) w = Full.delay_for g rw.
Proof.
  intros Hs. unfold delay_for, Full.delay_for. by rewrite (sim_timeUntil g w rw Hs).
Qed.

(** [_executeTask] does the same in the two models. *)
Lemma sim_executeTask b n i w rw :
  sim w rw -> wf w ->
  same_result (_executeTask i w).1 (Full._executeTask b (S n) i rw).1 /\
  sim (_executeTask i w).2 (Full._executeTask b (S n) i rw).2 /\
  length (Full.dates (Full._executeTask b (S n) i rw).2) = length (Full.dates rw).
Proof.
  intros Hs Hwf. destruct (JsMap.get i (tasks (this w))) as [l|] eqn:Hget.
  - destruct (wf_get w i l Hwf Hget) as (t & Hl & _).
    destruct (sim_task w rw l t Hs Hl) as (t' & Hl' & _ & (body & Hcb & Hq) & _).
    rewrite (executeTask_present i w l t Hget Hl).
    rewrite (sim_this _ _ Hs) in Hget.
    destruct (full_executeTask_quiet b n i rw l t' (callback t) body Hget Hl' Hcb Hq)
      as (ds' & Hlen & ->).
    destruct (cb_throws (callback t)); cbn [fst snd same_result];
      (split; [done|]); (split; [|done]).
    + by apply sim_set_dates, sim_called.
    + by apply sim_deleted, sim_set_dates, sim_called.
  - rewrite (executeTask_absent i w Hget).
    rewrite (sim_this _ _ Hs) in Hget.
    by rewrite (full_executeTask_absent b n i rw Hget).
Qed.

(** [_scheduleTask] does the same for a task whose [targetTime] is a
    [Date]. *)
Lemma sim_scheduleTask b n l w rw t t' g :
  sim w rw -> wf w ->
  heap w !! l = Some (TaskObj t) ->
  Full.heap rw !! l = Some (Full.TaskObj t') ->
  Full.id t' = id t ->
  Full.time_of rw (Full.targetTime t') = Some g ->
  targetTime t = date_of g ->
  same_result (_scheduleTask b l w).1
              (Full._scheduleTask b (Full._executeTask b (S n)) l rw).1 /\
  sim (_scheduleTask b l w).2 (Full._scheduleTask b (Full._executeTask b (S n)) l rw).2 /\
  length (Full.dates (Full._scheduleTask b (Full._executeTask b (S n)) l rw).2)
  = length (Full.dates rw).
Proof.
  intros Hs Hwf Hl Hl' Hid Hg Ht. destruct b.
  - rewrite (scheduleTask_Esm l w t Hl), (full_scheduleTask_Esm _ l rw t' g Hl' Hg).
    rewrite Ht, (sim_delay_for g w rw Hs). cbn [fst snd same_result].
    split; [done|]. split; [by apply sim_armed | done].
  - rewrite (scheduleTask_Src l w t Hl), (full_scheduleTask_Src _ l rw t' g Hl' Hg).
    rewrite Ht, (sim_timeUntil g w rw Hs).
    destruct (js_gt0 (Full.timeUntil g rw)).
    + cbn [fst snd same_result]. split; [done|]. split; [by apply sim_armed | done].
    + rewrite Hid. by apply sim_executeTask.
Qed.

Lemma is_date_time ds v (rw : Full.World) :
  Full.is_date ds v = true -> length (Full.dates rw) = length ds ->
  exists d g, v = Full.DateRef d /\ Full.dates rw !! d = Some g.
Proof.
  destruct v as [| |d|]; try done. cbn. intros Hd%bool_decide_eq_true Hlen.
  destruct (lookup_lt_is_Some_2 (Full.dates rw) d) as [g Hg]; [lia|]. by exists d, g.
Qed.

Lemma is_plain_inv f :
  Full.is_plain f = true ->
  exists cb body, f = Full.Function cb body /\ forallb Full.is_setTime body = true.
Proof. destruct f as [| | |cb body]; try done. intros Hq. by exists cb, body. Qed.

Lemma map_result_same {A B} (f : A -> B) (r : Result A) (r' : Full.Result A) :
  same_result r r' ->
  same_result (map_result f r)
    (match r' with
     | Full.Returns a => Full.Returns (f a)
     | Full.Throws e => Full.Throws e
     end).
Proof.
  destruct r as [a|[cb|]], r' as [a'|[cb'| |]]; cbn; try done. by intros ->.
Qed.

Lemma same_result_match {A B} (p : Result A * World) (p' : Full.Result A * Full.World)
    (c c' : B) :
  c = c' ->
  same_result p.1 p'.1 ->
  same_result
    (match p with
     | (Ok _, w') => (Ok c, w')
     | (Raise e, w') => (Raise e, w')
     end).1
    (match p' with
     | (Full.Returns _, w') => (Full.Returns c', w')
     | (Full.Throws e, w') => (Full.Throws e, w')
     end).1.
Proof. intros <-. destruct p as [[a|[cb|]] w], p' as [[a'|[cb'| |]] w']; cbn; done. Qed.

Lemma sim_createTask b n d g cb body w rw :
  forallb Full.is_setTime body = true ->
  sim w rw -> wf w -> Full.dates rw !! d = Some g ->
  same_result (createTask b (date_of g) cb w).1
    (Full.createTask b (Full._executeTask b (S n)) (Full.DateRef d)
       (Full.Function cb body) rw).1 /\
  sim (createTask b (date_of g) cb w).2
    (Full.createTask b (Full._executeTask b (S n)) (Full.DateRef d)
       (Full.Function cb body) rw).2 /\
  length (Full.dates (Full.createTask b (Full._executeTask b (S n)) (Full.DateRef d)
                        (Full.Function cb body) rw).2) = length (Full.dates rw).
Proof.
  intros Hq Hs Hwf Hg. rewrite createTask_unfold, full_createTask_unfold.
  pose proof (Forall2_length _ _ _ (sim_heap _ _ Hs)) as Hlen.
  pose proof (sim_registered (date_of g) cb body (Full.DateRef d) w rw Hq Hs) as Hs1.
  pose proof (registered_lookup (date_of g) cb w) as Hl.
  pose proof (full_registered_lookup (Full.DateRef d) (Full.Function cb body) rw) as Hl'.
  rewrite <- Hlen in Hl' |- *.
  destruct (sim_scheduleTask b n (length (heap w)) _ _ _ _ g Hs1
              (wf_registered _ cb w Hwf) Hl Hl') as (Hr & Hw & Hd).
  { cbn. by rewrite (sim_this _ _ Hs). }
  { done. }
  { done. }
  split; [apply same_result_match; [by rewrite (sim_this _ _ Hs) | done]|].
  rewrite (snd_match_result _ (fun _ => Ok (nextTaskId (this w)))).
  rewrite (full_snd_match_result _ (fun _ => Full.Returns (nextTaskId (Full.this rw)))).
  split; [done|]. by rewrite Hd.
Qed.

Lemma sim_cancelTask i w rw :
  sim w rw -> wf w ->
  same_result (cancelTask i w).1 (Full.cancelTask i rw).1 /\
  sim (cancelTask i w).2 (Full.cancelTask i rw).2 /\
  length (Full.dates (Full.cancelTask i rw).2) = length (Full.dates rw).
Proof.
  intros Hs Hwf. destruct (JsMap.get i (tasks (this w))) as [l|] eqn:Hget.
  - destruct (wf_get w i l Hwf Hget) as (t & Hl & _).
    destruct (sim_task w rw l t Hs Hl) as (t' & Hl' & _ & _ & Hh).
    rewrite (cancelTask_present i w l t Hget Hl).
    rewrite (sim_this _ _ Hs) in Hget.
    rewrite (full_cancelTask_present i rw l t' Hget Hl'), Hh. cbn [fst snd same_result].
    split; [done|]. split; [by apply sim_deleted, sim_disarmed|].
    by destruct (timeoutId t).
  - rewrite (cancelTask_absent i w Hget).
    rewrite (sim_this _ _ Hs) in Hget.
    by rewrite (full_cancelTask_absent i rw Hget).
Qed.

Lemma sim_rescheduleTask b n i d g w rw :
  sim w rw -> wf w -> Full.dates rw !! d = Some g ->
  same_result (rescheduleTask b i (date_of g) w).1
    (Full.rescheduleTask b (Full._executeTask b (S n)) i (Full.DateRef d) rw).1 /\
  sim (rescheduleTask b i (date_of g) w).2
    (Full.rescheduleTask b (Full._executeTask b (S n)) i (Full.DateRef d) rw).2 /\
  length (Full.dates
            (Full.rescheduleTask b (Full._executeTask b (S n)) i (Full.DateRef d) rw).2)
  = length (Full.dates rw).
Proof.
  intros Hs Hwf Hg. destruct (JsMap.get i (tasks (this w))) as [l|] eqn:Hget.
  - destruct (wf_get w i l Hwf Hget) as (t & Hl & Hid).
    destruct (sim_task w rw l t Hs Hl) as (t' & Hl' & Hid' & _ & Hh).
    rewrite (rescheduleTask_unfold b i (date_of g) w l t Hget Hl).
    rewrite (sim_this _ _ Hs) in Hget.
    rewrite (full_rescheduleTask_unfold b _ i (Full.DateRef d) rw l t' Hget Hl'), Hh.
    pose proof (sim_retimed l (date_of g) (Full.DateRef d) _ _
                  (sim_disarmed (timeoutId t) w rw Hs)) as Hs1.
    pose proof (retimed_lookup l (date_of g) (timeoutId t) w t Hl) as Hl1.
    pose proof (full_retimed_lookup l (Full.DateRef d) (timeoutId t) rw t' Hl') as Hl1'.
    destruct (sim_scheduleTask b n l _ _ _ _ g Hs1
                (wf_retimed l _ _ (wf_disarmed (timeoutId t) w Hwf)) Hl1 Hl1')
      as (Hr & Hw & Hd).
    { done. }
    { cbn. by destruct (timeoutId t). }
    { done. }
    split; [by apply same_result_match|].
    rewrite (snd_match_result _ (fun _ => Ok true)).
    rewrite (full_snd_match_result _ (fun _ => Full.Returns true)).
    split; [done|]. rewrite Hd. by destruct (timeoutId t).
  - rewrite (rescheduleTask_absent b i _ w Hget).
    rewrite (sim_this _ _ Hs) in Hget.
    by rewrite (full_rescheduleTask_absent b _ i _ rw Hget).
Qed.

Lemma sim_task_objects w rw ts :
  sim w rw -> task_objects w ts ->
  exists ts', Full.task_objects rw ts' /\ length ts' = length ts.
Proof.
  intros Hs. unfold task_objects, Full.task_objects. rewrite <- (sim_this _ _ Hs).
  induction 1 as [|[k l] t m ts [Hl Hk] _ (ts' & IH & Hlen)].
  - exists []. split; [constructor | done].
  - destruct (sim_task w rw l t Hs Hl) as (t' & Hl' & Hid & _).
    exists (t' :: ts'). split; [|cbn; by rewrite Hlen].
    constructor; [|done]. split; [done | by rewrite Hid].
Qed.

Lemma sim_entries ts ts' :
  length ts' = length ts ->
  Forall2 sim_obj (map entry_obj ts) (map Full.entry_obj ts').
Proof.
  revert ts'. induction ts as [|t ts IH]; intros [|t' ts'] Hlen; try done; cbn.
  constructor; [done|]. apply IH. by injection Hlen.
Qed.

Lemma sim_getTasks b w rw :
  sim w rw -> wf w ->
  same_result (map_result VRef (getTasks b w).1)
    (match (Full.getTasks b rw).1 with
     | Full.Returns a => Full.Returns (VRef a)
     | Full.Throws e => Full.Throws e
     end) /\
  sim (getTasks b w).2 (Full.getTasks b rw).2 /\
  length (Full.dates (Full.getTasks b rw).2) = length (Full.dates rw).
Proof.
  intros Hs Hwf. destruct (wf_task_objects w Hwf) as [ts Hts].
  destruct (sim_task_objects w rw ts Hs Hts) as (ts' & Hts' & Hlen).
  pose proof (Forall2_length _ _ _ (sim_heap _ _ Hs)) as Hh.
  rewrite (getTasks_eq b w ts Hts), (full_getTasks_eq b rw ts' Hts').
  cbn [fst snd map_result same_result]. split; [|split; [|done]].
  - f_equal. destruct b; cbn; lia.
  - apply sim_heap_app; [done|]. destruct b; cbn [getTasks_objects Full.getTasks_objects].
    + apply Forall2_app; [by apply sim_entries|]. constructor; [done | constructor].
    + constructor; [done|].
      apply Forall2_app; [by apply sim_entries|]. constructor; [done | constructor].
Qed.

Lemma sim_fire b n h w rw :
  sim w rw -> wf w ->
  same_result (fire h w).1 (Full.fire b (S n) h rw).1 /\
  sim (fire h w).2 (Full.fire b (S n) h rw).2 /\
  length (Full.dates (Full.fire b (S n) h rw).2) = length (Full.dates rw).
Proof.
  intros Hs Hwf. destruct (held h (timers w)) as [tm|] eqn:Hh.
  - destruct (held_elem _ _ _ Hh) as [Hin _].
    destruct (wf_timers w Hwf tm Hin) as [t Hl].
    destruct (sim_task w rw (t_task tm) t Hs Hl) as (t' & Hl' & Hid & _).
    rewrite (fire_held h w tm t Hh Hl).
    rewrite (sim_timers _ _ Hs) in Hh.
    rewrite (full_fire_held b (S n) h rw tm t' Hh Hl'), Hid.
    destruct (sim_executeTask b n (id t) _ _ (sim_disarmed (Some h) w rw Hs)
                (wf_disarmed (Some h) w Hwf)) as (Hr & Hw & Hd).
    split; [done|]. split; [done|]. by rewrite Hd.
  - rewrite (fire_not_held h w Hh).
    rewrite (sim_timers _ _ Hs) in Hh.
    by rewrite (full_fire_not_held b (S n) h rw Hh).
Qed.

Lemma run_one b op w : run b [op] w = ([(step b op w).1], (step b op w).2).
Proof. by rewrite run_cons. Qed.

(** One operation of a program that keeps to dates and to callbacks that
    leave the manager alone does in [Full] what it does in the first
    model. *)
Lemma sim_step b n ds op w rw :
  sim w rw -> wf w ->
  Full.proper ds op = true ->
  length (Full.dates rw) = length ds ->
  same_results (run b (lower rw op) w).1 (Full.step b (S n) op rw).1 /\
  sim (run b (lower rw op) w).2 (Full.step b (S n) op rw).2 /\
  length (Full.dates (Full.step b (S n) op rw).2) = length ds.
Proof.
  intros Hs Hwf Hp Hlen. destruct op as [v f|i|i v| |d t|ms|h|i]; cbn [Full.proper] in Hp.
  - apply andb_prop in Hp as [Hv Hf].
    destruct (is_date_time ds v rw Hv Hlen) as (d & g & -> & Hg).
    destruct (is_plain_inv f Hf) as (cb & body & -> & Hq).
    cbn [lower]. rewrite Hg, run_one. cbn [step Full.step fst snd same_results].
    rewrite fmapM_eq, full_fmapM_eq. cbn [fst snd].
    destruct (sim_createTask b n d g cb body w rw Hq Hs Hwf Hg) as (Hr & Hw & Hd).
    split; [by apply map_result_same|]. split; [done|]. by rewrite Hd.
  - cbn [lower]. rewrite run_one. cbn [step Full.step fst snd same_results].
    rewrite fmapM_eq, full_fmapM_eq. cbn [fst snd].
    destruct (sim_cancelTask i w rw Hs Hwf) as (Hr & Hw & Hd).
    split; [by apply map_result_same|]. split; [done|]. by rewrite Hd.
  - destruct (is_date_time ds v rw Hp Hlen) as (d & g & -> & Hg).
    cbn [lower]. rewrite Hg, run_one. cbn [step Full.step fst snd same_results].
    rewrite fmapM_eq, full_fmapM_eq. cbn [fst snd].
    destruct (sim_rescheduleTask b n i d g w rw Hs Hwf Hg) as (Hr & Hw & Hd).
    split; [by apply map_result_same|]. split; [done|]. by rewrite Hd.
  - cbn [lower]. rewrite run_one. cbn [step Full.step fst snd same_results].
    rewrite fmapM_eq, full_fmapM_eq. cbn [fst snd].
    destruct (sim_getTasks b w rw Hs Hwf) as (Hr & Hw & Hd).
    split; [done|]. split; [done|]. by rewrite Hd.
  - cbn [lower run Full.step fst snd same_results].
    split; [done|]. split; [by apply sim_set_dates|].
    cbn. by rewrite length_insert.
  - cbn [lower]. rewrite run_one. cbn [step Full.step fst snd same_results same_result].
    split; [done|]. split; [|done].
    rewrite <- (sim_now _ _ Hs). by apply sim_set_now.
  - cbn [lower]. rewrite run_one. cbn [step Full.step fst snd same_results].
    rewrite fmapM_eq, full_fmapM_eq. cbn [fst snd].
    destruct (sim_fire b n h w rw Hs Hwf) as (Hr & Hw & Hd).
    split; [by apply map_result_same|]. split; [done|]. by rewrite Hd.
  - cbn [lower]. rewrite run_one. cbn [step Full.step fst snd same_results].
    rewrite fmapM_eq, full_fmapM_eq. cbn [fst snd].
    destruct (sim_executeTask b n i w rw Hs Hwf) as (Hr & Hw & Hd).
    split; [by apply map_result_same|]. split; [done|]. by rewrite Hd.
Qed.

Lemma sim_initial t0 ds : sim (initial t0) (Full.initial t0 ds).
Proof. by split. Qed.

(** A run of such a program ends in [Full] as the run of its operations
    ends in the first model. *)
Lemma sim_run b n ds ops w rw :
  sim w rw -> wf w ->
  Forall (fun op => Full.proper ds op = true) ops ->
  length (Full.dates rw) = length ds ->
  sim (run b (lower_run b (S n) ops rw) w).2 (Full.run b (S n) ops rw).2 /\
  length (Full.dates (Full.run b (S n) ops rw).2) = length ds.
Proof.
  revert w rw. induction ops as [|op ops IH]; intros w rw Hs Hwf Hp Hlen; [done|].
  apply Forall_cons in Hp as [Hop Hp].
  cbn [lower_run]. rewrite run_app, full_run_cons. cbn [snd].
  destruct (sim_step b n ds op w rw Hs Hwf Hop Hlen) as (_ & Hw & Hd).
  apply IH; [done | by apply wf_run | done | done].
Qed.

Lemma lower_by_timers w op :
  Full.is_execute op = false -> Forall (fun op => is_execute op = false) (lower w op).
Proof.
  destruct op as [[| |d|] [| | |cb body]|i|i [| |d|]| |d t|ms|h|i]; cbn; try done;
    try (intros _; by repeat constructor);
    intros _; destruct (Full.dates w !! d); by repeat constructor.
Qed.

Lemma lower_run_by_timers b n ops w :
  Full.by_timers ops -> by_timers (lower_run b n ops w).
Proof.
  unfold Full.by_timers, by_timers. revert w.
  induction ops as [|op ops IH]; intros w Hops; [constructor|].
  apply Forall_cons in Hops as [Hop Hops]. cbn [lower_run].
  apply Forall_app. split; [by apply lower_by_timers | by apply IH].
Qed.

(** ** Timers and their tasks, for every program *)

Lemma sim_run_initial b n ds ops t0 :
  Forall (fun op => Full.proper ds op = true) ops ->
  sim (run b (lower_run b (S n) ops (Full.initial t0 ds)) (initial t0)).2
      (Full.run b (S n) ops (Full.initial t0 ds)).2 /\
  length (Full.dates (Full.run b (S n) ops (Full.initial t0 ds)).2) = length ds.
Proof.
  intros Hp. by apply (sim_run b n ds); [apply sim_initial | apply wf_initial | |].
Qed.




(** ** Exceptions, for every value *)

Lemma full_time_of_registered v' f w v :
  Full.time_of (Full.registered v' f w) v = Full.time_of w v.
Proof. by destruct v. Qed.

Lemma full_time_of_retimed l v' h w v :
  Full.time_of (Full.retimed l v' (Full.disarmed h w)) v = Full.time_of w v.
Proof. destruct v; try done. by destruct h. Qed.

Lemma full_timeUntil_registered g v f w :
  Full.timeUntil g (Full.registered v f w) = Full.timeUntil g w.
Proof. reflexivity. Qed.

Lemma full_timeUntil_retimed g l v h w :
  Full.timeUntil g (Full.retimed l v (Full.disarmed h w)) = Full.timeUntil g w.
Proof. by destruct h. Qed.

Lemma full_createTask_TypeError b ex v f w :
  Full.time_of w v = None ->
  Full.createTask b ex v f w = (Full.Throws Full.TypeError, Full.registered v f w).
Proof.
  intros Hv. rewrite full_createTask_unfold.
  rewrite (full_scheduleTask_TypeError b ex _ _ _ (full_registered_lookup v f w)); [done|].
  cbn [Full.targetTime]. by rewrite full_time_of_registered.
Qed.

Lemma full_createTask_Esm ex v f w g :
  Full.time_of w v = Some g ->
  Full.createTask Esm ex v f w =
    (Full.Returns (nextTaskId (Full.this w)),
     Full.armed (length (Full.heap w)) (Full.delay_for g w) (Full.registered v f w)).
Proof.
  intros Hv. rewrite full_createTask_unfold.
  rewrite (full_scheduleTask_Esm ex _ _ _ g (full_registered_lookup v f w)); [done|].
  cbn [Full.targetTime]. by rewrite full_time_of_registered.
Qed.

Lemma full_createTask_Src ex v f w g :
  Full.time_of w v = Some g ->
  Full.createTask Src ex v f w =
    if js_gt0 (Full.timeUntil g w)
    then (Full.Returns (nextTaskId (Full.this w)),
          Full.armed (length (Full.heap w)) (Full.timeUntil g w) (Full.registered v f w))
    else
      match ex (nextTaskId (Full.this w)) (Full.registered v f w) with
      | (Full.Returns _, w') => (Full.Returns (nextTaskId (Full.this w)), w')
      | (Full.Throws e, w') => (Full.Throws e, w')
      end.
Proof.
  intros Hv. rewrite full_createTask_unfold.
  rewrite (full_scheduleTask_Src ex _ _ _ g (full_registered_lookup v f w));
    [|cbn [Full.targetTime]; by rewrite full_time_of_registered].
  rewrite full_timeUntil_registered. by destruct (js_gt0 (Full.timeUntil g w)).
Qed.

Lemma full_reachable_initial b t0 ds : Full.reachable b (Full.initial t0 ds).
Proof. by exists 0%nat, t0, ds, []. Qed.

(** C7 (as amended): [createTask] raises a [TypeError] in both versions when
    [targetTime] is not a [Date], after it has put the task in the map and
    before any timer is taken.  When [targetTime] is a [Date] (ahead, past
    or invalid), [createTask] of [Esm] returns the next identifier for every
    callback value; [createTask] of [Src] returns it when the [Date] is
    ahead, and otherwise calls the callback at once: it returns when the
    callback returns, raises what the callback raises, and raises a
    [TypeError] when the callback is not a function (in general it returns
    when [_executeTask] for the new task returns, and raises what that
    raises).  In a world a run has reached, [cancelTask] returns a boolean,
    [false] exactly when the identifier is not in the map, and never raises;
    [rescheduleTask] returns [false] for an identifier that is not in the
    map, and for one that is in the map it does as [createTask]: a
    [TypeError] when the new time is not a [Date], [true] in [Esm] and for a
    [Date] ahead, and in [Src] for a [Date] that is not ahead what the call
    of the callback gives, a [TypeError] when the callback is not a
    function. *)
Theorem createTask_returns
    (b : Build) (n : nat) (w : Full.World) (v f : Full.JsValue) (cb : Callback) (i : Z) :
  (Full.time_of w v = None ->
     Full.createTask b (Full._executeTask b n) v f w
     = (Full.Throws Full.TypeError, Full.registered v f w)) /\
  (forall g, Full.time_of w v = Some g ->
     (Full.createTask Esm (Full._executeTask Esm n) v f w).1
     = Full.Returns (nextTaskId (Full.this w)) /\
     (js_gt0 (Full.timeUntil g w) = true ->
        (Full.createTask Src (Full._executeTask Src n) v f w).1
        = Full.Returns (nextTaskId (Full.this w))) /\
     (js_gt0 (Full.timeUntil g w) = false ->
        (Full.createTask Src (Full._executeTask Src n) v f w).1
        = match (Full._executeTask Src n (nextTaskId (Full.this w))
                   (Full.registered v f w)).1 with
          | Full.Returns _ => Full.Returns (nextTaskId (Full.this w))
          | Full.Throws e => Full.Throws e
          end /\
        (Full.createTask Src (Full._executeTask Src (S n)) v (Full.Function cb []) w).1
        = (if cb_throws cb then Full.Throws (Full.Thrown cb)
           else Full.Returns (nextTaskId (Full.this w))) /\
        ((forall cb' body, f <> Full.Function cb' body) ->
           (Full.createTask Src (Full._executeTask Src (S n)) v f w).1
           = Full.Throws Full.TypeError))) /\
  (Full.reachable b w ->
     (Full.cancelTask i w).1
     = Full.Returns (if JsMap.get i (tasks (Full.this w)) is Some _ then true else false)) /\
  (Full.reachable b w ->
     (JsMap.get i (tasks (Full.this w)) = None ->
        (Full.rescheduleTask b (Full._executeTask b n) i v w).1 = Full.Returns false) /\
     (forall l t,
        JsMap.get i (tasks (Full.this w)) = Some l ->
        Full.heap w !! l = Some (Full.TaskObj t) ->
        (Full.time_of w v = None ->
           (Full.rescheduleTask b (Full._executeTask b n) i v w).1
           = Full.Throws Full.TypeError) /\
        (forall g, Full.time_of w v = Some g ->
           (b = Esm \/ js_gt0 (Full.timeUntil g w) = true ->
              (Full.rescheduleTask b (Full._executeTask b n) i v w).1
              = Full.Returns true) /\
           (js_gt0 (Full.timeUntil g w) = false ->
              (Full.callback t = Full.Function cb [] ->
                 (Full.rescheduleTask Src (Full._executeTask Src (S n)) i v w).1
                 = (if cb_throws cb then Full.Throws (Full.Thrown cb)
                    else Full.Returns true)) /\
              ((forall cb' body, Full.callback t <> Full.Function cb' body) ->
                 (Full.rescheduleTask Src (Full._executeTask Src (S n)) i v w).1
                 = Full.Throws Full.TypeError))))).
Proof.
  split; [intros Hv; by apply full_createTask_TypeError|]. split.
  { intros g Hv. split; [by rewrite (full_createTask_Esm _ v f w g Hv)|]. split.
    - intros Hgt. by rewrite (full_createTask_Src _ v f w g Hv), Hgt.
    - intros Hgt. split; [|split].
      + rewrite (full_createTask_Src _ v f w g Hv), Hgt.
        by destruct (Full._executeTask Src n _ _) as [[]].
      + rewrite (full_createTask_Src _ v _ w g Hv), Hgt.
        rewrite (full_executeTask_plain Src n (nextTaskId (Full.this w))
                   (Full.registered v (Full.Function cb []) w) (length (Full.heap w)) _ cb
                   (JsMapFacts.get_set_eq _ _ _) (full_registered_lookup _ _ w) eq_refl).
        by destruct (cb_throws cb).
      + intros Hf. rewrite (full_createTask_Src _ v f w g Hv), Hgt.
        by rewrite (full_executeTask_not_callable Src n (nextTaskId (Full.this w))
                      (Full.registered v f w) (length (Full.heap w)) _
                      (JsMapFacts.get_set_eq _ _ _) (full_registered_lookup _ _ w) Hf). }
  split.
  { intros Hwf%full_reachable_wf.
    destruct (JsMap.get i (tasks (Full.this w))) as [l|] eqn:Hget.
    - destruct (full_wf_get w i l Hwf Hget) as (t & Hl & _).
      by rewrite (full_cancelTask_present i w l t Hget Hl).
    - by rewrite full_cancelTask_absent. }
  intros Hwf%full_reachable_wf. split.
  { intros Hget. by rewrite full_rescheduleTask_absent. }
  intros l t Hget Hl.
  destruct (full_wf_get w i l Hwf Hget) as (t' & Hl' & Hid).
  assert (t' = t) as -> by congruence.
  pose proof (full_retimed_lookup l v (Full.timeoutId t) w t Hl) as Hl1.
  split.
  { intros Hv. rewrite (full_rescheduleTask_unfold b _ i v w l t Hget Hl).
    rewrite (full_scheduleTask_TypeError b _ l _ _ Hl1); [done|].
    cbn [Full.targetTime]. by rewrite full_time_of_retimed. }
  intros g Hv.
  assert (Hv1 : Full.time_of (Full.retimed l v (Full.disarmed (Full.timeoutId t) w))
                  (Full.targetTime
                     (Full.mkTask (Full.id t) v (Full.callback t) (Full.timeoutId t)))
                = Some g) by (cbn [Full.targetTime]; by rewrite full_time_of_retimed).
  split.
  { intros Harm. rewrite (full_rescheduleTask_unfold b _ i v w l t Hget Hl).
    destruct b.
    - by rewrite (full_scheduleTask_Esm _ l _ _ g Hl1 Hv1).
    - destruct Harm as [|Hgt]; [done|].
      rewrite (full_scheduleTask_Src _ l _ _ g Hl1 Hv1).
      by rewrite full_timeUntil_retimed, Hgt. }
  intros Hgt.
  assert (Hget1 : JsMap.get i
            (tasks (Full.this (Full.retimed l v (Full.disarmed (Full.timeoutId t) w))))
          = Some l) by (by destruct (Full.timeoutId t)).
  split.
  - intros Hcb. rewrite (full_rescheduleTask_unfold Src _ i v w l t Hget Hl).
    rewrite (full_scheduleTask_Src _ l _ _ g Hl1 Hv1).
    rewrite full_timeUntil_retimed, Hgt. cbn [Full.id]. rewrite Hid.
    rewrite (full_executeTask_plain Src n i _ l _ cb Hget1 Hl1 Hcb).
    by destruct (cb_throws cb).
  - intros Hcb. rewrite (full_rescheduleTask_unfold Src _ i v w l t Hget Hl).
    rewrite (full_scheduleTask_Src _ l _ _ g Hl1 Hv1).
    rewrite full_timeUntil_retimed, Hgt. cbn [Full.id]. rewrite Hid.
    by rewrite (full_executeTask_not_callable Src n i _ l _ Hget1 Hl1 Hcb).
Qed.

(** [Esm] accepts an invalid [Date] and a callback that raises; a
    [targetTime] that is [undefined] makes [createTask] raise; cancelling an
    identifier never given out returns [false]. *)
Lemma createTask_returns_witness :
  (Full.createTask Esm (Full._executeTask Esm 0) (Full.DateRef 0)
     (Full.Function cb_bad []) (Full.initial 0 [NaN])).1 = Full.Returns 1
  /\ (Full.createTask Esm (Full._executeTask Esm 0) Full.Undefined
        (Full.Function cb_ok []) (Full.initial 0 [NaN])).1 = Full.Throws Full.TypeError
  /\ (Full.cancelTask 4 (Full.initial 0 [NaN])).1 = Full.Returns false.
Proof.
  split; [|split].
  - apply (proj1 (proj2 (createTask_returns Esm 0 (Full.initial 0 [NaN]) (Full.DateRef 0)
                          (Full.Function cb_bad []) cb_bad 4)) NaN eq_refl).
  - rewrite (proj1 (createTask_returns Esm 0 (Full.initial 0 [NaN]) Full.Undefined
                      (Full.Function cb_ok []) cb_ok 4) eq_refl).
    reflexivity.
  - apply (proj1 (proj2 (proj2 (createTask_returns Esm 0 (Full.initial 0 [NaN])
                                  Full.Undefined Full.Undefined cb_ok 4)))).
    apply full_reachable_initial.
Defined.

(** [createTask] raises in both versions for a [targetTime] that is not a
    [Date]; and in [Src], for a [Date] in the past and a callback that
    raises. *)
Lemma createTask_raises :
  ~ (forall (b : Build) (n : nat) (w : Full.World) (v f : Full.JsValue),
       Full.reachable b w ->
       exists i, (Full.createTask b (Full._executeTask b n) v f w).1 = Full.Returns i) /\
  ~ (forall (b : Build) (n : nat) (w : Full.World) (d : loc) (g : JsNumber) (cb : Callback),
       Full.reachable b w ->
       Full.dates w !! d = Some g ->
       exists i,
         (Full.createTask b (Full._executeTask b (S n)) (Full.DateRef d)
            (Full.Function cb []) w).1 = Full.Returns i).
Proof.
  split.
  - intros H.
    destruct (H Esm 1%nat (Full.initial 0 []) Full.Undefined (Full.Function cb_ok []))
      as [i Hi]; [apply full_reachable_initial|]. discriminate Hi.
  - intros H.
    destruct (H Src 0%nat (Full.initial 0 [Num (-1000)]) 0%nat (Num (-1000)) cb_bad)
      as [i Hi]; [apply full_reachable_initial | done |]. discriminate Hi.
Qed.

(** ** Listing, with [Date] objects *)





(** * Further properties, for every program *)

Lemma sim_task_r w rw l t' :
  sim w rw -> Full.heap rw !! l = Some (Full.TaskObj t') ->
  exists t, heap w !! l = Some (TaskObj t) /\
    Full.id t' = id t /\
    (exists body, Full.callback t' = Full.Function (callback t) body /\
                  forallb Full.is_setTime body = true) /\
    Full.timeoutId t' = timeoutId t.
Proof.
  intros Hs Hl.
  destruct (Forall2_lookup_r _ _ _ _ _ (sim_heap _ _ Hs) Hl) as (o & Hl' & Ho).
  destruct o as [t| |]; try done. by exists t.
Qed.

Lemma lower_kind ds op rw :
  Full.proper ds op = true ->
  length (Full.dates rw) = length ds ->
  (lower rw op = [] /\ exists d t, op = Full.SetTime d t) \/
  (exists pop, lower rw op = [pop] /\ same_kind pop op).
Proof.
  intros Hp Hlen. destruct op as [v f|i|i v| |d t|ms|h|i]; cbn [Full.proper] in Hp.
  - apply andb_prop in Hp as [Hv Hf].
    destruct (is_date_time ds v rw Hv Hlen) as (d & g & -> & Hg).
    destruct (is_plain_inv f Hf) as (cb & body & -> & _).
    right. cbn [lower]. rewrite Hg. eexists. split; [done|]. by exists body.
  - right. by eexists.
  - destruct (is_date_time ds v rw Hp Hlen) as (d & g & -> & Hg).
    right. cbn [lower]. rewrite Hg. by eexists.
  - right. by eexists.
  - left. split; [done|]. by exists d, t.
  - right. by eexists.
  - right. by eexists.
  - right. by eexists.
Qed.

Lemma lower_run_creates b n ops rw d cb :
  CreateTask d cb ∈ lower_run b n ops rw ->
  exists v body, Full.CreateTask v (Full.Function cb body) ∈ ops.
Proof.
  revert rw. induction ops as [|op ops IH]; intros rw; cbn [lower_run].
  - intros H. by apply elem_of_nil in H.
  - intros [H|H]%elem_of_app.
    + exists (match op with Full.CreateTask v _ => v | _ => Full.Undefined end),
             (match op with Full.CreateTask _ (Full.Function _ body) => body | _ => [] end).
      destruct op as [[| |d'|] [| | |cb' body]|i|i [| |d'|]| |d' t|ms|h|i];
        cbn [lower] in H; try (by apply elem_of_nil in H);
        try destruct (Full.dates rw !! d');
        try (by apply elem_of_nil in H);
        apply list_elem_of_singleton in H; try done.
      injection H as -> ->. left.
    + destruct (IH _ H) as (v & body & Hin). exists v, body. by right.
Qed.

(** ** Exceptions *)



(** ** A timer that fires *)



(** ** The tasks that are waiting *)

(** X11: take a program that gives [Date] objects as [targetTime]s and, as
    callbacks, functions that do not call the manager and do not raise, and
    in which [_executeTask] is run by timers only.  After a run of it, a
    task is in the map exactly when a timer is held for it: the map lists
    the tasks that are waiting, and nothing else. *)
Theorem tasks_are_the_waiting_ones
    (b : Build) (n : nat) (ds : list JsNumber) (ops : list Full.Op) (t0 : Z)
    (i : Z) (l : loc) :
  Forall (fun op => Full.proper ds op = true) ops ->
  Full.by_timers ops ->
  (forall v cb body,
     Full.CreateTask v (Full.Function cb body) ∈ ops -> cb_throws cb = false) ->
  JsMap.get i (tasks (Full.this (Full.run b (S n) ops (Full.initial t0 ds)).2)) = Some l <->
  exists tm t, tm ∈ Full.timers (Full.run b (S n) ops (Full.initial t0 ds)).2 /\
    t_task tm = l /\
    Full.heap (Full.run b (S n) ops (Full.initial t0 ds)).2 !! l = Some (Full.TaskObj t) /\
    Full.id t = i.
Proof.
  intros Hp Hops Hcbs.
  destruct (sim_run_initial b n ds ops t0 Hp) as [Hs _].
  pose proof (lower_run_by_timers b (S n) ops (Full.initial t0 ds) Hops) as Hpops.
  assert (Hplain : forall k d cb,
            lower_run b (S n) ops (Full.initial t0 ds) !! k = Some (CreateTask d cb) ->
            cb_throws cb = false).
  { intros k d cb Hk. apply list_elem_of_lookup_2 in Hk.
    destruct (lower_run_creates b (S n) ops _ d cb Hk) as (v & body & Hin).
    by apply (Hcbs v cb body). }
  set (pops := lower_run b (S n) ops (Full.initial t0 ds)) in *.
  set (W := (Full.run b (S n) ops (Full.initial t0 ds)).2) in *.
  pose proof (map_lists_waiting_tasks b pops t0 i l Hpops Hplain) as Hiff.
  set (w := (run b pops (initial t0)).2) in *.
  rewrite <- (sim_this _ _ Hs), <- (sim_timers _ _ Hs), Hiff. split.
  - intros (tm & t & Hin & Htm & Hl & Hid).
    destruct (sim_task w W l t Hs Hl) as (t' & Hl' & Hid' & _).
    exists tm, t'. by rewrite Hid'.
  - intros (tm & t' & Hin & Htm & Hl' & Hid').
    destruct (sim_task_r w W l t' Hs Hl') as (t & Hl & Hid & _).
    exists tm, t. by rewrite <- Hid.
Qed.

(** Task 1 was cancelled and task 2 waits: timer 2 is held for it. *)
Lemma tasks_are_the_waiting_ones_witness :
  exists tm t,
    tm ∈ Full.timers
           (Full.run Src 1
              [Full.CreateTask (Full.DateRef 0) (Full.Function cb_ok []);
               Full.CreateTask (Full.DateRef 1) (Full.Function cb_ok []);
               Full.CancelTask 1]
              (Full.initial 0 [Num 5; Num 9])).2 /\
    t_task tm = 1%nat /\
    Full.heap
      (Full.run Src 1
         [Full.CreateTask (Full.DateRef 0) (Full.Function cb_ok []);
          Full.CreateTask (Full.DateRef 1) (Full.Function cb_ok []);
          Full.CancelTask 1]
         (Full.initial 0 [Num 5; Num 9])).2 !! 1%nat = Some (Full.TaskObj t) /\
    Full.id t = 2.
Proof.
  assert (Hcbs : forall v cb body,
            Full.CreateTask v (Full.Function cb body)
            ∈ [Full.CreateTask (Full.DateRef 0) (Full.Function cb_ok []);
               Full.CreateTask (Full.DateRef 1) (Full.Function cb_ok []);
               Full.CancelTask 1] ->
            cb_throws cb = false).
  { intros v cb body Hin. rewrite !elem_of_cons in Hin.
    destruct Hin as [Hin|[Hin|[Hin|Hin]]];
      [by injection Hin as _ -> _ | by injection Hin as _ -> _ | discriminate Hin
      | by apply elem_of_nil in Hin]. }
  apply (proj1 (tasks_are_the_waiting_ones Src 0 [Num 5; Num 9]
                  [Full.CreateTask (Full.DateRef 0) (Full.Function cb_ok []);
                   Full.CreateTask (Full.DateRef 1) (Full.Function cb_ok []);
                   Full.CancelTask 1] 0 2 1%nat
                  ltac:(repeat constructor) ltac:(repeat constructor) Hcbs)).
  reflexivity.
Defined.

(** ** When the map is empty *)




(** ** Counting tasks *)

Lemma full_count_cancelled_cons op ops r rs :
  Full.count_cancelled (op :: ops) (r :: rs)
  = Full.count_cancelled [op] [r] + Full.count_cancelled ops rs.
Proof. destruct op; try done. destruct r as [[| |[]|]|]; cbn; lia. Qed.

Lemma same_kind_counts pop op r r' :
  same_kind pop op -> same_result r r' ->
  is_create pop = Full.is_create op /\
  count_cancelled [pop] [r] = Full.count_cancelled [op] [r'].
Proof.
  destruct pop, op; cbn; try done; intros _; try done.
  destruct r as [[| |[]|]|[cb|]], r' as [[| |[]|]|[cb'| |]]; cbn; try done;
    intros [=]; done.
Qed.

Lemma sim_run_counts b n ds ops w rw :
  sim w rw -> wf w ->
  Forall (fun op => Full.proper ds op = true) ops ->
  length (Full.dates rw) = length ds ->
  count_creates (lower_run b (S n) ops rw) = Full.count_creates ops /\
  count_cancelled (lower_run b (S n) ops rw) (run b (lower_run b (S n) ops rw) w).1
  = Full.count_cancelled ops (Full.run b (S n) ops rw).1.
Proof.
  revert w rw. induction ops as [|op ops IH]; intros w rw Hs Hwf Hp Hlen; [done|].
  apply Forall_cons in Hp as [Hop Hp].
  destruct (sim_step b n ds op w rw Hs Hwf Hop Hlen) as (Hr & Hw & Hd).
  cbn [lower_run]. rewrite full_run_cons. cbn [fst].
  rewrite full_count_cancelled_cons. cbn [Full.count_creates].
  destruct (lower_kind ds op rw Hop Hlen) as [[Hnil (d & t & ->)]|(pop & Hone & Hkind)].
  - rewrite Hnil in Hw |- *. cbn [app run snd] in Hw |- *.
    destruct (IH w _ Hw Hwf Hp Hd) as [Hc1 Hc2]. cbn [Full.is_create].
    rewrite Hc1, Hc2. split; [lia|]. cbn [Full.step]. rewrite full_fmapM_eq. cbn. lia.
  - rewrite Hone in Hr, Hw |- *. rewrite run_one in Hr, Hw.
    cbn [fst snd same_results] in Hr, Hw. cbn [app]. rewrite run_cons. cbn [fst].
    rewrite count_cancelled_cons. cbn [count_creates].
    destruct (IH _ _ Hw (wf_step b pop w Hwf) Hp Hd) as [Hc1 Hc2].
    destruct (same_kind_counts pop op _ _ Hkind Hr) as [Hk1 Hk2].
    rewrite Hc1, Hc2, Hk1, Hk2. done.
Qed.

(** X17: take a program that gives [Date] objects as [targetTime]s and, as
    callbacks, functions that do not call the manager.  After every run of
    it, the tasks created are accounted for, each once: the number of
    [createTask] calls is the number of entries of the map, plus the number
    of [cancelTask] calls that returned [true], plus the number of calls of
    callbacks that returned.  No task is lost, and none is in the map after
    it has run or was cancelled. *)
Theorem tasks_accounted_for
    (b : Build) (n : nat) (ds : list JsNumber) (ops : list Full.Op) (t0 : Z) :
  Forall (fun op => Full.proper ds op = true) ops ->
  Full.count_creates ops
  = Z.of_nat (length (tasks (Full.this (Full.run b (S n) ops (Full.initial t0 ds)).2)))
    + Full.count_cancelled ops (Full.run b (S n) ops (Full.initial t0 ds)).1
    + count_returned (Full.log (Full.run b (S n) ops (Full.initial t0 ds)).2).
Proof.
  intros Hp.
  destruct (sim_run_initial b n ds ops t0 Hp) as [Hs _].
  destruct (sim_run_counts b n ds ops (initial t0) (Full.initial t0 ds)
              (sim_initial t0 ds) (wf_initial t0) Hp eq_refl) as [Hc1 Hc2].
  pose proof (every_task_accounted b
                (lower_run b (S n) ops (Full.initial t0 ds)) t0) as H.
  by rewrite Hc1, Hc2, (sim_this _ _ Hs), (sim_log _ _ Hs) in H.
Qed.

(** Three tasks: one cancelled, one run, one waiting. *)
Lemma tasks_accounted_for_witness :
  3 = Z.of_nat (length (tasks (Full.this
        (Full.run Esm 1
           [Full.CreateTask (Full.DateRef 0) (Full.Function cb_ok []);
            Full.CreateTask (Full.DateRef 1) (Full.Function cb_ok []);
            Full.CreateTask (Full.DateRef 1) (Full.Function cb_ok []);
            Full.CancelTask 2; Full.Fire 1%nat]
           (Full.initial 0 [Num 5; Num 9])).2)))
      + Full.count_cancelled
          [Full.CreateTask (Full.DateRef 0) (Full.Function cb_ok []);
           Full.CreateTask (Full.DateRef 1) (Full.Function cb_ok []);
           Full.CreateTask (Full.DateRef 1) (Full.Function cb_ok []);
           Full.CancelTask 2; Full.Fire 1%nat]
          (Full.run Esm 1
             [Full.CreateTask (Full.DateRef 0) (Full.Function cb_ok []);
              Full.CreateTask (Full.DateRef 1) (Full.Function cb_ok []);
              Full.CreateTask (Full.DateRef 1) (Full.Function cb_ok []);
              Full.CancelTask 2; Full.Fire 1%nat]
             (Full.initial 0 [Num 5; Num 9])).1
      + count_returned (Full.log
          (Full.run Esm 1
             [Full.CreateTask (Full.DateRef 0) (Full.Function cb_ok []);
              Full.CreateTask (Full.DateRef 1) (Full.Function cb_ok []);
              Full.CreateTask (Full.DateRef 1) (Full.Function cb_ok []);
              Full.CancelTask 2; Full.Fire 1%nat]
             (Full.initial 0 [Num 5; Num 9])).2).
Proof.
  apply (tasks_accounted_for Esm 0 [Num 5; Num 9]
           [Full.CreateTask (Full.DateRef 0) (Full.Function cb_ok []);
            Full.CreateTask (Full.DateRef 1) (Full.Function cb_ok []);
            Full.CreateTask (Full.DateRef 1) (Full.Function cb_ok []);
            Full.CancelTask 2; Full.Fire 1%nat] 0).
  repeat constructor.
Defined.
